(** * Mail directory consistency engine: [management/mailconfig.py]

    A shallow embedding of the validation, mutation and reconciliation
    functions of [mailconfig.py], and the properties of the directory
    specification checked against them.

    Conventions of the embedding.
    - A Python [str] is a sequence of code points.  The embedding holds
      the strings whose code points are all below 256, as a [string] with
      one character per code point: [Py.code a] is the code point of [a]
      and [String.length] is [len].  It is not a UTF-8 encoding: U+00FC
      is the one character ["252"], and a string with a code point from
      256 on has no counterpart here.  Literals hold ASCII characters
      only; other characters are written with [String] and their code.
      [isspace], [strip], [lower] and the whitespace class of [re] are
      the Unicode ones of Python, restricted to this range.
    - The two SQLite relations [users(email PRIMARY KEY, password,
      privileges)] and [aliases(source PRIMARY KEY, destination)] are finite
      maps keyed by their primary key.
    - Python exceptions are values of [exn]; a computation that may raise
      returns a [result].  Code that reads and writes the database runs in
      the state monad [M] over [db].
    - Everything imported from outside the file ([email_validator], the
      [idna] codec, [utils], [doveadm], [dns_update], [web_update]) is a
      field of the record [collaborators]. *)

From stdpp Require Import gmap strings list fin_maps sorting.
From Stdlib Require Import Ascii.
From Stdlib Require String.

Open Scope string_scope.

(** ** Python strings *)

Module Py.

Definition code (a : ascii) : N := N_of_ascii a.

(** A character of the ASCII range. *)
Definition is_ascii (a : ascii) : bool := (code a <? 128)%N.

(** [str.isspace], which is also the whitespace of [str.strip] and of the
    class [\s] of [re]: among the code points below 256, TAB to CR, FS to
    US, SPACE, NEXT LINE (U+0085) and NO-BREAK SPACE (U+00A0). *)
Definition is_space (a : ascii) : bool :=
  ((9 <=? code a) && (code a <=? 13) || (28 <=? code a) && (code a <=? 32)
   || (code a =? 133) || (code a =? 160))%N.

(** The ranges [A-Z], [a-z] and [0-9] of a regular expression. *)
Definition is_upper (a : ascii) : bool := ((65 <=? code a) && (code a <=? 90))%N.
Definition is_lower (a : ascii) : bool := ((97 <=? code a) && (code a <=? 122))%N.
Definition is_digit (a : ascii) : bool := ((48 <=? code a) && (code a <=? 57))%N.

(** The code points below 256 that [str.lower] changes: [A] to [Z], and
    U+00C0 to U+00DE without the multiplication sign U+00D7.  Each goes to
    the code point 32 above it. *)
Definition has_lowercase (a : ascii) : bool :=
  (is_upper a
   || (192 <=? code a) && (code a <=? 222) && negb (code a =? 215))%N.

Definition lower_char (a : ascii) : ascii :=
  if has_lowercase a then ascii_of_N (code a + 32) else a.

Fixpoint all_chars (p : ascii -> bool) (s : string) : bool :=
  match s with
  | EmptyString => true
  | String a s' => p a && all_chars p s'
  end.

Fixpoint any_char (p : ascii -> bool) (s : string) : bool :=
  match s with
  | EmptyString => false
  | String a s' => p a || any_char p s'
  end.

(** [s.lower()] *)
Fixpoint lower (s : string) : string :=
  match s with
  | EmptyString => EmptyString
  | String a s' => String (lower_char a) (lower s')
  end.

(** [s.lstrip()], [s.rstrip()], [s.strip()] *)
Fixpoint lstrip (s : string) : string :=
  match s with
  | EmptyString => EmptyString
  | String a s' => if is_space a then lstrip s' else s
  end.

Fixpoint rstrip (s : string) : string :=
  match s with
  | EmptyString => EmptyString
  | String a s' =>
      match rstrip s' with
      | EmptyString => if is_space a then EmptyString else String a EmptyString
      | r => String a r
      end
  end.

Definition strip (s : string) : string := rstrip (lstrip s).

(** [s.startswith(p)] *)
Fixpoint startswith (s p : string) : bool :=
  match p, s with
  | EmptyString, _ => true
  | String b p', String a s' => Ascii.eqb a b && startswith s' p'
  | String _ _, EmptyString => false
  end.

(** [s.split(c)] for a one-character separator: one more piece than there
    are occurrences of [c]. *)
Fixpoint split (c : ascii) (s : string) : list string :=
  match s with
  | EmptyString => [EmptyString]
  | String a s' =>
      if Ascii.eqb a c then EmptyString :: split c s'
      else match split c s' with
           | [] => [String a EmptyString]
           | h :: t => String a h :: t
           end
  end.

(** [s.split(c, 1)]: cut at the first occurrence of [c] only. *)
Fixpoint split1 (c : ascii) (s : string) : list string :=
  match s with
  | EmptyString => [EmptyString]
  | String a s' =>
      if Ascii.eqb a c then [EmptyString; s']
      else match split1 c s' with
           | [] => [String a EmptyString]
           | h :: t => String a h :: t
           end
  end.

(** [sep.join(l)] *)
Fixpoint join (sep : string) (l : list string) : string :=
  match l with
  | [] => EmptyString
  | [x] => x
  | x :: l' => x ++ sep ++ join sep l'
  end.

(** Number of occurrences of a character. *)
Fixpoint count (c : ascii) (s : string) : nat :=
  match s with
  | EmptyString => 0
  | String a s' => (if Ascii.eqb a c then 1 else 0) + count c s'
  end.

(** [b.decode('ascii')] and [s.encode('ascii')]: the identity on strings of
    the ASCII range, [UnicodeError] otherwise. *)
Definition ascii_codec (s : string) : option string :=
  if all_chars is_ascii s then Some s else None.

(** Comparison of [str] values: lexicographic on character codes. *)
Fixpoint str_le (s t : string) : bool :=
  match s, t with
  | EmptyString, _ => true
  | String _ _, EmptyString => false
  | String a s', String b t' =>
      if (code a <? code b)%N then true
      else if (code b <? code a)%N then false
      else str_le s' t'
  end.

End Py.

(** ** Exceptions and results *)

Inductive exn : Type :=
  | ValueError (msg : string)
  | IndexError
  | KeyError (key : string)
  | UnicodeError
  | CalledProcessError (output : string).

Inductive result (A : Type) : Type :=
  | Ret (a : A)
  | Raise (e : exn).
Arguments Ret {A} a.
Arguments Raise {A} e.

Definition rbind {A B} (r : result A) (f : A -> result B) : result B :=
  match r with
  | Ret a => f a
  | Raise e => Raise e
  end.

(** [[f(x) for x in l]] where [f] may raise. *)
Fixpoint rmap {A B} (f : A -> result B) (l : list A) : result (list B) :=
  match l with
  | [] => Ret []
  | x :: l' => rbind (f x) (fun y => rbind (rmap f l') (fun ys => Ret (y :: ys)))
  end.

(** ** Data model *)

(** The environment dictionary [env]. *)
Record env : Type := {
  PRIMARY_HOSTNAME : string;
  STORAGE_ROOT : string
}.

(** The database [users.sqlite]: a [users] row is keyed by [email] and
    carries [(password, privileges)]; an [aliases] row is keyed by [source]
    and carries [destination]. *)
Record db : Type := {
  users : gmap string (string * string);
  aliases : gmap string string
}.

Definition set_users (st : db) (u : gmap string (string * string)) : db :=
  {| users := u; aliases := aliases st |}.
Definition set_aliases (st : db) (a : gmap string string) : db :=
  {| users := users st; aliases := a |}.

(** What a management function hands back: a [(reason, 400)] tuple, a
    string, or [None]. *)
Inductive response : Type :=
  | Error400 (reason : string)
  | Text (s : string)
  | PyNone.

(** The [mode] argument of [validate_email]. *)
Inductive mode : Type := ModeNone | ModeUser | ModeAlias.

(** Code imported by [mailconfig.py] from outside the file.
    - [validate_email_ email allow_empty_local]: [email_validator] called
      with [allow_smtputf8=False, check_deliverability=False]; [true] when
      it does not raise [EmailNotValidError].
    - [idna_encode], [idna_decode]: [str.encode("idna")] and
      [bytes.decode("idna")].
    - [sort_email_addresses], [sort_domains]: from [utils].
    - [hash_password_]: the [doveadm pw] call of [hash_password].
    - [doveadm_mailbox_list]: [inl] its output, [inr] the output carried by
      [CalledProcessError]; [doveadm_mailbox_create]: [true] on exit
      status 0.
    - [do_dns_update], [do_web_update]: the regeneration hooks. *)
Record collaborators : Type := {
  validate_email_ : string -> bool -> bool;
  idna_encode : string -> result string;
  idna_decode : string -> result string;
  sort_email_addresses : list string -> env -> list string;
  sort_domains : list string -> env -> list string;
  hash_password_ : string -> result string;
  doveadm_mailbox_list : string -> string + string;
  doveadm_mailbox_create : string -> string -> bool;
  do_dns_update : env -> db -> string;
  do_web_update : env -> db -> string
}.

(** The state monad of the database, with exceptions. *)
Definition M (A : Type) : Type := db -> result A * db.

Definition mret {A} (a : A) : M A := fun st => (Ret a, st).
Definition mraise {A} (e : exn) : M A := fun st => (Raise e, st).
Definition mbind {A B} (m : M A) (f : A -> M B) : M B :=
  fun st => match m st with
            | (Ret a, st') => f a st'
            | (Raise e, st') => (Raise e, st')
            end.
(** A read of the database that may raise. *)
Definition mread {A} (f : db -> result A) : M A := fun st => (f st, st).

Declare Scope py_scope.
Delimit Scope py_scope with py.
Notation "x <- m ;; k" := (mbind m (fun x => k))
  (at level 100, m at next level, right associativity) : py_scope.
Notation "m ;;; k" := (mbind m (fun _ => k))
  (at level 100, right associativity) : py_scope.

Definition NL : string := String "010" EmptyString.

(** An entry of the [aliases] list of a domain in [get_mail_aliases_ex]. *)
Record alias_entry : Type := {
  source : string;
  source_display : string;
  destination : list string;
  required : bool
}.

(** The order of the sort keys [(alias["required"], alias["source"])]:
    tuples compare lexicographically, [False] is below [True]. *)
Definition key_leb (a b : alias_entry) : bool :=
  if Bool.eqb (required a) (required b)
  then Py.str_le (source a) (source b)
  else negb (required a) && required b.

Definition key_le (a b : alias_entry) : Prop := key_leb a b.

Global Instance key_le_dec a b : Decision (key_le a b).
Proof. unfold key_le. apply _. Defined.

Section Mailconfig.

Context (X : collaborators).

(** ** Address normalizer *)

Definition validate_email (email : string) (md : mode) : bool :=
  if negb (validate_email_ X email
             (match md with ModeAlias => true | _ => false end))
  then false
  else match md with
       | ModeUser =>
           if (255 <? String.length email)%nat then false
           else if Py.any_char
                     (fun a => negb (Ascii.eqb a "@" || Ascii.eqb a "."
                                     || Py.is_lower a || Py.is_digit a
                                     || Ascii.eqb a "_" || Ascii.eqb a "-"))
                     email
           then false
           else true
       | _ => true
       end.

(** The [try] block of [sanitize_idn_email_address]. *)
Definition sanitize_try (email : string) : result string :=
  match Py.split "@" email with
  | [localpart; domainpart] =>
      rbind (idna_encode X domainpart) (fun b =>
      match Py.ascii_codec b with
      | Some domainpart' => Ret (localpart ++ "@" ++ domainpart')
      | None => Raise UnicodeError
      end)
  | [_] => Raise (ValueError "not enough values to unpack (expected 2, got 1)")
  | _ => Raise (ValueError "too many values to unpack (expected 2)")
  end.

Definition sanitize_idn_email_address (email : string) : string :=
  match sanitize_try email with
  | Ret r => r
  | Raise _ => email
  end.

(** The [try] block of [prettify_idn_email_address]. *)
Definition prettify_try (email : string) : result string :=
  match Py.split "@" email with
  | [localpart; domainpart] =>
      match Py.ascii_codec domainpart with
      | Some b =>
          rbind (idna_decode X b) (fun domainpart' =>
          Ret (localpart ++ "@" ++ domainpart'))
      | None => Raise UnicodeError
      end
  | [_] => Raise (ValueError "not enough values to unpack (expected 2, got 1)")
  | _ => Raise (ValueError "too many values to unpack (expected 2)")
  end.

Definition prettify_idn_email_address (email : string) : string :=
  match prettify_try email with
  | Ret r => r
  | Raise _ => email
  end.

Definition dcv_localparts : list string :=
  ["admin"; "administrator"; "postmaster"; "hostmaster"; "webmaster"].

Definition is_dcv_address (email : string) : bool :=
  let email := Py.lower email in
  existsb (fun localpart =>
             Py.startswith email (localpart ++ "@")
             || Py.startswith email (localpart ++ "+"))
          dcv_localparts.

Definition get_domain (emailaddr : string) (as_unicode : bool) : result string :=
  match Py.split1 "@" emailaddr !! 1%nat with
  | None => Raise IndexError
  | Some ret =>
      if as_unicode then
        match Py.ascii_codec ret with
        | Some b => idna_decode X b
        | None => Raise UnicodeError
        end
      else Ret ret
  end.

Definition validate_password (pw : string) : result unit :=
  if String.eqb (Py.strip pw) "" then Raise (ValueError "No password provided.")
  else if Py.any_char Py.is_space pw
  then Raise (ValueError "Passwords cannot contain spaces.")
  else if (String.length pw <? 4)%nat
  then Raise (ValueError "Passwords must be at least four characters.")
  else Ret tt.

Definition parse_privs (value : string) : list string :=
  filter (fun p => Py.strip p ≠ "") (Py.split "010" value).

Definition validate_privilege (priv : string) : option response :=
  if Py.any_char (Ascii.eqb "010") priv || String.eqb (Py.strip priv) ""
  then Some (Error400 ("That's not a valid privilege (" ++ priv ++ ")."))
  else None.

(** ** Directory store and reader *)

(** [SELECT email FROM users], sorted by [utils.sort_email_addresses]. *)
Definition get_mail_users (env0 : env) (st : db) : list string :=
  sort_email_addresses X ((map_to_list (users st)).*1) env0.

(** [SELECT source, destination FROM aliases] made into a dict, listed in
    the order [utils.sort_email_addresses] gives to its keys. *)
Definition get_mail_aliases (env0 : env) (st : db) : result (list (string * string)) :=
  rmap (fun source =>
          match aliases st !! source with
          | Some destination => Ret (source, destination)
          | None => Raise (KeyError source)
          end)
       (sort_email_addresses X ((map_to_list (aliases st)).*1) env0).

Definition get_mail_domains (env0 : env) (filter_aliases : string * string -> bool)
    (st : db) : result (gset string) :=
  rbind (rmap (fun addr => get_domain addr false) (get_mail_users env0 st))
    (fun of_users =>
  rbind (get_mail_aliases env0 st) (fun all_aliases =>
  rbind (rmap (fun a => get_domain a.1 false) (List.filter filter_aliases all_aliases))
    (fun of_aliases =>
  Ret (list_to_set (of_users ++ of_aliases)%list)))).

Definition get_mail_user_privileges (email : string) (empty_on_error : bool)
    (st : db) : string + list string :=
  match users st !! email with
  | None =>
      if empty_on_error then inr []
      else inl ("That's not a user (" ++ email ++ ").")
  | Some (_, privileges) => inr (parse_privs privileges)
  end.

Definition get_system_administrator (env0 : env) : string :=
  "administrator@" ++ PRIMARY_HOSTNAME env0.

(** The [filter_aliases] lambda of [get_required_aliases]. *)
Definition not_auto_alias (alias : string * string) : bool :=
  negb (Py.startswith alias.1 "postmaster@")
  && negb (Py.startswith alias.1 "admin@")
  && negb (Py.startswith alias.1 "@").

Definition get_required_aliases (env0 : env) (st : db) : result (gset string) :=
  rbind (get_mail_domains env0 not_auto_alias st) (fun real_mail_domains =>
  Ret ({[ get_system_administrator env0 ]}
       ∪ {[ "hostmaster@" ++ PRIMARY_HOSTNAME env0 ]}
       ∪ set_bind (fun domain => {[ "postmaster@" ++ domain; "admin@" ++ domain ]})
                  real_mail_domains)).

(** ** Alias mutations *)

Definition dcv_alias_message : string :=
  "This alias can only have administrators of this system as destinations because the address is frequently used for domain control validation.".

(** The two nested [for] loops of [add_mail_alias] over the pieces of the
    destination; [inl] is the reason of an early [return (reason, 400)]. *)
Fixpoint check_destinations (is_dcv_source : bool) (st : db)
    (entries dests : list string) : string + list string :=
  match entries with
  | [] => inr dests
  | email :: rest =>
      let email := Py.strip email in
      if String.eqb email "" then check_destinations is_dcv_source st rest dests
      else
        let email := sanitize_idn_email_address email in
        if negb (validate_email email ModeNone)
        then inl ("Invalid destination email address (" ++ email ++ ").")
        else if is_dcv_source && negb (is_dcv_address email)
                && negb (match get_mail_user_privileges email true st with
                         | inr privs => bool_decide ("admin" ∈ privs)
                         | inl _ => false
                         end)
        then inl dcv_alias_message
        else check_destinations is_dcv_source st rest (dests ++ [email])%list
  end.

(** [add_mail_alias] up to and including [conn.commit()]: [inl reason] for
    [return (reason, 400)], [inr return_status] otherwise. *)
Definition add_mail_alias_store (source destination : string)
    (update_if_exists : bool) (st : db) : (string + string) * db :=
  let source := sanitize_idn_email_address source in
  let source := Py.lower source in
  let source := Py.strip source in
  if String.eqb source "" then (inl "No incoming email address provided.", st)
  else if negb (validate_email source ModeAlias)
  then (inl ("Invalid incoming email address (" ++ source ++ ")."), st)
  else
    let is_dcv_source := is_dcv_address source in
    let destination := Py.strip destination in
    let d1 := sanitize_idn_email_address destination in
    match (if validate_email d1 ModeAlias && negb is_dcv_source then inr [d1]
           else check_destinations is_dcv_source st
                  (flat_map (Py.split ",") (Py.split "010" destination)) [])
    with
    | inl reason => (inl reason, st)
    | inr dests =>
        if (String.length destination =? 0)%nat
        then (inl "No destination email address(es) provided.", st)
        else
          let destination := Py.join "," dests in
          match aliases st !! source with
          | None =>
              (inr "alias added",
               set_aliases st (<[source := destination]> (aliases st)))
          | Some _ =>
              if negb update_if_exists
              then (inl ("Alias already exists (" ++ source ++ ")."), st)
              else (inr "alias updated",
                    set_aliases st (<[source := destination]> (aliases st)))
          end
    end.

(** [remove_mail_alias] up to and including [conn.commit()]. *)
Definition remove_mail_alias_store (source : string) (st : db)
    : (string + string) * db :=
  let source := sanitize_idn_email_address source in
  match aliases st !! source with
  | None => (inl ("That's not an alias (" ++ source ++ ")."), st)
  | Some _ => (inr "alias removed", set_aliases st (delete source (aliases st)))
  end.

(** ** Reconciliation *)

Definition added_line (env0 : env) (source : string) : string :=
  "added alias " ++ source ++ " (=> " ++ get_system_administrator env0 ++ ")" ++ NL.

Definition removed_line (source target : string) : string :=
  "removed alias " ++ source ++ " (was to " ++ target
  ++ "; domain no longer used for email)" ++ NL.

(** The closure [ensure_admin_alias_exists] of [kick]; [results] is the list
    it appends to. *)
Definition ensure_admin_alias_exists (env0 : env) (existing_users : list string)
    (existing_aliases : list (string * string)) (source : string)
    (results : list string) (st : db) : list string * db :=
  if bool_decide (source ∈ existing_users) then (results, st)
  else if existsb (fun a => String.eqb a.1 source) existing_aliases
  then (results, st)
  else
    let administrator := get_system_administrator env0 in
    let st' := (add_mail_alias_store source administrator false st).2 in
    ((results ++ [added_line env0 source])%list, st').

(** [for alias in required_aliases: ensure_admin_alias_exists(alias)] *)
Fixpoint ensure_required (env0 : env) (existing_users : list string)
    (existing_aliases : list (string * string)) (required : list string)
    (results : list string) (st : db) : list string * db :=
  match required with
  | [] => (results, st)
  | alias :: rest =>
      let '(results', st') :=
        ensure_admin_alias_exists env0 existing_users existing_aliases alias results st in
      ensure_required env0 existing_users existing_aliases rest results' st'
  end.

(** The condition of the removal loop of [kick], once [source] is split. *)
Definition is_stale (env0 : env) (required_aliases : gset string)
    (user source target : string) : bool :=
  bool_decide (user ∈ ["postmaster"; "admin"])
  && bool_decide (source ∉ required_aliases)
  && String.eqb target (get_system_administrator env0).

(** [for source, target in existing_aliases: ...] *)
Fixpoint remove_stale (env0 : env) (required_aliases : gset string)
    (existing_aliases : list (string * string)) (results : list string)
    : M (list string) :=
  match existing_aliases with
  | [] => mret results
  | (source, target) :: rest =>
      match Py.split "@" source with
      | [user; domain] =>
          if is_stale env0 required_aliases user source target
          then fun st =>
                 let st' := (remove_mail_alias_store source st).2 in
                 remove_stale env0 required_aliases rest
                   (results ++ [removed_line source target])%list st'
          else remove_stale env0 required_aliases rest results
      | [_] => mraise (ValueError "not enough values to unpack (expected 2, got 1)")
      | _ => mraise (ValueError "too many values to unpack (expected 2)")
      end
  end.

(** [kick] up to the regeneration calls: the list [results] at that point. *)
Definition kick_actions (env0 : env) (mail_result : option string) : M (list string) :=
  let results := match mail_result with
                 | Some r => [r ++ NL]
                 | None => []
                 end in
  fun st =>
    let existing_users := get_mail_users env0 st in
    match get_mail_aliases env0 st with
    | Raise e => (Raise e, st)
    | Ret existing_aliases =>
        match get_required_aliases env0 st with
        | Raise e => (Raise e, st)
        | Ret required_aliases =>
            let '(results, st1) :=
              ensure_required env0 existing_users existing_aliases
                (elements required_aliases) results st in
            remove_stale env0 required_aliases existing_aliases results st1
        end
    end.

Definition kick (env0 : env) (mail_result : option string) : M string :=
  (results <- kick_actions env0 mail_result ;;
   fun st =>
     let results := (results ++ [do_dns_update X env0 st])%list in
     let results := (results ++ [do_web_update X env0 st])%list in
     (Ret (Py.join "" (filter (fun s => s ≠ "") results)), st))%py.

Definition add_mail_alias (source destination : string) (env0 : env)
    (update_if_exists do_kick : bool) : M response :=
  fun st =>
    match add_mail_alias_store source destination update_if_exists st with
    | (inl reason, st') => (Ret (Error400 reason), st')
    | (inr return_status, st') =>
        if do_kick
        then (r <- kick env0 (Some return_status) ;; mret (Text r))%py st'
        else (Ret PyNone, st')
    end.

Definition remove_mail_alias (source : string) (env0 : env) (do_kick : bool)
    : M response :=
  fun st =>
    match remove_mail_alias_store source st with
    | (inl reason, st') => (Ret (Error400 reason), st')
    | (inr return_status, st') =>
        if do_kick
        then (r <- kick env0 (Some return_status) ;; mret (Text r))%py st'
        else (Ret PyNone, st')
    end.

(** ** User mutations *)

Definition hash_password (pw : string) : result string :=
  rbind (hash_password_ X pw) (fun out => Ret (Py.strip out)).

Definition dcv_user_message : string :=
  "You may not make a user account for that address because it is frequently used for domain control validation. Use an alias instead if necessary.".

Definition user_charset_message : string :=
  "User account email addresses may only use the lowercase ASCII letters a-z, the digits 0-9, underscore (_), hyphen (-), and period (.).".

(** The privilege block of [add_mail_user]: [inl] is an early return. *)
Definition check_privs (privs : option string) : response + list string :=
  match privs with
  | None => inr []
  | Some privs =>
      if String.eqb (Py.strip privs) "" then inr []
      else
        let privs := Py.split "010" privs in
        match list_find (fun p => is_Some (validate_privilege p)) privs with
        | Some (_, p) =>
            match validate_privilege p with
            | Some validation => inl validation
            | None => inr privs
            end
        | None => inr privs
        end
  end.

(** [for folder in (...): if folder not in existing_mboxes: doveadm create] *)
Fixpoint create_folders (email : string) (existing_mboxes folders : list string)
    : result unit :=
  match folders with
  | [] => Ret tt
  | folder :: rest =>
      if bool_decide (folder ∈ existing_mboxes)
      then create_folders email existing_mboxes rest
      else if doveadm_mailbox_create X email folder
      then create_folders email existing_mboxes rest
      else Raise (CalledProcessError "")
  end.

Definition add_mail_user (email pw : string) (privs : option string) (env0 : env)
    : M response :=
  fun st =>
    if String.eqb (Py.strip email) ""
    then (Ret (Error400 "No email address provided."), st)
    else if negb (validate_email email ModeNone)
    then (Ret (Error400 "Invalid email address."), st)
    else if negb (validate_email email ModeUser)
    then (Ret (Error400 user_charset_message), st)
    else if is_dcv_address email && (0 <? length (get_mail_users env0 st))%nat
    then (Ret (Error400 dcv_user_message), st)
    else
      match validate_password pw with
      | Raise e => (Raise e, st)
      | Ret _ =>
      match check_privs privs with
      | inl validation => (Ret validation, st)
      | inr privs =>
      match hash_password pw with
      | Raise e => (Raise e, st)
      | Ret pw =>
      match users st !! email with
      | Some _ => (Ret (Error400 "User already exists."), st)
      | None =>
          let st1 := set_users st (<[email := (pw, Py.join NL privs)]> (users st)) in
          match doveadm_mailbox_list X email with
          | inr output =>
              (Ret (Error400 ("Failed to initialize the user: " ++ output)),
               set_users st1 (delete email (users st1)))
          | inl output =>
              let existing_mboxes := Py.split "010" output in
              match create_folders email existing_mboxes
                      ["INBOX"; "Trash"; "Spam"; "Drafts"] with
              | Raise e => (Raise e, st1)
              | Ret _ =>
                  (r <- kick env0 (Some "mail user added") ;; mret (Text r))%py st1
              end
          end
      end end end end.

Definition set_mail_password (email pw : string) (env0 : env) : M response :=
  fun st =>
    match validate_password pw with
    | Raise e => (Raise e, st)
    | Ret _ =>
        match hash_password pw with
        | Raise e => (Raise e, st)
        | Ret pw =>
            match users st !! email with
            | None => (Ret (Error400 ("That's not a user (" ++ email ++ ").")), st)
            | Some (_, privileges) =>
                (Ret (Text "OK"),
                 set_users st (<[email := (pw, privileges)]> (users st)))
            end
        end
    end.

Definition remove_mail_user (email : string) (env0 : env) : M response :=
  fun st =>
    match users st !! email with
    | None => (Ret (Error400 ("That's not a user (" ++ email ++ ").")), st)
    | Some _ =>
        (r <- kick env0 (Some "mail user removed") ;; mret (Text r))%py
          (set_users st (delete email (users st)))
    end.

(** ** Directory reader: aliases grouped by domain *)

(** [domains[domain]["aliases"].append(entry)], creating the group of
    [domain] at the end of the dict when it is new. *)
Fixpoint group_append (domain : string) (entry : alias_entry)
    (domains : list (string * list alias_entry)) : list (string * list alias_entry) :=
  match domains with
  | [] => [(domain, [entry])]
  | (d, entries) :: rest =>
      if String.eqb d domain then (d, (entries ++ [entry])%list) :: rest
      else (d, entries) :: group_append domain entry rest
  end.

(** The first loop of [get_mail_aliases_ex]. *)
Fixpoint group_aliases (required_aliases : gset string)
    (rows : list (string * string)) (domains : list (string * list alias_entry))
    : result (list (string * list alias_entry)) :=
  match rows with
  | [] => Ret domains
  | (src, dst) :: rest =>
      rbind (get_domain src true) (fun domain =>
      let entry :=
        {| source := src;
           source_display := prettify_idn_email_address src;
           destination :=
             map (fun d => prettify_idn_email_address (Py.strip d)) (Py.split "," dst);
           required := bool_decide (src ∈ required_aliases) |} in
      group_aliases required_aliases rest (group_append domain entry domains))
  end.

Definition get_mail_aliases_ex (env0 : env) (st : db)
    : result (list (string * list alias_entry)) :=
  rbind (get_required_aliases env0 st) (fun required_aliases =>
  rbind (get_mail_aliases env0 st) (fun rows =>
  rbind (group_aliases required_aliases rows []) (fun domains =>
  rbind (rmap (fun domain =>
                 match list_find (fun g => g.1 = domain) domains with
                 | Some (_, g) => Ret g
                 | None => Raise (KeyError domain)
                 end)
              (sort_domains X (domains.*1) env0)) (fun domains =>
  Ret (map (fun g => (g.1, merge_sort key_le g.2)) domains))))).

End Mailconfig.

(** ** Passwords and privileges of an account *)

Section Accounts.

Context (X : collaborators).

Definition get_mail_password (email : string) (env0 : env) (st : db) : result string :=
  match users st !! email with
  | None => Raise (ValueError ("That's not a user (" ++ email ++ ")."))
  | Some (password, _) => Ret password
  end.

Definition add_remove_mail_user_privilege (email priv action : string) (env0 : env)
    : M response :=
  fun st =>
    match validate_privilege priv with
    | Some validation => (Ret validation, st)
    | None =>
        match get_mail_user_privileges email false st with
        | inl reason => (Ret (Error400 reason), st)
        | inr privs =>
            match
              (if String.eqb action "add"
               then inr (if bool_decide (priv ∈ privs) then privs
                         else (privs ++ [priv])%list)
               else if String.eqb action "remove"
               then inr (filter (fun p => p ≠ priv) privs)
               else inl "Invalid action.")
            with
            | inl reason => (Ret (Error400 reason), st)
            | inr privs =>
                match users st !! email with
                | None => (Ret (Error400 "Something went wrong."), st)
                | Some (password, _) =>
                    (Ret (Text "OK"),
                     set_users st (<[email := (password, Py.join NL privs)]> (users st)))
                end
            end
        end
    end.

End Accounts.

(** ** Grouping by domain *)

(** [domains[domain][...].append(entry)] for entries of any kind, the group
    of [domain] being created at the end of the dict when it is new (the
    loop shared by [get_mail_users_ex] and [get_mail_aliases_ex]). *)
Fixpoint append_to_group {A : Type} (domain : string) (entry : A)
    (domains : list (string * list A)) : list (string * list A) :=
  match domains with
  | [] => [(domain, [entry])]
  | (d, entries) :: rest =>
      if String.eqb d domain then (d, (entries ++ [entry])%list) :: rest
      else (d, entries) :: append_to_group domain entry rest
  end.

(** [[domains[domain] for domain in keys]] *)
Definition lookup_groups {A : Type} (domains : list (string * list A))
    (keys : list string) : result (list (string * list A)) :=
  rmap (fun domain =>
          match list_find (fun g => g.1 = domain) domains with
          | Some (_, g) => Ret g
          | None => Raise (KeyError domain)
          end)
       keys.

(** [entry] is listed in the group of [domain]. *)
Definition listed {A : Type} (domains : list (string * list A)) (domain : string)
    (entry : A) : Prop :=
  ∃ g, g ∈ domains ∧ g.1 = domain ∧ entry ∈ g.2.

(** The entry [get_mail_aliases_ex] builds for a row of [aliases]. *)
Definition alias_entry_of (X : collaborators) (required_aliases : gset string)
    (src dst : string) : alias_entry :=
  {| source := src;
     source_display := prettify_idn_email_address X src;
     destination := map (fun d => prettify_idn_email_address X (Py.strip d)) (Py.split "," dst);
     required := bool_decide (src ∈ required_aliases) |}.

(** What is assumed of [utils.sort_domains]: it reorders. *)
Definition domain_sort_reorders (X : collaborators) : Prop :=
  ∀ l env0, sort_domains X l env0 ≡ₚ l.

(** ** Directory reader: users grouped by domain *)

(** The value under ["privileges"] in a user entry: a list for an active
    account, the string [""] for an archived one. *)
Inductive privileges_field : Type :=
  | PrivList (l : list string)
  | PrivText (s : string).

(** An entry of the [users] list of a domain in [get_mail_users_ex];
    [mailbox] and [mailbox_size] are the keys that are not always set. *)
Record user_entry : Type := {
  email : string;
  privileges : privileges_field;
  status : string;
  mailbox : option string;
  mailbox_size : option Z
}.

(** The order of the sort keys [(user["status"] != "active", user["email"])]. *)
Definition user_key_leb (a b : user_entry) : bool :=
  let ka := negb (String.eqb (status a) "active") in
  let kb := negb (String.eqb (status b) "active") in
  if Bool.eqb ka kb then Py.str_le (email a) (email b) else negb ka && kb.

Definition user_key_le (a b : user_entry) : Prop := user_key_leb a b.

Global Instance user_key_le_dec a b : Decision (user_key_le a b).
Proof. unfold user_key_le. apply _. Defined.

(** The file system as [get_mail_users_ex] sees it: [os.listdir] ([inl] is
    the message of the [OSError] it raises) and [utils.du]. *)
Record filesystem : Type := {
  listdir : string -> string + list string;
  du : string -> result Z
}.

(** A computation that may also raise [OSError]. *)
Inductive outcome (A : Type) : Type :=
  | Returned (a : A)
  | Raised (e : exn)
  | RaisedOSError (msg : string).
Arguments Returned {A} a.
Arguments Raised {A} e.
Arguments RaisedOSError {A} msg.

Definition obind {A B} (o : outcome A) (f : A -> outcome B) : outcome B :=
  match o with
  | Returned a => f a
  | Raised e => Raised e
  | RaisedOSError msg => RaisedOSError msg
  end.

Definition of_result {A} (r : result A) : outcome A :=
  match r with
  | Ret a => Returned a
  | Raise e => Raised e
  end.

Fixpoint omap {A B} (f : A -> outcome B) (l : list A) : outcome (list B) :=
  match l with
  | [] => Returned []
  | x :: l' => obind (f x) (fun y => obind (omap f l') (fun ys => Returned (y :: ys)))
  end.

(** [os.path.join] of POSIX paths. *)
Fixpoint endswith_slash (s : string) : bool :=
  match s with
  | EmptyString => false
  | String a EmptyString => Ascii.eqb a "/"
  | String _ s' => endswith_slash s'
  end.

Definition path_join2 (path b : string) : string :=
  if Py.startswith b "/" then b
  else if String.eqb path "" || endswith_slash path then path ++ b
  else path ++ "/" ++ b.

Definition path_join (a : string) (p : list string) : string :=
  fold_left path_join2 p a.

(** [needle in haystack] on strings. *)
Fixpoint contains (haystack needle : string) : bool :=
  Py.startswith haystack needle
  || match haystack with
     | EmptyString => false
     | String _ rest => contains rest needle
     end.

(** ["admin" in user["privileges"]] *)
Definition in_privileges (priv : string) (field : privileges_field) : bool :=
  match field with
  | PrivList l => bool_decide (priv ∈ l)
  | PrivText s => contains s priv
  end.

Section Users_ex.

Context (X : collaborators) (F : filesystem).

(** The first loop of [get_mail_users_ex], over the rows of [users]. *)
Definition active_users (env0 : env) (with_slow_info : bool) (st : db)
    : outcome (list user_entry) :=
  omap (fun row : string * (string * string) =>
          let user := {| email := row.1;
                         privileges := PrivList (parse_privs row.2.2);
                         status := "active";
                         mailbox := None;
                         mailbox_size := None |} in
          if with_slow_info then
            obind (of_result
                     (du F (path_join (STORAGE_ROOT env0)
                              ("mail/mailboxes" :: rev (Py.split "@" row.1)))))
              (fun size =>
                 Returned {| email := email user; privileges := privileges user;
                             status := status user; mailbox := mailbox user;
                             mailbox_size := Some size |})
          else Returned user)
       (map_to_list (users st)).

(** The inner loop of the archived accounts, over the mailboxes of a
    domain directory. *)
Definition archived_in_domain (env0 : env) (with_slow_info : bool) (st : db)
    (root domain : string) : outcome (list user_entry) :=
  match listdir F (path_join root [domain]) with
  | inl msg => RaisedOSError msg
  | inr names =>
      obind
        (omap (fun user : string =>
                 let email := user ++ "@" ++ domain in
                 let mbox := path_join root [domain; user] in
                 if bool_decide (is_Some (users st !! email)) then Returned []
                 else
                   let entry := {| email := email;
                                   privileges := PrivText "";
                                   status := "inactive";
                                   mailbox := Some mbox;
                                   mailbox_size := None |} in
                   if with_slow_info then
                     obind (of_result (du F mbox))
                       (fun size =>
                          Returned [ {| email := email; privileges := PrivText "";
                                        status := "inactive"; mailbox := Some mbox;
                                        mailbox_size := Some size |} ])
                   else Returned [entry])
              names)
        (fun found => Returned (concat found))
  end.

(** The loop over the domain directories of [mail/mailboxes]. *)
Definition archived_users (env0 : env) (with_slow_info : bool) (st : db)
    : outcome (list user_entry) :=
  let root := path_join (STORAGE_ROOT env0) ["mail/mailboxes"] in
  match listdir F root with
  | inl msg => RaisedOSError msg
  | inr domains =>
      obind (omap (archived_in_domain env0 with_slow_info st root) domains)
        (fun found => Returned (concat found))
  end.

(** The grouping loop of [get_mail_users_ex]. *)
Fixpoint group_users (entries : list user_entry)
    (domains : list (string * list user_entry))
    : result (list (string * list user_entry)) :=
  match entries with
  | [] => Ret domains
  | user :: rest =>
      rbind (get_domain X (email user) true) (fun domain =>
      group_users rest (append_to_group domain user domains))
  end.

Definition get_mail_users_ex (env0 : env) (with_archived with_slow_info : bool)
    (st : db) : outcome (list (string * list user_entry)) :=
  obind (active_users env0 with_slow_info st) (fun users =>
  obind (if with_archived
         then obind (archived_users env0 with_slow_info st)
                (fun archived => Returned (users ++ archived)%list)
         else Returned users) (fun users =>
  obind (of_result (group_users users [])) (fun domains =>
  obind (of_result (lookup_groups domains (sort_domains X (domains.*1) env0)))
    (fun domains =>
  Returned (map (fun g => (g.1, merge_sort user_key_le g.2)) domains))))).

Definition get_admins (env0 : env) (st : db) : outcome (gset string) :=
  obind (get_mail_users_ex env0 false false st) (fun domains =>
  Returned (list_to_set
              (email <$> List.filter (fun user => in_privileges "admin" (privileges user))
                           (flat_map snd domains)))).

End Users_ex.

(** ** A reference instance of the collaborators

    Used to run the functions on concrete directories.  The validator
    accepts printable, comma-free ASCII with exactly one [@], a non-empty
    domain and, unless [allow_empty_local], a non-empty local part.  The
    codec leaves ASCII domains alone and knows one internationalized
    domain in three spellings.  The sorts are lexicographic; the external commands succeed and
    the regeneration hooks report nothing. *)
Module Sample.

Definition printable (a : ascii) : bool :=
  ((33 <=? Py.code a) && (Py.code a <=? 126))%N && negb (Ascii.eqb a ",").

Definition validator (email : string) (allow_empty_local : bool) : bool :=
  match Py.split "@" email with
  | [localpart; domainpart] =>
      (allow_empty_local || negb (String.eqb localpart ""))
      && negb (String.eqb domainpart "")
      && Py.all_chars printable email
  | _ => false
  end.

(** The domains [bücher.de], [Bücher.DE] and [bücher.DE]; U+00FC is the
    letter u with diaeresis. *)
Definition buecher : string := String "b" (String "252" "cher.de").
Definition buecher_capitals : string := String "B" (String "252" "cher.DE").
Definition buecher_folded : string := String "b" (String "252" "cher.DE").

(** The password [äöü] (U+00E4, U+00F6, U+00FC), three characters long,
    and the character NO-BREAK SPACE (U+00A0). *)
Definition umlauts : string := String "228" (String "246" (String "252" "")).
Definition nbsp : string := String "160" "".

(** A codec with the values of the [idna] codec of CPython on the three
    domains above and on their encodings: a label with a non-ASCII
    character is case-folded before it is encoded, an ASCII label is left
    as it is.  Any other ASCII domain is left alone. *)
Definition encode (domain : string) : result string :=
  if String.eqb domain buecher then Ret "xn--bcher-kva.de"
  else if String.eqb domain buecher_capitals then Ret "xn--bcher-kva.DE"
  else if String.eqb domain buecher_folded then Ret "xn--bcher-kva.DE"
  else if Py.all_chars Py.is_ascii domain then Ret domain
  else Raise UnicodeError.

Definition decode (domain : string) : result string :=
  if String.eqb domain "xn--bcher-kva.de" then Ret buecher
  else if String.eqb domain "xn--bcher-kva.DE" then Ret buecher_folded
  else Ret domain.

Definition str_sort (l : list string) (_ : env) : list string :=
  merge_sort (fun s t => Py.str_le s t) l.

Definition collab : collaborators := {|
  validate_email_ := validator;
  idna_encode := encode;
  idna_decode := decode;
  sort_email_addresses := str_sort;
  sort_domains := str_sort;
  hash_password_ := fun pw => Ret ("{SHA512-CRYPT}" ++ pw);
  doveadm_mailbox_list := fun _ => inl "";
  doveadm_mailbox_create := fun _ _ => true;
  do_dns_update := fun _ _ => "";
  do_web_update := fun _ _ => ""
|}.

Definition box : env :=
  {| PRIMARY_HOSTNAME := "box.example.com"; STORAGE_ROOT := "/home/user-data" |}.

Definition empty_db : db := {| users := ∅; aliases := ∅ |}.

(** A directory holding one administrator account and no alias. *)
Definition one_user : db :=
  {| users := {[ "me@example.com" := ("{SHA512-CRYPT}secret", "admin") ]};
     aliases := ∅ |}.

(** A directory whose only row is an auto-generated alias of a domain that
    is no longer used. *)
Definition stale_db : db :=
  {| users := ∅;
     aliases := {[ "postmaster@foo.tld" := "administrator@box.example.com" ]} |}.

(** A directory whose only row is a [postmaster@] alias pointing away from
    the system administrator. *)
Definition repointed_db : db :=
  {| users := ∅;
     aliases := {[ "postmaster@foo.tld" := "hostmaster@elsewhere.org" ]} |}.

(** A directory with a required and an optional alias on one domain. *)
Definition two_aliases : db :=
  {| users := ∅;
     aliases := {[ "sales@box.example.com" := "bob@example.com";
                   "administrator@box.example.com" := "root@example.com" ]} |}.

End Sample.

(** ** Vocabulary of the properties *)

(** A password that [validate_password] refuses. *)
Definition invalid_password (pw : string) : Prop :=
  Py.strip pw = "" ∨ Py.any_char Py.is_space pw = true ∨ String.length pw < 4.

(** The address of a user whose privileges include [admin]. *)
Definition holds_admin (st : db) (email : string) : Prop :=
  ∃ pw privileges,
    users st !! email = Some (pw, privileges) ∧ "admin" ∈ parse_privs privileges.

(** The destination addresses [add_mail_alias] reads out of a destination
    string in its comma and newline branch: the pieces, stripped, without
    the empty ones, each normalized. *)
Definition parsed_destinations (X : collaborators) (destination : string)
    : list string :=
  sanitize_idn_email_address X
    <$> filter (fun email => email ≠ "")
          (Py.strip <$> flat_map (Py.split ",") (Py.split "010" (Py.strip destination))).

(** The characters the [user] mode of [validate_email] lets through. *)
Definition user_char (a : ascii) : bool :=
  Ascii.eqb a "@" || Ascii.eqb a "." || Py.is_lower a || Py.is_digit a
  || Ascii.eqb a "_" || Ascii.eqb a "-".

(** What is assumed of [utils.sort_email_addresses]: it reorders. *)
Definition sort_reorders (X : collaborators) : Prop :=
  ∀ l env0, sort_email_addresses X l env0 ≡ₚ l.

(** [d] is what [get_domain(addr, as_unicode=False)] returns. *)
Definition domain_of (addr d : string) : Prop :=
  Py.split1 "@" addr !! 1%nat = Some d.

(** The domains [get_required_aliases] serves mail for: the domain of a
    user, or of an alias whose source does not start with [postmaster@],
    [admin@] or [@]. *)
Definition served (st : db) (d : string) : Prop :=
  (∃ u, is_Some (users st !! u) ∧ domain_of u d)
  ∨ (∃ s, is_Some (aliases st !! s)
          ∧ Py.startswith s "postmaster@" = false
          ∧ Py.startswith s "admin@" = false
          ∧ Py.startswith s "@" = false
          ∧ domain_of s d).

(** The domains mail is served for as the comment above the filter of
    [get_required_aliases] has it, domains whose only addresses are the
    required aliases or a catch-all being left out: the domain of a user,
    or of an alias whose source does not start with [postmaster@],
    [admin@] or [@] and is not [administrator@] or [hostmaster@] on the
    primary hostname.  The destination of the alias plays no part. *)
Definition serves_mail (env0 : env) (st : db) (d : string) : Prop :=
  (∃ u, is_Some (users st !! u) ∧ domain_of u d)
  ∨ (∃ s, is_Some (aliases st !! s)
          ∧ Py.startswith s "postmaster@" = false
          ∧ Py.startswith s "admin@" = false
          ∧ Py.startswith s "@" = false
          ∧ s ≠ "administrator@" ++ PRIMARY_HOSTNAME env0
          ∧ s ≠ "hostmaster@" ++ PRIMARY_HOSTNAME env0
          ∧ domain_of s d).

(** The addresses that have to exist: the two of the primary hostname,
    and [postmaster@d] and [admin@d] for every domain [d] mail is served
    for. *)
Definition required_address (env0 : env) (st : db) (x : string) : Prop :=
  x = "administrator@" ++ PRIMARY_HOSTNAME env0
  ∨ x = "hostmaster@" ++ PRIMARY_HOSTNAME env0
  ∨ ∃ d, serves_mail env0 st d ∧ (x = "postmaster@" ++ d ∨ x = "admin@" ++ d).

(** Every address of the directory has an [@]. *)
Definition addresses_have_domain (st : db) : Prop :=
  (∀ u, is_Some (users st !! u) → ∃ d, domain_of u d)
  ∧ (∀ s, is_Some (aliases st !! s) → ∃ d, domain_of s d).

(** A well-formed directory: every user address has an [@]; every alias
    source has exactly one [@] and is in normalized form, as
    [add_mail_alias] stores it. *)
Definition well_formed (X : collaborators) (st : db) : Prop :=
  (∀ u, is_Some (users st !! u) → ∃ d, domain_of u d)
  ∧ (∀ s, is_Some (aliases st !! s) →
          Py.count "@" s = 1 ∧ sanitize_idn_email_address X s = s).

(** The test of the removal loop of [kick] on a row of [aliases]. *)
Definition stale_row (env0 : env) (required_aliases : gset string)
    (row : string * string) : bool :=
  match Py.split "@" row.1 with
  | [user; _] => is_stale env0 required_aliases user row.1 row.2
  | _ => false
  end.

(** * Properties *)

(** ** Facts about the string operations *)

Lemma split_nonempty c s : Py.split c s ≠ [].
Proof. induction s as [|a s IH]; simpl; [done|]. destruct (Ascii.eqb a c); [done|]. by destruct (Py.split c s). Qed.

Lemma split_length c s : length (Py.split c s) = S (Py.count c s).
Proof.
  induction s as [|a s IH]; simpl; [done|].
  destruct (Ascii.eqb a c); simpl; [by rewrite IH|].
  destruct (Py.split c s); simpl in *; [done | lia].
Qed.

Lemma split_no_sep c s : Py.count c s = 0 → Py.split c s = [s].
Proof.
  induction s as [|a s IH]; simpl; [done|].
  destruct (Ascii.eqb a c); simpl; [done|].
  intros H. by rewrite (IH H).
Qed.

Lemma split_app c l d :
  Py.count c l = 0 → Py.split c (l ++ String c d) = l :: Py.split c d.
Proof.
  induction l as [|a l IH]; simpl.
  - intros _. by rewrite Ascii.eqb_refl.
  - destruct (Ascii.eqb a c); simpl; [done|]. intros H. by rewrite (IH H).
Qed.

Lemma split_two c l d :
  Py.count c l = 0 → Py.count c d = 0 → Py.split c (l ++ String c d) = [l; d].
Proof. intros Hl Hd. by rewrite split_app, (split_no_sep _ _ Hd). Qed.

Lemma split_two_inv c s l d :
  Py.split c s = [l; d] → s = l ++ String c d ∧ Py.count c l = 0 ∧ Py.count c d = 0.
Proof.
  revert l d. induction s as [|a s IH]; simpl; intros l d; [done|].
  destruct (Ascii.eqb_spec a c) as [->|Hne].
  - intros [= <- Hs]. pose proof (split_length c s) as Hlen. rewrite Hs in Hlen.
    simpl in Hlen. assert (Py.count c s = 0) as H0 by lia.
    rewrite (split_no_sep _ _ H0) in Hs. injection Hs as ->. done.
  - destruct (Py.split c s) as [|h t] eqn:Hs; [done|].
    intros [= <- ->]. destruct (IH h d eq_refl) as (-> & Hh & Hd).
    simpl. destruct (Ascii.eqb_spec a c); [done|]. done.
Qed.

Lemma ascii_codec_Some s r : Py.ascii_codec s = Some r → r = s.
Proof. unfold Py.ascii_codec. destruct (Py.all_chars _ s); congruence. Qed.

Section Normalizer.

Context (X : collaborators).

Lemma sanitize_caught email e :
  sanitize_try X email = Raise e → sanitize_idn_email_address X email = email.
Proof. unfold sanitize_idn_email_address. by intros ->. Qed.

Lemma prettify_caught email e :
  prettify_try X email = Raise e → prettify_idn_email_address X email = email.
Proof. unfold prettify_idn_email_address. by intros ->. Qed.

Lemma sanitize_try_bad_split email :
  Py.count "@" email ≠ 1 → ∃ msg, sanitize_try X email = Raise (ValueError msg).
Proof.
  intros Hc. unfold sanitize_try. pose proof (split_length "@" email) as Hl.
  destruct (Py.split "@" email) as [|a [|b [|c l]]]; simpl in Hl; eauto.
  - lia.
Qed.

Lemma prettify_try_bad_split email :
  Py.count "@" email ≠ 1 → ∃ msg, prettify_try X email = Raise (ValueError msg).
Proof.
  intros Hc. unfold prettify_try. pose proof (split_length "@" email) as Hl.
  destruct (Py.split "@" email) as [|a [|b [|c l]]]; simpl in Hl; eauto.
  - lia.
Qed.

(** C10.  [sanitize_idn_email_address] and [prettify_idn_email_address]
    never raise: whatever their [try] block raises is caught and the input
    is returned unchanged.  In particular the input comes back when it does
    not hold exactly one [@] (the unpacking of the split fails) and when the
    codec raises on the domain part. *)
Theorem normalize_prettify_total (email : string) :
  (∀ e, sanitize_try X email = Raise e →
        sanitize_idn_email_address X email = email)
  ∧ (∀ e, prettify_try X email = Raise e →
          prettify_idn_email_address X email = email)
  ∧ (Py.count "@" email ≠ 1 →
       sanitize_idn_email_address X email = email
       ∧ prettify_idn_email_address X email = email)
  ∧ (∀ l d e, Py.split "@" email = [l; d] → idna_encode X d = Raise e →
       sanitize_idn_email_address X email = email)
  ∧ (∀ l d, Py.split "@" email = [l; d] →
       (Py.ascii_codec d = None ∨ ∃ e, idna_decode X d = Raise e) →
       prettify_idn_email_address X email = email).
Proof.
  split; [apply sanitize_caught|]. split; [apply prettify_caught|].
  split; [|split].
  - intros Hc. split.
    + destruct (sanitize_try_bad_split email Hc) as [msg H]. by eapply sanitize_caught.
    + destruct (prettify_try_bad_split email Hc) as [msg H]. by eapply prettify_caught.
  - intros l d e Hs He. apply (sanitize_caught _ e).
    unfold sanitize_try. by rewrite Hs, He.
  - intros l d Hs [Ha|[e He]].
    + apply (prettify_caught _ UnicodeError). unfold prettify_try. by rewrite Hs, Ha.
    + destruct (Py.ascii_codec d) as [b|] eqn:Ha.
      * apply ascii_codec_Some in Ha as Hb. subst b.
        apply (prettify_caught _ e). unfold prettify_try. by rewrite Hs, Ha, He.
      * apply (prettify_caught _ UnicodeError). unfold prettify_try. by rewrite Hs, Ha.
Qed.

End Normalizer.

Section Roundtrip.

Context (X : collaborators).

Lemma sanitize_encoded l d b :
  Py.count "@" l = 0 → Py.count "@" d = 0 →
  idna_encode X d = Ret b → Py.all_chars Py.is_ascii b = true →
  sanitize_idn_email_address X (l ++ "@" ++ d) = l ++ "@" ++ b.
Proof.
  intros Hl Hd Hb Ha. unfold sanitize_idn_email_address, sanitize_try.
  change ("@" ++ d) with (String "@" d).
  rewrite (split_two "@" l d Hl Hd), Hb. simpl.
  unfold Py.ascii_codec. by rewrite Ha.
Qed.

Lemma prettify_decoded l b d :
  Py.count "@" l = 0 → Py.count "@" b = 0 →
  Py.all_chars Py.is_ascii b = true → idna_decode X b = Ret d →
  prettify_idn_email_address X (l ++ "@" ++ b) = l ++ "@" ++ d.
Proof.
  intros Hl Hb Ha Hd. unfold prettify_idn_email_address, prettify_try.
  change ("@" ++ b) with (String "@" b). rewrite (split_two "@" l b Hl Hb).
  unfold Py.ascii_codec. rewrite Ha, Hd. done.
Qed.

Lemma app_inv_head_str (l s t : string) : l ++ s = l ++ t → s = t.
Proof.
  induction l as [|a l IH]; [done|].
  change (String a (l ++ s) = String a (l ++ t) → s = t). intros [= H]. by apply IH.
Qed.

(** C8, as the code has it.  For an address [localpart@domainpart] with a
    single [@] whose domain the IDNA codec encodes, to an ASCII name without
    [@] that decodes to [d'], prettify after normalize gives
    [localpart@d']: the address comes back exactly when the codec gives the
    domain back.  When the domain has no encoding, normalize returns the
    address unchanged; prettify returns it unchanged exactly when the
    domain holds a non-ASCII character, or the decoder raises on it or
    returns it as it is. *)
Theorem prettify_normalize_roundtrip (localpart domainpart : string) :
  Py.count "@" localpart = 0 →
  Py.count "@" domainpart = 0 →
  let address := localpart ++ "@" ++ domainpart in
  (∀ b d', idna_encode X domainpart = Ret b →
        Py.all_chars Py.is_ascii b = true → Py.count "@" b = 0 →
        idna_decode X b = Ret d' →
        prettify_idn_email_address X (sanitize_idn_email_address X address)
        = localpart ++ "@" ++ d'
        ∧ (prettify_idn_email_address X (sanitize_idn_email_address X address) = address
           ↔ d' = domainpart))
  ∧ (∀ e, idna_encode X domainpart = Raise e →
        sanitize_idn_email_address X address = address
        ∧ (prettify_idn_email_address X address = address
           ↔ Py.all_chars Py.is_ascii domainpart = false
             ∨ (∃ e', idna_decode X domainpart = Raise e')
             ∨ idna_decode X domainpart = Ret domainpart)).
Proof.
  intros Hl Hd address. split.
  - intros b d' Hb Ha Hc Hdec.
    assert (prettify_idn_email_address X (sanitize_idn_email_address X address)
            = localpart ++ "@" ++ d') as Hgo.
    { unfold address. rewrite (sanitize_encoded _ _ _ Hl Hd Hb Ha).
      by apply prettify_decoded. }
    split; [exact Hgo|]. rewrite Hgo. unfold address. split.
    + intros H. apply app_inv_head_str in H.
      change (String "@" d' = String "@" domainpart) in H. congruence.
    + by intros ->.
  - intros e He.
    assert (Py.split "@" address = [localpart; domainpart]) as Hs
      by (unfold address; change ("@" ++ domainpart) with (String "@" domainpart);
          by apply split_two).
    split.
    + apply (sanitize_caught X _ e). unfold sanitize_try. by rewrite Hs, He.
    + unfold prettify_idn_email_address, prettify_try. rewrite Hs.
      unfold Py.ascii_codec.
      destruct (Py.all_chars Py.is_ascii domainpart); [|split; [by left|done]].
      destruct (idna_decode X domainpart) as [d|e'] eqn:Hdec; simpl.
      * split.
        -- intros H. right. right. unfold address in H.
           apply app_inv_head_str in H.
           change (String "@" d = String "@" domainpart) in H. congruence.
        -- intros [?|[[e' ?]|[= ->]]]; [done|done|done].
      * split; [|done]. intros _. right. left. by eexists.
Qed.

End Roundtrip.

(** ** Passwords *)

Lemma validate_password_invalid pw :
  invalid_password pw → ∃ msg, validate_password pw = Raise (ValueError msg).
Proof.
  unfold validate_password, invalid_password. intros Hinv.
  destruct (String.eqb_spec (Py.strip pw) ""); [by eexists|].
  destruct (Py.any_char Py.is_space pw); [by eexists|].
  destruct (Nat.ltb_spec (String.length pw) 4); [by eexists|].
  destruct Hinv as [?|[?|?]]; [congruence|congruence|lia].
Qed.

Lemma validate_password_valid pw :
  ¬ invalid_password pw → validate_password pw = Ret tt.
Proof.
  unfold validate_password, invalid_password. intros Hv.
  destruct (String.eqb_spec (Py.strip pw) ""); [tauto|].
  destruct (Py.any_char Py.is_space pw); [tauto|].
  destruct (Nat.ltb_spec (String.length pw) 4); [tauto|done].
Qed.

Section Passwords.

Context (X : collaborators).

(** C4, as the code has it.  [add_mail_user] returns a [(reason, 400)]
    tuple when the address fails one of its four checks, whatever the
    password.  An invalid password (empty or blank, holding a whitespace
    character, or shorter than four characters) is not returned but raised
    as a [ValueError] carrying the reason, by [set_mail_password] always
    and by [add_mail_user] once the address has passed.  In each case the
    database is left as it was. *)
Theorem password_failure_is_raised (email pw : string) (privs : option string)
    (env0 : env) (st : db) :
  let address_refused :=
    Py.strip email = "" ∨ validate_email X email ModeNone = false
    ∨ validate_email X email ModeUser = false
    ∨ (is_dcv_address email = true ∧ 0 < length (get_mail_users X env0 st)) in
  (address_refused →
     ∃ reason, add_mail_user X email pw privs env0 st = (Ret (Error400 reason), st))
  ∧ (invalid_password pw →
     (∃ msg, set_mail_password X email pw env0 st = (Raise (ValueError msg), st))
     ∧ (¬ address_refused →
        ∃ msg, add_mail_user X email pw privs env0 st = (Raise (ValueError msg), st))).
Proof.
  intros refused. split.
  - unfold refused, add_mail_user. intros Href.
    destruct (String.eqb_spec (Py.strip email) ""); [by eexists|].
    destruct (validate_email X email ModeNone); simpl; [|by eexists].
    destruct (validate_email X email ModeUser); simpl; [|by eexists].
    destruct (is_dcv_address email); simpl.
    + destruct (Nat.ltb_spec 0 (length (get_mail_users X env0 st))); [by eexists|].
      destruct Href as [?|[?|[?|[_ ?]]]]; try congruence; lia.
    + destruct Href as [?|[?|[?|[? _]]]]; congruence.
  - intros Hinv. destruct (validate_password_invalid pw Hinv) as [msg Hmsg]. split.
    + exists msg. unfold set_mail_password. by rewrite Hmsg.
    + unfold refused, add_mail_user. intros Hacc. exists msg.
      destruct (String.eqb_spec (Py.strip email) ""); [tauto|].
      destruct (validate_email X email ModeNone); simpl; [|tauto].
      destruct (validate_email X email ModeUser); simpl; [|tauto].
      destruct (is_dcv_address email); simpl.
      * destruct (Nat.ltb_spec 0 (length (get_mail_users X env0 st))); [tauto|].
        by rewrite Hmsg.
      * by rewrite Hmsg.
Qed.

End Passwords.

(** ** Destinations of an alias *)

Lemma length_zero_empty s : (String.length s =? 0)%nat = true ↔ s = "".
Proof. destruct s; simpl; split; congruence. Qed.

Section AliasDestinations.

Context (X : collaborators).

(** The admin test of the destination loop, as a proposition. *)
Lemma admin_test_holds st email :
  match get_mail_user_privileges email true st with
  | inr privs => bool_decide ("admin" ∈ privs)
  | inl _ => false
  end = true ↔ holds_admin st email.
Proof.
  unfold get_mail_user_privileges, holds_admin.
  destruct (users st !! email) as [[pw privileges]|]; simpl.
  - rewrite bool_decide_eq_true. split; [eauto|].
    by intros (? & ? & [= <- <-] & ?).
  - split; [done|]. by intros (? & ? & ? & _).
Qed.

Definition pieces (entries : list string) : list string :=
  sanitize_idn_email_address X <$> filter (fun email => email ≠ "") (Py.strip <$> entries).

Lemma pieces_cons e entries :
  pieces (e :: entries) =
  if String.eqb (Py.strip e) "" then pieces entries
  else sanitize_idn_email_address X (Py.strip e) :: pieces entries.
Proof.
  unfold pieces. rewrite fmap_cons, filter_cons.
  destruct (String.eqb_spec (Py.strip e) ""); case_decide; done.
Qed.

(** With no piece left after stripping, the loop appends nothing. *)
Lemma check_destinations_blank is_dcv_source st entries dests :
  pieces entries = [] →
  check_destinations X is_dcv_source st entries dests = inr dests.
Proof.
  revert dests. induction entries as [|e entries IH]; intros dests; [done|].
  rewrite pieces_cons. simpl.
  destruct (String.eqb (Py.strip e) ""); [apply IH | done].
Qed.

(** What the loop has checked when it runs to its end. *)
Lemma check_destinations_accepts is_dcv_source st entries dests r :
  check_destinations X is_dcv_source st entries dests = inr r →
  r = (dests ++ pieces entries)%list
  ∧ Forall (fun d => validate_email X d ModeNone = true
                     ∧ (is_dcv_source = true →
                        is_dcv_address d = true ∨ holds_admin st d))
           (pieces entries).
Proof.
  revert dests. induction entries as [|e entries IH]; intros dests.
  - simpl. intros [= <-]. by rewrite app_nil_r.
  - rewrite pieces_cons. simpl.
    destruct (String.eqb (Py.strip e) ""); [apply IH|].
    set (d := sanitize_idn_email_address X (Py.strip e)).
    destruct (validate_email X d ModeNone) eqn:Hv; simpl; [|done].
    destruct (is_dcv_source && negb (is_dcv_address d) && _) eqn:Hc; [done|].
    intros Hr. destruct (IH _ Hr) as [-> HF]. split.
    + by rewrite <- app_assoc.
    + constructor; [|done]. split; [done|]. intros ->. simpl in Hc.
      destruct (is_dcv_address d); [by left|]. simpl in Hc. right.
      apply admin_test_holds. by apply negb_false_iff in Hc.
Qed.

(** For a domain-control source, the first piece that is neither a
    domain-control address nor an administrator stops the loop with the
    policy message, when the pieces are valid addresses. *)
Lemma check_destinations_policy st entries dests :
  Forall (fun d => validate_email X d ModeNone = true) (pieces entries) →
  Exists (fun d => is_dcv_address d = false ∧ ¬ holds_admin st d) (pieces entries) →
  check_destinations X true st entries dests = inl dcv_alias_message.
Proof.
  revert dests. induction entries as [|e entries IH]; intros dests.
  - simpl. by intros _ ?%Exists_nil.
  - rewrite pieces_cons. simpl.
    destruct (String.eqb (Py.strip e) ""); [apply IH|].
    set (d := sanitize_idn_email_address X (Py.strip e)).
    intros [Hv HF]%Forall_cons [[Hd Ha]|HE]%Exists_cons.
    + rewrite Hv, Hd. simpl.
      destruct (match get_mail_user_privileges d true st with
                | inr privs => bool_decide ("admin" ∈ privs) | inl _ => false end) eqn:Ht;
        [|done].
      by apply admin_test_holds in Ht.
    + rewrite Hv. simpl.
      destruct (negb (is_dcv_address d) && _); [done|]. by apply IH.
Qed.

(** C5 at the code.  A destination that is not empty once stripped, is not
    a single valid alias address, and leaves no piece after splitting on
    newlines and commas (such as [","]) is not refused: the alias row is
    written with the empty string as its destination. *)
Theorem blank_destination_is_stored (source destination : string) (env0 : env)
    (st : db) :
  let src := Py.strip (Py.lower (sanitize_idn_email_address X source)) in
  src ≠ "" →
  validate_email X src ModeAlias = true →
  Py.strip destination ≠ "" →
  validate_email X (sanitize_idn_email_address X (Py.strip destination)) ModeAlias = false →
  parsed_destinations X destination = [] →
  aliases st !! src = None →
  add_mail_alias X source destination env0 false false st
  = (Ret PyNone, set_aliases st (<[src := ""]> (aliases st))).
Proof.
  intros src Hsrc Hvalid Hdst Hd1 Hparsed Hfresh.
  unfold add_mail_alias, add_mail_alias_store. fold src.
  destruct (String.eqb_spec src ""); [done|].
  rewrite Hvalid, Hd1. simpl.
  rewrite check_destinations_blank by exact Hparsed.
  destruct (String.length (Py.strip destination) =? 0)%nat eqn:Hlen.
  { by apply length_zero_empty in Hlen. }
  by rewrite Hfresh.
Qed.

(** C9.  When the normalized source of [add_mail_alias] is a
    domain-control address, an alias is only stored if every parsed
    destination is itself a domain-control address or the address of a
    user holding [admin].  If some parsed destination is neither, the call
    returns a [(reason, 400)] tuple and leaves the database as it was; the
    reason is the policy message whenever the source and all the parsed
    destinations are syntactically valid. *)
Theorem dcv_source_needs_admin_destinations (source destination : string)
    (env0 : env) (update_if_exists do_kick : bool) (st : db) :
  let src := Py.strip (Py.lower (sanitize_idn_email_address X source)) in
  let dests := parsed_destinations X destination in
  is_dcv_address src = true →
  (∀ status st',
      add_mail_alias_store X source destination update_if_exists st = (inr status, st') →
      Forall (fun d => is_dcv_address d = true ∨ holds_admin st d) dests)
  ∧ (Exists (fun d => is_dcv_address d = false ∧ ¬ holds_admin st d) dests →
     (∃ reason,
         add_mail_alias X source destination env0 update_if_exists do_kick st
         = (Ret (Error400 reason), st))
     ∧ (src ≠ "" → validate_email X src ModeAlias = true →
        Forall (fun d => validate_email X d ModeNone = true) dests →
        add_mail_alias X source destination env0 update_if_exists do_kick st
        = (Ret (Error400 dcv_alias_message), st))).
Proof.
  intros src dests Hdcv.
  assert (∀ status st',
      add_mail_alias_store X source destination update_if_exists st = (inr status, st') →
      Forall (fun d => is_dcv_address d = true ∨ holds_admin st d) dests) as Hstored.
  { intros status st'. unfold add_mail_alias_store. fold src.
    destruct (String.eqb src ""); [done|].
    destruct (validate_email X src ModeAlias); simpl; [|done].
    rewrite Hdcv, andb_false_r.
    destruct (check_destinations X true st _ []) as [reason|r] eqn:Hc; [done|].
    intros _. apply check_destinations_accepts in Hc as [_ HF].
    eapply Forall_impl; [exact HF|]. intros d [_ Hd]. by apply Hd. }
  split; [exact Hstored|]. intros HE. split.
  - unfold add_mail_alias.
    destruct (add_mail_alias_store X source destination update_if_exists st)
      as [[reason|status] st'] eqn:Hs.
    + exists reason. f_equal. revert Hs. unfold add_mail_alias_store. fold src.
      destruct (String.eqb src ""); [congruence|].
      destruct (validate_email X src ModeAlias); simpl; [|congruence].
      destruct (if validate_email X _ ModeAlias && negb (is_dcv_address src) then _ else _);
        [congruence|].
      destruct (String.length _ =? 0)%nat; [congruence|].
      destruct (aliases st !! src); [|congruence].
      destruct (negb update_if_exists); congruence.
    + exfalso. specialize (Hstored _ _ eq_refl).
      apply Exists_exists in HE as (d & Hin & Hd & Ha).
      rewrite Forall_forall in Hstored. destruct (Hstored d Hin); [congruence|done].
  - intros Hsrc Hvalid HF. unfold add_mail_alias, add_mail_alias_store. fold src.
    destruct (String.eqb_spec src ""); [done|].
    rewrite Hvalid, Hdcv, andb_false_r. simpl.
    by rewrite (check_destinations_policy st _ [] HF HE).
Qed.

End AliasDestinations.

(** ** Reading the directory *)

Lemma rmap_Ret {A B} (f : A → result B) l r :
  rmap f l = Ret r ↔ Forall2 (fun x y => f x = Ret y) l r.
Proof.
  revert r. induction l as [|x l IH]; intros r; simpl.
  - split; [intros [= <-]; constructor | by intros ->%Forall2_nil_inv_l].
  - destruct (f x) as [y|e] eqn:Hx; simpl.
    + destruct (rmap f l) as [ys|e] eqn:Hl; simpl.
      * split.
        -- intros [= <-]. constructor; [done|]. by apply IH.
        -- intros (y' & ys' & Hy & Hys & ->)%Forall2_cons_inv_l.
           apply IH in Hys. congruence.
      * split; [done|]. intros (y' & ys' & Hy & Hys & ->)%Forall2_cons_inv_l.
        apply IH in Hys. congruence.
    + split; [done|]. intros (y' & ys' & Hy & Hys & ->)%Forall2_cons_inv_l. congruence.
Qed.

Lemma rmap_total {A B} (f : A → result B) l :
  (∀ x, x ∈ l → ∃ y, f x = Ret y) → ∃ r, rmap f l = Ret r.
Proof.
  induction l as [|x l IH]; intros H; simpl; [by eexists|].
  destruct (H x) as [y ->]; [by left|].
  destruct IH as [r ->]; [intros; apply H; by right|]. by eexists.
Qed.

Lemma rmap_elem {A B} (f : A → result B) l r :
  rmap f l = Ret r → ∀ y, y ∈ r ↔ ∃ x, x ∈ l ∧ f x = Ret y.
Proof.
  intros HF%rmap_Ret y. induction HF as [|x y' l r Hxy HF IH].
  - split; [by intros ?%elem_of_nil | by intros (? & ?%elem_of_nil & _)].
  - rewrite elem_of_cons, IH. split.
    + intros [->|(x' & ? & ?)]; [exists x | exists x']; rewrite elem_of_cons; eauto.
    + intros (x' & [->|?]%elem_of_cons & ?); [left; congruence | right; eauto].
Qed.

Section Reader.

Context (X : collaborators) (Hsort : sort_reorders X).

Lemma get_mail_users_elem env0 st u :
  u ∈ get_mail_users X env0 st ↔ is_Some (users st !! u).
Proof.
  unfold get_mail_users. rewrite (Hsort _ env0), list_elem_of_fmap. split.
  - intros ([k v] & -> & Hin%elem_of_map_to_list). by eexists.
  - intros [v Hv]. exists (u, v). by rewrite elem_of_map_to_list.
Qed.

Lemma get_mail_users_length env0 st :
  length (get_mail_users X env0 st) = size (users st).
Proof.
  unfold get_mail_users. rewrite (Hsort _ env0), length_fmap.
  by rewrite length_map_to_list.
Qed.

Lemma sorted_sources_elem env0 st s :
  s ∈ sort_email_addresses X ((map_to_list (aliases st)).*1) env0
  ↔ is_Some (aliases st !! s).
Proof.
  rewrite (Hsort _ env0), list_elem_of_fmap. split.
  - intros ([k v] & -> & Hin%elem_of_map_to_list). by eexists.
  - intros [v Hv]. exists (s, v). by rewrite elem_of_map_to_list.
Qed.

(** [get_mail_aliases] returns the rows of the table, each once. *)
Lemma get_mail_aliases_rows env0 st :
  ∃ rows, get_mail_aliases X env0 st = Ret rows
          ∧ (∀ s t, (s, t) ∈ rows ↔ aliases st !! s = Some t)
          ∧ NoDup rows.*1.
Proof.
  unfold get_mail_aliases.
  set (f := fun source => match aliases st !! source with
                          | Some destination => Ret (source, destination)
                          | None => Raise (KeyError source) end).
  set (keys := sort_email_addresses X _ env0).
  destruct (rmap_total f keys) as [rows Hrows].
  { intros s [t Ht]%sorted_sources_elem. exists (s, t). unfold f. by rewrite Ht. }
  exists rows. split; [done|]. split.
  - intros s t. rewrite (rmap_elem f keys rows Hrows). split.
    + intros (k & _ & Hk). unfold f in Hk.
      destruct (aliases st !! k) eqn:Hl; congruence.
    + intros Ht. exists s. split; [apply sorted_sources_elem; by eexists|].
      unfold f. by rewrite Ht.
  - assert (rows.*1 = keys) as ->.
    { apply rmap_Ret in Hrows. clear -Hrows.
      induction Hrows as [|k [s t] l r Hk HF IH]; [done|].
      simpl. f_equal; [|done]. unfold f in Hk.
      destruct (aliases st !! k); congruence. }
    unfold keys. rewrite (Hsort _ env0). apply NoDup_fst_map_to_list.
Qed.

End Reader.

(** ** The required aliases *)

Lemma get_domain_plain X addr d : get_domain X addr false = Ret d ↔ domain_of addr d.
Proof.
  unfold get_domain, domain_of.
  destruct (Py.split1 "@" addr !! 1%nat); split; congruence.
Qed.

Lemma or_iff2 (A B C D : Prop) : (A ↔ B) → (C ↔ D) → (A ∨ C ↔ B ∨ D).
Proof. tauto. Qed.

Section Required.

Context (X : collaborators) (Hsort : sort_reorders X).

Lemma get_mail_domains_spec env0 flt st :
  addresses_have_domain st →
  ∃ D, get_mail_domains X env0 flt st = Ret D
       ∧ ∀ d, d ∈ D ↔
           (∃ u, is_Some (users st !! u) ∧ domain_of u d)
           ∨ (∃ s t, aliases st !! s = Some t ∧ flt (s, t) = true ∧ domain_of s d).
Proof.
  intros [Hu Ha]. unfold get_mail_domains.
  destruct (rmap_total (fun addr => get_domain X addr false) (get_mail_users X env0 st))
    as [du Hdu].
  { intros u Hin%(get_mail_users_elem X Hsort). destruct (Hu u Hin) as [d Hd].
    exists d. by apply get_domain_plain. }
  destruct (get_mail_aliases_rows X Hsort env0 st) as (rows & Hrows & Hin & _).
  destruct (rmap_total (fun a => get_domain X a.1 false) (List.filter flt rows))
    as [da Hda].
  { intros [s t] [Hst _]%list_elem_of_In%filter_In. apply list_elem_of_In, Hin in Hst.
    destruct (Ha s) as [d Hd]; [by eexists|]. exists d. by apply get_domain_plain. }
  rewrite Hdu, Hrows. simpl. rewrite Hda. simpl. eexists. split; [done|].
  intros d. rewrite elem_of_list_to_set, elem_of_app.
  rewrite (rmap_elem _ _ _ Hdu), (rmap_elem _ _ _ Hda).
  apply or_iff2.
  - split.
    + intros (u & Hi%(get_mail_users_elem X Hsort) & Hd%get_domain_plain). eauto.
    + intros (u & Hi & Hd). exists u.
      split; [by apply (get_mail_users_elem X Hsort) | by apply get_domain_plain].
  - split.
    + intros ([s t] & [Hst Hf]%list_elem_of_In%filter_In & Hd%get_domain_plain).
      apply list_elem_of_In, Hin in Hst. eauto.
    + intros (s & t & Hst & Hf & Hd). exists (s, t). split.
      * apply list_elem_of_In, filter_In. split; [|done]. by apply list_elem_of_In, Hin.
      * by apply get_domain_plain.
Qed.

(** [get_required_aliases] unfolded over the served domains. *)
Lemma get_required_aliases_served env0 st :
  addresses_have_domain st →
  ∃ D : gset string,
    (∀ d, d ∈ D ↔ served st d)
       ∧ get_required_aliases X env0 st
         = Ret ({[ get_system_administrator env0 ]}
                ∪ {[ "hostmaster@" ++ PRIMARY_HOSTNAME env0 ]}
                ∪ set_bind (fun domain => {[ "postmaster@" ++ domain; "admin@" ++ domain ]}) D).
Proof.
  intros Hwf. unfold get_required_aliases.
  destruct (get_mail_domains_spec env0 not_auto_alias st Hwf) as (D & -> & HD).
  exists D. split; [|done].
  intros d. rewrite HD. unfold served. apply or_iff2; [done|]. split.
  - intros (s & t & Hst & Hf & Hd). exists s. unfold not_auto_alias in Hf. simpl in Hf.
    apply andb_true_iff in Hf as [[H1 H2]%andb_true_iff H3].
    apply negb_true_iff in H1, H2, H3. split; [by eexists|]. done.
  - intros (s & [t Hst] & H1 & H2 & H3 & Hd). exists s, t. split; [done|].
    split; [|done]. unfold not_auto_alias. simpl. by rewrite H1, H2, H3.
Qed.

(** The members of the set [get_required_aliases] returns. *)
Lemma get_required_aliases_members env0 st :
  addresses_have_domain st →
  ∃ R, get_required_aliases X env0 st = Ret R
       ∧ ∀ x, x ∈ R ↔
           x = "administrator@" ++ PRIMARY_HOSTNAME env0
           ∨ x = "hostmaster@" ++ PRIMARY_HOSTNAME env0
           ∨ ∃ d, served st d ∧ (x = "postmaster@" ++ d ∨ x = "admin@" ++ d).
Proof.
  intros Hwf. destruct (get_required_aliases_served env0 st Hwf) as (D & HD & ->).
  eexists. split; [done|]. intros x.
  rewrite !elem_of_union, !elem_of_singleton, elem_of_set_bind.
  unfold get_system_administrator. split.
  - intros [[?|?]|(d & Hd & Hx)]; [by left | by right; left | right; right].
    exists d. split; [by apply HD|].
    by apply elem_of_union in Hx as [?%elem_of_singleton|?%elem_of_singleton]; [left|right].
  - intros [?|[?|(d & Hd & Hx)]]; [by left; left | by left; right | right].
    exists d. split; [by apply HD|].
    rewrite elem_of_union, !elem_of_singleton. tauto.
Qed.

Lemma serves_mail_served env0 st d : serves_mail env0 st d → served st d.
Proof.
  intros [Hu|(s & Hs & H1 & H2 & H3 & _ & _ & Hd)]; [by left|].
  right. by exists s.
Qed.

(** A served domain that mail is not served for is the primary hostname,
    through one of its two aliases. *)
Lemma served_serves_mail env0 st d :
  served st d →
  serves_mail env0 st d
  ∨ (d = PRIMARY_HOSTNAME env0
     ∧ (is_Some (aliases st !! ("administrator@" ++ PRIMARY_HOSTNAME env0))
        ∨ is_Some (aliases st !! ("hostmaster@" ++ PRIMARY_HOSTNAME env0)))).
Proof.
  intros [Hu|(s & Hs & H1 & H2 & H3 & Hd)]; [by left; left|].
  destruct (decide (s = "administrator@" ++ PRIMARY_HOSTNAME env0)) as [->|Hna].
  { right. split; [|by left]. unfold domain_of in Hd.
    assert (Py.split1 "@" ("administrator@" ++ PRIMARY_HOSTNAME env0)
            = ["administrator"; PRIMARY_HOSTNAME env0]) as Hsplit by reflexivity.
    rewrite Hsplit in Hd. simpl in Hd. congruence. }
  destruct (decide (s = "hostmaster@" ++ PRIMARY_HOSTNAME env0)) as [->|Hnh].
  { right. split; [|by right]. unfold domain_of in Hd.
    assert (Py.split1 "@" ("hostmaster@" ++ PRIMARY_HOSTNAME env0)
            = ["hostmaster"; PRIMARY_HOSTNAME env0]) as Hsplit by reflexivity.
    rewrite Hsplit in Hd. simpl in Hd. congruence. }
  left. right. by exists s.
Qed.

(** Beyond the required addresses, [get_required_aliases] returns at most
    [postmaster@] and [admin@] on the primary hostname. *)
Lemma required_aliases_bound env0 st R x :
  addresses_have_domain st →
  get_required_aliases X env0 st = Ret R → x ∈ R →
  required_address env0 st x
  ∨ ((x = "postmaster@" ++ PRIMARY_HOSTNAME env0 ∨ x = "admin@" ++ PRIMARY_HOSTNAME env0)
     ∧ (is_Some (aliases st !! ("administrator@" ++ PRIMARY_HOSTNAME env0))
        ∨ is_Some (aliases st !! ("hostmaster@" ++ PRIMARY_HOSTNAME env0)))).
Proof.
  intros Hwf HR. destruct (get_required_aliases_members env0 st Hwf) as (R' & HR' & Hmem).
  assert (R' = R) as -> by congruence.
  intros [?|[?|(d & Hd & Hx)]]%Hmem; [by left; left | by left; right; left|].
  destruct (served_serves_mail env0 st d Hd) as [Hs|[-> Hrows]].
  - left. right. right. by exists d.
  - right. done.
Qed.

(** C3, as the code has it.  In a directory whose addresses all hold an
    [@], the set [get_required_aliases] returns holds [administrator@] and
    [hostmaster@] on the primary hostname and [postmaster@d] and [admin@d]
    for every domain [d] mail is served for: the domain of a user, or of an
    alias whose source is not itself an administrative or catch-all
    address.  The source of an alias decides, whatever the alias points
    to.  Every member of the set is one of these addresses, for a domain
    mail is served for or for the primary hostname; and the set is exactly
    the required addresses when mail is served for the primary hostname or
    [aliases] has no row at [administrator@] and [hostmaster@] on it. *)
Theorem required_alias_set (env0 : env) (st : db) :
  addresses_have_domain st →
  let host := PRIMARY_HOSTNAME env0 in
  ∃ R, get_required_aliases X env0 st = Ret R
       ∧ (∀ x, required_address env0 st x → x ∈ R)
       ∧ (∀ x, x ∈ R →
            required_address env0 st x
            ∨ x = "postmaster@" ++ host ∨ x = "admin@" ++ host)
       ∧ (serves_mail env0 st host
          ∨ (aliases st !! ("administrator@" ++ host) = None
             ∧ aliases st !! ("hostmaster@" ++ host) = None) →
          ∀ x, x ∈ R ↔ required_address env0 st x).
Proof.
  intros Hwf host. destruct (get_required_aliases_members env0 st Hwf) as (R & HR & Hmem).
  exists R. split; [exact HR|].
  assert (∀ x, required_address env0 st x → x ∈ R) as Hlower.
  { intros x Hx. apply Hmem. destruct Hx as [?|[?|(d & Hd & Hx)]]; [by left|by right; left|].
    right. right. exists d. split; [by eapply serves_mail_served | done]. }
  split; [exact Hlower|]. split.
  - intros x Hx.
    destruct (required_aliases_bound env0 st R x Hwf HR Hx) as [?|[[?|?] _]];
      [by left | by right; left | by right; right].
  - intros Hscope x. split; [|apply Hlower]. intros Hx.
    destruct (required_aliases_bound env0 st R x Hwf HR Hx) as [?|[Hform Hrows]]; [done|].
    destruct Hscope as [Hs|[Ha Hh]].
    + right. right. exists host. split; [done|]. exact Hform.
    + fold host in Hrows. rewrite Ha, Hh in Hrows.
      destruct Hrows as [[? ?]|[? ?]]; done.
Qed.

End Required.

(** ** Reconciliation *)

Lemma split1_domain c s :
  (1 ≤ Py.count c s)%nat → ∃ d, Py.split1 c s !! 1%nat = Some d.
Proof.
  induction s as [|a s IH]; simpl; [lia|].
  destruct (Ascii.eqb a c); simpl; [by eexists|].
  intros H. destruct (IH H) as [d Hd].
  destruct (Py.split1 c s) as [|h t]; [done|]. by exists d.
Qed.

Lemma split_one c s : Py.count c s = 1 → ∃ u d, Py.split c s = [u; d].
Proof.
  intros Hc. pose proof (split_length c s) as Hlen. rewrite Hc in Hlen.
  destruct (Py.split c s) as [|u [|d [|? ?]]]; simpl in Hlen; try lia. by eexists _, _.
Qed.

Lemma well_formed_domains X st : well_formed X st → addresses_have_domain st.
Proof.
  intros [Hu Ha]. split; [done|]. intros s Hs. destruct (Ha s Hs) as [Hc _].
  apply split1_domain. lia.
Qed.

Section Kick.

Context (X : collaborators) (Hsort : sort_reorders X).

(** An insertion without [update_if_exists] touches no existing row. *)
Lemma add_mail_alias_store_keeps source destination st :
  let st' := (add_mail_alias_store X source destination false st).2 in
  users st' = users st ∧ aliases st ⊆ aliases st'.
Proof.
  unfold add_mail_alias_store.
  repeat match goal with
         | |- context [match aliases st !! ?k with _ => _ end] =>
             destruct (aliases st !! k) eqn:?; simpl; try done
         | |- context [match check_destinations ?a ?b ?c ?d ?e with _ => _ end] =>
             destruct (check_destinations a b c d e); simpl; try done
         | |- context [if ?b then _ else _] => destruct b; simpl; try done
         end.
  all: split; [done|]; by apply insert_subseteq.
Qed.

Lemma ensure_required_keeps env0 eu ea required results st :
  let st' := (ensure_required X env0 eu ea required results st).2 in
  users st' = users st ∧ aliases st ⊆ aliases st'.
Proof.
  revert results st. induction required as [|r required IH]; intros results st; simpl.
  - done.
  - unfold ensure_admin_alias_exists.
    destruct (bool_decide (r ∈ eu)); [apply IH|].
    destruct (existsb _ ea); [apply IH|].
    destruct (add_mail_alias_store_keeps r (get_system_administrator env0) st) as [Hu Ha].
    specialize (IH (results ++ [added_line env0 r])%list
                   (add_mail_alias_store X r (get_system_administrator env0) false st).2).
    simpl in IH. destruct IH as [Hu' Ha']. split; [congruence|]. by etrans.
Qed.

(** A removal of a normalized source deletes its row, if any. *)
Lemma remove_mail_alias_store_deletes s st :
  sanitize_idn_email_address X s = s →
  let st' := (remove_mail_alias_store X s st).2 in
  users st' = users st ∧ aliases st' = delete s (aliases st).
Proof.
  intros Hs. unfold remove_mail_alias_store. rewrite Hs.
  destruct (aliases st !! s) eqn:Hl; simpl; [done|].
  split; [done|]. symmetry. by apply delete_id.
Qed.

(** The removal loop over well-formed rows runs to its end and deletes
    exactly the rows that pass its test. *)
Lemma remove_stale_spec env0 R rows results st :
  Forall (fun row => Py.count "@" row.1 = 1 ∧ sanitize_idn_email_address X row.1 = row.1) rows →
  ∃ results' st',
    remove_stale X env0 R rows results st = (Ret results', st')
    ∧ users st' = users st
    ∧ (∀ k, aliases st' !! k =
            if bool_decide (k ∈ (List.filter (stale_row env0 R) rows).*1) then None
            else aliases st !! k)
    ∧ (List.filter (stale_row env0 R) rows = [] → results' = results).
Proof.
  revert results st. induction rows as [|[s t] rows IH]; intros results st HF.
  - simpl. exists results, st. done.
  - apply Forall_cons in HF as [[Hc Hs] HF]. simpl in Hc, Hs.
    destruct (split_one "@" s Hc) as (user & domain & Hsplit).
    assert (stale_row env0 R (s, t) = is_stale env0 R user s t) as Hrow
      by (unfold stale_row; simpl; by rewrite Hsplit).
    cbn [remove_stale List.filter]. rewrite Hsplit, Hrow.
    destruct (is_stale env0 R user s t) eqn:Hst.
    + destruct (remove_mail_alias_store_deletes s st Hs) as [Hu Ha].
      destruct (IH (results ++ [removed_line s t])%list
                   (remove_mail_alias_store X s st).2 HF)
        as (results' & st' & Hrun & Hu' & Ha' & _).
      exists results', st'. split; [done|]. split; [congruence|]. split; [|done].
      intros k. rewrite Ha', Ha. rewrite fmap_cons. simpl. rewrite lookup_delete.
      destruct (decide (s = k)) as [->|Hne].
      * rewrite (bool_decide_eq_true_2 (k ∈ k :: _)) by by left. by case_bool_decide.
      * case_bool_decide as H1; case_bool_decide as H2; try done.
        -- exfalso. apply H2. by right.
        -- apply elem_of_cons in H2 as [?|?]; congruence.
    + destruct (IH results st HF) as (results' & st' & Hrun & Hu' & Ha' & Hres).
      exists results', st'. done.
Qed.

(** [kick] on a well-formed directory returns, leaves the users alone, and
    the rows of [aliases] it started from are still there unless they pass
    the test of the removal loop. *)
Lemma kick_actions_spec env0 mail_result st :
  well_formed X st →
  ∃ R results st',
    get_required_aliases X env0 st = Ret R
    ∧ kick_actions X env0 mail_result st = (Ret results, st')
    ∧ users st' = users st
    ∧ ∀ s t, aliases st !! s = Some t →
        aliases st' !! s = if stale_row env0 R (s, t) then None else Some t.
Proof.
  intros Hwf. pose proof (well_formed_domains X st Hwf) as Hdom.
  destruct (get_required_aliases_served X Hsort env0 st Hdom) as (D & _ & HR).
  set (R := _ ∪ _ ∪ set_bind _ D) in HR.
  destruct (get_mail_aliases_rows X Hsort env0 st) as (rows & Hrows & Hin & Hnd).
  unfold kick_actions. rewrite Hrows, HR.
  set (results0 := match mail_result with Some r => [r ++ NL] | None => [] end).
  destruct (ensure_required X env0 (get_mail_users X env0 st) rows (elements R) results0 st)
    as [results1 st1] eqn:He.
  pose proof (ensure_required_keeps env0 (get_mail_users X env0 st) rows (elements R)
                results0 st) as [Hu1 Ha1].
  rewrite He in Hu1, Ha1. simpl in Hu1, Ha1.
  destruct (remove_stale_spec env0 R rows results1 st1) as (results' & st' & Hrun & Hu & Ha & _).
  { apply Forall_forall. intros [s t] Hst%Hin. simpl.
    apply (proj2 Hwf). by eexists. }
  exists R, results', st'. split; [done|]. split; [done|]. split; [congruence|].
  intros s t Hst. rewrite Ha.
  assert (aliases st1 !! s = Some t) as ->
    by (eapply lookup_weaken; [exact Hst | exact Ha1]).
  destruct (stale_row env0 R (s, t)) eqn:Hstale.
  - rewrite bool_decide_eq_true_2; [done|]. apply list_elem_of_fmap.
    exists (s, t). split; [done|]. apply list_elem_of_In, filter_In.
    split; [|done]. by apply list_elem_of_In, Hin.
  - rewrite bool_decide_eq_false_2; [done|].
    intros ([s' t'] & Heq & [Hst' Hf]%list_elem_of_In%filter_In)%list_elem_of_fmap.
    simpl in Heq. subst s'. apply list_elem_of_In, Hin in Hst'. congruence.
Qed.

End Kick.

Lemma stale_row_true env0 R s t :
  stale_row env0 R (s, t) = true ↔
  (∃ user domain, Py.split "@" s = [user; domain]
                  ∧ (user = "postmaster" ∨ user = "admin"))
  ∧ (s ∉ R)
  ∧ t = "administrator@" ++ PRIMARY_HOSTNAME env0.
Proof.
  unfold stale_row, is_stale, get_system_administrator. simpl. split.
  - destruct (Py.split "@" s) as [|user [|domain [|? ?]]]; try done.
    intros [[Hu Hr%bool_decide_eq_true]%andb_true_iff Ht]%andb_true_iff.
    apply String.eqb_eq in Ht. apply bool_decide_eq_true in Hu. split; [|done].
    exists user, domain. split; [done|].
    apply elem_of_cons in Hu as [?|Hu]; [by left|].
    apply elem_of_cons in Hu as [?|Hu]; [by right|]. by apply elem_of_nil in Hu.
  - intros ((user & domain & -> & Hu) & Hr & ->).
    rewrite String.eqb_refl, andb_true_r. apply andb_true_iff. split.
    + apply bool_decide_eq_true. destruct Hu as [-> | ->]; [left | right; left]; done.
    + by apply bool_decide_eq_true.
Qed.

Section Reconciliation.

Context (X : collaborators) (Hsort : sort_reorders X).

(** [kick] returns on a well-formed directory and leaves the users alone. *)
Lemma kick_returns env0 mail_result st :
  well_formed X st →
  ∃ report st', kick X env0 mail_result st = (Ret report, st')
                ∧ users st' = users st.
Proof.
  intros Hwf.
  destruct (kick_actions_spec X Hsort env0 mail_result st Hwf)
    as (R & results & st' & _ & Hact & Hu & _).
  unfold kick, mbind. rewrite Hact. by eexists _, _.
Qed.

(** C2.  On a well-formed directory the reconciliation pass returns, and a
    row [s -> t] of [aliases] is gone afterwards exactly when the local
    part of [s] is [postmaster] or [admin], [s] is not a required alias and
    [t] is [administrator@] the primary hostname; any other row is kept
    with its destination, so a [postmaster@] or [admin@] alias pointing
    elsewhere is never removed. *)
Theorem stale_alias_removal (env0 : env) (mail_result : option string) (st : db) :
  well_formed X st →
  ∃ R report st',
    get_required_aliases X env0 st = Ret R
    ∧ kick X env0 mail_result st = (Ret report, st')
    ∧ ∀ s t, aliases st !! s = Some t →
        (aliases st' !! s = None ↔
           (∃ user domain, Py.split "@" s = [user; domain]
                           ∧ (user = "postmaster" ∨ user = "admin"))
           ∧ (s ∉ R)
           ∧ t = "administrator@" ++ PRIMARY_HOSTNAME env0)
        ∧ (aliases st' !! s = None ∨ aliases st' !! s = Some t).
Proof.
  intros Hwf.
  destruct (kick_actions_spec X Hsort env0 mail_result st Hwf)
    as (R & results & st' & HR & Hact & Hu & Hrows).
  exists R. eexists _, st'. split; [done|]. split.
  { unfold kick, mbind. by rewrite Hact. }
  intros s t Hst. rewrite (Hrows s t Hst), <- stale_row_true.
  destruct (stale_row env0 R (s, t)); split; try done; [by left | by right].
Qed.

(** C7, as the code has it.  For a domain-control address that passes
    the general address check: if it holds a [+] (a plus-tagged variant)
    [add_mail_user] refuses it with the message of the character check,
    whether or not a user exists.  If it passes the character check, then
    when a user already exists [add_mail_user] returns the policy message
    as a [(reason, 400)] tuple and changes nothing; when no user exists yet
    and the remaining steps go through (valid password and privileges,
    [doveadm] succeeding, a well-formed directory), it creates the account
    and returns the report of [kick]. *)
Theorem dcv_user_bootstrap (email pw : string) (privs : option string)
    (env0 : env) (st : db) :
  Py.strip email ≠ "" →
  validate_email X email ModeNone = true →
  is_dcv_address email = true →
  ((1 ≤ Py.count "+" email)%nat →
     add_mail_user X email pw privs env0 st = (Ret (Error400 user_charset_message), st))
  ∧ (validate_email X email ModeUser = true →
     users st ≠ ∅ →
     add_mail_user X email pw privs env0 st = (Ret (Error400 dcv_user_message), st))
  ∧ (validate_email X email ModeUser = true →
     users st = ∅ →
     ¬ invalid_password pw →
     ∀ ps h out,
       check_privs privs = inr ps →
       hash_password X pw = Ret h →
       doveadm_mailbox_list X email = inl out →
       create_folders X email (Py.split "010" out) ["INBOX"; "Trash"; "Spam"; "Drafts"]
       = Ret tt →
       (1 ≤ Py.count "@" email)%nat →
       well_formed X st →
       ∃ report st',
         add_mail_user X email pw privs env0 st = (Ret (Text report), st')
         ∧ users st' = {[ email := (h, Py.join NL ps) ]}).
Proof.
  intros Hne Hv Hdcv. split; [|split].
  - intros Hplus. unfold add_mail_user.
    destruct (String.eqb_spec (Py.strip email) ""); [done|].
    rewrite Hv. cbn [negb].
    assert (validate_email X email ModeUser = false) as ->; [|done].
    unfold validate_email. destruct (validate_email_ X email false); simpl; [|done].
    destruct (255 <? String.length email)%nat; [done|].
    assert (Py.any_char
              (fun a => negb (Ascii.eqb a "@" || Ascii.eqb a "." || Py.is_lower a
                              || Py.is_digit a || Ascii.eqb a "_" || Ascii.eqb a "-"))
              email = true) as ->; [|done].
    clear -Hplus. induction email as [|a s IH]; simpl in *; [lia|].
    destruct (Ascii.eqb_spec a "+") as [->|_]; [done|].
    rewrite IH by lia. apply orb_true_r.
  - intros Hvu Hsome. unfold add_mail_user.
    destruct (String.eqb_spec (Py.strip email) ""); [done|].
    rewrite Hv, Hvu, Hdcv. simpl.
    rewrite (get_mail_users_length X Hsort).
    destruct (Nat.ltb_spec 0 (size (users st))) as [|Hz]; [done|].
    exfalso. apply Hsome, map_size_empty_iff. lia.
  - intros Hvu Hempty Hpw ps h out Hps Hh Hlist Hcreate Hat Hwf. unfold add_mail_user.
    destruct (String.eqb_spec (Py.strip email) ""); [done|].
    rewrite Hv, Hvu, Hdcv. cbn [negb andb].
    rewrite (get_mail_users_length X Hsort), Hempty, map_size_empty, Nat.ltb_irrefl.
    rewrite (validate_password_valid pw Hpw), Hps, Hh, lookup_empty, Hlist, Hcreate.
    set (st1 := set_users st _).
    destruct (kick_returns env0 (Some "mail user added") st1) as (report & st' & Hk & Hu).
    { split.
      - intros u [v Hu]. unfold st1 in Hu. simpl in Hu.
        apply lookup_insert_Some in Hu as [[<- _]|[_ Hu]]; [|by rewrite lookup_empty in Hu].
        by apply split1_domain.
      - exact (proj2 Hwf). }
    exists report, st'. unfold mbind. rewrite Hk. split; [done|].
    rewrite Hu. unfold st1. simpl. by rewrite insert_empty.
Qed.

End Reconciliation.

(** ** Aliases grouped by domain *)

Lemma str_le_total s t : Py.str_le s t = true ∨ Py.str_le t s = true.
Proof.
  revert t. induction s as [|a s IH]; intros [|b t]; simpl; auto.
  destruct (N.ltb_spec (Py.code a) (Py.code b)), (N.ltb_spec (Py.code b) (Py.code a));
    auto; lia.
Qed.

Lemma str_le_trans s t u :
  Py.str_le s t = true → Py.str_le t u = true → Py.str_le s u = true.
Proof.
  revert t u. induction s as [|a s IH]; intros [|b t] [|c u]; simpl; try done.
  destruct (N.ltb_spec (Py.code a) (Py.code b)), (N.ltb_spec (Py.code b) (Py.code a)),
    (N.ltb_spec (Py.code b) (Py.code c)), (N.ltb_spec (Py.code c) (Py.code b)),
    (N.ltb_spec (Py.code a) (Py.code c)), (N.ltb_spec (Py.code c) (Py.code a));
    try done; try lia.
  apply IH.
Qed.

(** The order of the sort keys, spelled out. *)
Lemma key_le_spec a b :
  key_le a b ↔
  (required a = false ∧ required b = true)
  ∨ (required a = required b ∧ Py.str_le (source a) (source b) = true).
Proof.
  unfold key_le, key_leb.
  destruct (required a), (required b); simpl; rewrite ?Is_true_true;
    split; intros H; try tauto; try done.
  all: destruct H as [[? ?]|[? ?]]; done.
Qed.

Global Instance key_le_total : Total key_le.
Proof.
  intros a b. rewrite !key_le_spec.
  destruct (required a), (required b), (str_le_total (source a) (source b)); auto.
Qed.

Global Instance key_le_trans : Transitive key_le.
Proof.
  intros a b c. rewrite !key_le_spec.
  intros [[? ?]|[? ?]] [[? ?]|[? ?]]; try congruence; auto.
  - left. split; congruence.
  - left. split; congruence.
  - right. split; [congruence|]. by eapply str_le_trans.
Qed.

Lemma StronglySorted_mono {A} (R S : relation A) l :
  (∀ x y, R x y → S x y) → StronglySorted R l → StronglySorted S l.
Proof.
  intros HRS. induction 1 as [|x l Hl IH Hx]; constructor; [done|].
  eapply Forall_impl; [exact Hx|]. intros y. apply HRS.
Qed.

Section Reader_ex.

Context (X : collaborators).

(** C6, as the code has it.  In every domain group returned by
    [get_mail_aliases_ex] the aliases are in ascending order of the key
    [(required, source)]: every alias that is not required comes before
    every required one, and aliases of equal required-ness are in
    lexicographic order of their source. *)
Theorem aliases_sorted_within_domain (env0 : env) (st : db)
    (groups : list (string * list alias_entry)) :
  get_mail_aliases_ex X env0 st = Ret groups →
  ∀ g, g ∈ groups →
    StronglySorted
      (fun a b =>
         (required a = false ∧ required b = true)
         ∨ (required a = required b ∧ Py.str_le (source a) (source b) = true))
      g.2.
Proof.
  unfold get_mail_aliases_ex. intros Hex g Hg.
  destruct (get_required_aliases X env0 st) as [R|]; [|done]. simpl in Hex.
  destruct (get_mail_aliases X env0 st) as [rows|]; [|done]. simpl in Hex.
  destruct (group_aliases X R rows []) as [domains|]; [|done]. simpl in Hex.
  destruct (rmap _ _) as [sorted|]; [|done]. simpl in Hex.
  injection Hex as <-. apply list_elem_of_fmap in Hg as (g0 & -> & _). simpl.
  apply (StronglySorted_mono key_le); [intros a b; apply key_le_spec|].
  apply StronglySorted_merge_sort; apply _.
Qed.

End Reader_ex.

(** * The functions on concrete directories *)

Section Concrete.

Import Sample.

Lemma sample_sort_reorders : sort_reorders collab.
Proof. intros l env0. apply merge_sort_Permutation. Qed.

Lemma empty_db_well_formed : well_formed collab empty_db.
Proof.
  split; intros a [v Ha]; simpl in Ha; by rewrite lookup_empty in Ha.
Qed.

Lemma stale_db_well_formed : well_formed collab stale_db.
Proof.
  split.
  - intros a [v Ha]; simpl in Ha; by rewrite lookup_empty in Ha.
  - intros s [v Hs]. simpl in Hs. apply lookup_singleton_Some in Hs as [<- _].
    split; vm_compute; reflexivity.
Qed.

Lemma one_user_domains : addresses_have_domain one_user.
Proof.
  split.
  - intros u [v Hu]. simpl in Hu. apply lookup_singleton_Some in Hu as [<- _].
    exists "example.com". reflexivity.
  - intros a [v Ha]; simpl in Ha; by rewrite lookup_empty in Ha.
Qed.

Lemma one_user_not_empty : users one_user ≠ ∅.
Proof.
  intros H. apply (f_equal (fun m => m !! "me@example.com")) in H.
  vm_compute in H. discriminate.
Qed.

(** C1 at the code.  Starting from a directory with a single account,
    a first reconciliation pass creates the four required aliases, and a
    second pass run right after it creates two more,
    [postmaster@box.example.com] and [admin@box.example.com], and reports
    them: the [administrator@] and [hostmaster@] aliases created by the
    first pass have made the primary hostname a served domain. *)
Theorem kick_twice_adds_again :
  let st1 := (kick collab box None one_user).2 in
  let st2 := (kick collab box None st1).2 in
  aliases st1 !! "postmaster@box.example.com" = None
  ∧ aliases st1 !! "admin@box.example.com" = None
  ∧ aliases st2 !! "postmaster@box.example.com" = Some "administrator@box.example.com"
  ∧ aliases st2 !! "admin@box.example.com" = Some "administrator@box.example.com"
  ∧ (∃ results, (kick_actions collab box None st1).1 = Ret results
                ∧ results ≡ₚ [added_line box "postmaster@box.example.com";
                              added_line box "admin@box.example.com"])
  ∧ (kick collab box None st1).1 ≠ Ret "".
Proof.
  repeat split; try (vm_compute; reflexivity).
  - eexists. split; [vm_compute; reflexivity|]. apply Permutation_swap.
  - vm_compute. discriminate.
Qed.

(** Counterexample to C3: a [postmaster@foo.tld] alias pointing away from
    the administrator does not make [foo.tld] a served domain. *)
Lemma repointed_alias_does_not_serve :
  aliases repointed_db !! "postmaster@foo.tld" = Some "hostmaster@elsewhere.org"
  ∧ get_required_aliases collab box repointed_db
    = Ret ({[ "administrator@box.example.com" ]} ∪ {[ "hostmaster@box.example.com" ]})
  ∧ ("postmaster@foo.tld"
     ∉ ({[ "administrator@box.example.com" ]} ∪ {[ "hostmaster@box.example.com" ]}
        : gset string))
  ∧ ("admin@foo.tld"
     ∉ ({[ "administrator@box.example.com" ]} ∪ {[ "hostmaster@box.example.com" ]}
        : gset string)).
Proof.
  split; [reflexivity|]. split; [vm_compute; reflexivity|].
  split; apply (bool_decide_unpack _); vm_compute; exact I.
Qed.

(** Counterexample to C4: an empty or short password is raised, not
    returned. *)
Lemma invalid_password_raises :
  add_mail_user collab "user@example.com" "" None box empty_db
  = (Raise (ValueError "No password provided."), empty_db)
  ∧ add_mail_user collab "user@example.com" "a b c" None box empty_db
    = (Raise (ValueError "Passwords cannot contain spaces."), empty_db)
  ∧ set_mail_password collab "me@example.com" "abc" box one_user
    = (Raise (ValueError "Passwords must be at least four characters."), one_user).
Proof. repeat split; vm_compute; reflexivity. Qed.

(** [get_mail_aliases_ex] on the directory [two_aliases]. *)
Lemma optional_alias_listed_first_run :
  get_mail_aliases_ex collab box two_aliases
  = Ret [("box.example.com",
          [ {| source := "sales@box.example.com";
               source_display := "sales@box.example.com";
               destination := ["bob@example.com"];
               required := false |};
            {| source := "administrator@box.example.com";
               source_display := "administrator@box.example.com";
               destination := ["root@example.com"];
               required := true |} ])].
Proof. vm_compute. reflexivity. Qed.

(** Counterexample to C6: the optional alias [sales@] is listed before the
    required alias [administrator@] of the same domain. *)
Lemma optional_alias_listed_first :
  get_mail_aliases_ex collab box two_aliases
  = Ret [("box.example.com",
          [ {| source := "sales@box.example.com";
               source_display := "sales@box.example.com";
               destination := ["bob@example.com"];
               required := false |};
            {| source := "administrator@box.example.com";
               source_display := "administrator@box.example.com";
               destination := ["root@example.com"];
               required := true |} ])].
Proof. vm_compute. reflexivity. Qed.

(** Counterexample to C8: with the values of the [idna] codec of CPython,
    the address [a@Bücher.DE] is encoded without error and comes back from
    prettify after normalize as [a@bücher.DE]. *)
Lemma roundtrip_folds_case :
  sanitize_idn_email_address collab ("a@" ++ buecher_capitals) = "a@xn--bcher-kva.DE"
  ∧ prettify_idn_email_address collab
      (sanitize_idn_email_address collab ("a@" ++ buecher_capitals))
    = "a@" ++ buecher_folded
  ∧ "a@" ++ buecher_folded ≠ "a@" ++ buecher_capitals.
Proof. split; [reflexivity|]. split; [reflexivity|]. vm_compute. discriminate. Qed.

(** Counterexample to C7: the plus-tagged domain-control address
    [admin+setup@example.com] is refused as the very first account. *)
Lemma plus_tagged_first_user_refused :
  users empty_db = ∅
  ∧ is_dcv_address "admin+setup@example.com" = true
  ∧ validate_email collab "admin+setup@example.com" ModeNone = true
  ∧ add_mail_user collab "admin+setup@example.com" "secret" None box empty_db
    = (Ret (Error400 user_charset_message), empty_db).
Proof. repeat split; vm_compute; reflexivity. Qed.

(** ** The theorems at concrete inputs *)

Lemma normalize_prettify_total_witness :
  sanitize_idn_email_address collab "a@b@c" = "a@b@c"
  ∧ prettify_idn_email_address collab "a@b@c" = "a@b@c".
Proof.
  apply (proj1 (proj2 (proj2 (normalize_prettify_total collab "a@b@c")))).
  vm_compute. discriminate.
Defined.

Lemma prettify_normalize_roundtrip_witness :
  prettify_idn_email_address collab
    (sanitize_idn_email_address collab ("a" ++ "@" ++ buecher))
  = "a" ++ "@" ++ buecher.
Proof.
  apply (proj1 (proj1 (prettify_normalize_roundtrip collab "a" buecher eq_refl eq_refl)
                  "xn--bcher-kva.de" buecher eq_refl eq_refl eq_refl eq_refl)).
Defined.

Lemma password_failure_is_raised_witness :
  (∃ reason, add_mail_user collab "Me@example.com" "secret" None box one_user
             = (Ret (Error400 reason), one_user))
  ∧ (∃ msg, set_mail_password collab "me@example.com" umlauts box one_user
            = (Raise (ValueError msg), one_user))
  ∧ (∃ msg, add_mail_user collab "you@example.com" "abc" None box one_user
            = (Raise (ValueError msg), one_user)).
Proof.
  assert (invalid_password "abc") as Hinv by (right; right; simpl; lia).
  assert (invalid_password umlauts) as Hinv' by (right; right; simpl; lia).
  split; [|split].
  - apply (proj1 (password_failure_is_raised collab "Me@example.com" "secret" None box
                    one_user)).
    right. right. left. reflexivity.
  - exact (proj1 (proj2 (password_failure_is_raised collab "me@example.com" umlauts None
                           box one_user) Hinv')).
  - apply (proj2 (proj2 (password_failure_is_raised collab "you@example.com" "abc" None
                           box one_user) Hinv)).
    intros [H|[H|[H|[H _]]]]; vm_compute in H; discriminate.
Defined.

Lemma blank_destination_is_stored_witness :
  add_mail_alias collab "sales@x.tld" "," box false false empty_db
  = (Ret PyNone, {| users := ∅; aliases := {[ "sales@x.tld" := "" ]} |}).
Proof.
  apply (blank_destination_is_stored collab "sales@x.tld" "," box empty_db).
  - vm_compute. discriminate.
  - vm_compute. reflexivity.
  - vm_compute. discriminate.
  - vm_compute. reflexivity.
  - vm_compute. reflexivity.
  - reflexivity.
Defined.

(** A destination padded with a NO-BREAK SPACE is stripped before it is
    checked: the alias to the administrator [me@example.com] is stored. *)
Lemma padded_destination_is_stripped :
  add_mail_alias collab "postmaster@dcv-test.tld" (nbsp ++ "me@example.com") box false
    false one_user
  = (Ret PyNone,
     {| users := users one_user;
        aliases := {[ "postmaster@dcv-test.tld" := "me@example.com" ]} |}).
Proof. vm_compute. reflexivity. Qed.

Lemma dcv_source_needs_admin_destinations_witness :
  add_mail_alias collab "postmaster@dcv-test.tld" "bob@example.com" box false true one_user
  = (Ret (Error400 dcv_alias_message), one_user).
Proof.
  assert (Exists (fun d => is_dcv_address d = false ∧ ¬ holds_admin one_user d)
                 (parsed_destinations collab "bob@example.com")) as HE.
  { replace (parsed_destinations collab "bob@example.com") with ["bob@example.com"]
      by (vm_compute; reflexivity).
    apply Exists_cons_hd. split; [reflexivity|].
    intros (pw & privileges & Hl & _). vm_compute in Hl. discriminate. }
  apply (proj2 (proj2 (dcv_source_needs_admin_destinations collab
                         "postmaster@dcv-test.tld" "bob@example.com" box false true
                         one_user eq_refl) HE)).
  - vm_compute. discriminate.
  - vm_compute. reflexivity.
  - replace (parsed_destinations collab "bob@example.com") with ["bob@example.com"]
      by (vm_compute; reflexivity).
    repeat constructor.
Defined.

Lemma repointed_db_domains : addresses_have_domain repointed_db.
Proof.
  split.
  - intros u [v Hu]. simpl in Hu. by rewrite lookup_empty in Hu.
  - intros s [v Hs]. simpl in Hs. apply lookup_singleton_Some in Hs as [<- _].
    exists "foo.tld". reflexivity.
Qed.

Lemma required_alias_set_witness :
  ∃ R, get_required_aliases collab box repointed_db = Ret R
       ∧ ∀ x, x ∈ R ↔ required_address box repointed_db x.
Proof.
  destruct (required_alias_set collab sample_sort_reorders box repointed_db
              repointed_db_domains)
    as (R & HR & _ & _ & Hexact).
  exists R. split; [exact HR|]. apply Hexact. right. split; reflexivity.
Defined.

Lemma stale_alias_removal_witness :
  ∃ R report st',
    get_required_aliases collab box stale_db = Ret R
    ∧ kick collab box None stale_db = (Ret report, st')
    ∧ ∀ s t, aliases stale_db !! s = Some t →
        (aliases st' !! s = None ↔
           (∃ user domain, Py.split "@" s = [user; domain]
                           ∧ (user = "postmaster" ∨ user = "admin"))
           ∧ (s ∉ R)
           ∧ t = "administrator@" ++ PRIMARY_HOSTNAME box)
        ∧ (aliases st' !! s = None ∨ aliases st' !! s = Some t).
Proof.
  apply (stale_alias_removal collab sample_sort_reorders box None stale_db
           stale_db_well_formed).
Defined.

Lemma aliases_sorted_within_domain_witness :
  ∃ groups,
    get_mail_aliases_ex collab box two_aliases = Ret groups
    ∧ ∀ g, g ∈ groups →
        StronglySorted
          (fun a b =>
             (required a = false ∧ required b = true)
             ∨ (required a = required b ∧ Py.str_le (source a) (source b) = true))
          g.2.
Proof.
  eexists. split; [exact optional_alias_listed_first_run|].
  apply (aliases_sorted_within_domain collab box two_aliases).
  exact optional_alias_listed_first_run.
Defined.

Lemma dcv_user_bootstrap_witness :
  add_mail_user collab "admin+setup@example.com" "secret" None box one_user
  = (Ret (Error400 user_charset_message), one_user)
  ∧ add_mail_user collab "admin@example.com" "secret" None box one_user
    = (Ret (Error400 dcv_user_message), one_user)
  ∧ ∃ report st',
      add_mail_user collab "admin@example.com" "secret" None box empty_db
      = (Ret (Text report), st')
      ∧ users st' = {[ "admin@example.com" := ("{SHA512-CRYPT}secret", Py.join NL []) ]}.
Proof.
  assert (Py.strip "admin@example.com" ≠ "") as H1 by (vm_compute; discriminate).
  assert (Py.strip "admin+setup@example.com" ≠ "") as H2 by (vm_compute; discriminate).
  split; [|split].
  - apply (proj1 (dcv_user_bootstrap collab sample_sort_reorders "admin+setup@example.com"
                    "secret" None box one_user H2 eq_refl eq_refl)).
    vm_compute. lia.
  - apply (proj1 (proj2 (dcv_user_bootstrap collab sample_sort_reorders
                           "admin@example.com" "secret" None box one_user H1 eq_refl
                           eq_refl)) eq_refl).
    exact one_user_not_empty.
  - apply (proj2 (proj2 (dcv_user_bootstrap collab sample_sort_reorders
                           "admin@example.com" "secret" None box empty_db H1 eq_refl
                           eq_refl)) eq_refl eq_refl) with (out := "").
    + intros [H|[H|H]]; vm_compute in H; [discriminate|discriminate|lia].
    + reflexivity.
    + reflexivity.
    + reflexivity.
    + reflexivity.
    + vm_compute. lia.
    + exact empty_db_well_formed.
Defined.

End Concrete.

(** * Further properties of the code *)

(** ** Characters and prefixes *)

Lemma user_char_facts a :
  user_char a = true →
  Py.lower_char a = a ∧ Py.is_space a = false ∧ Py.is_ascii a = true
  ∧ Ascii.eqb a "+" = false ∧ Ascii.eqb a "/" = false.
Proof.
  destruct a as [[] [] [] [] [] [] [] []]; vm_compute; intros H;
    repeat split; congruence.
Qed.

Lemma lower_char_idem a : Py.lower_char (Py.lower_char a) = Py.lower_char a.
Proof. destruct a as [[] [] [] [] [] [] [] []]; reflexivity. Qed.

Lemma lower_idem s : Py.lower (Py.lower s) = Py.lower s.
Proof. induction s as [|a s IH]; simpl; [done|]. by rewrite lower_char_idem, IH. Qed.

Lemma lower_app s t : Py.lower (s ++ t) = Py.lower s ++ Py.lower t.
Proof. induction s as [|a s IH]; simpl; [done|]. by rewrite IH. Qed.

Lemma startswith_spec s p : Py.startswith s p = true ↔ ∃ rest, s = p ++ rest.
Proof.
  revert s. induction p as [|b p IH]; intros s; simpl.
  - split; [by exists s | by destruct s].
  - destruct s as [|a s]; simpl.
    + split; [done | by intros [rest ?]].
    + rewrite andb_true_iff, IH. split.
      * intros [->%Ascii.eqb_eq [rest ->]]. by exists rest.
      * intros [rest [= -> ->]]. split; [apply Ascii.eqb_refl | by exists rest].
Qed.

Lemma any_char_false p s :
  Py.any_char (fun a => negb (p a)) s = false ↔ Py.all_chars p s = true.
Proof.
  induction s as [|a s IH]; simpl; [done|].
  rewrite orb_false_iff, andb_true_iff, IH, negb_false_iff. done.
Qed.

Lemma all_chars_impl (p q : ascii → bool) s :
  (∀ a, p a = true → q a = true) → Py.all_chars p s = true → Py.all_chars q s = true.
Proof.
  intros Hpq. induction s as [|a s IH]; simpl; [done|].
  intros [Ha Hs]%andb_true_iff. rewrite (Hpq a Ha). by apply IH.
Qed.

Lemma all_chars_count p c s :
  p c = false → Py.all_chars p s = true → Py.count c s = 0.
Proof.
  intros Hc. induction s as [|a s IH]; simpl; [done|].
  intros [Ha Hs]%andb_true_iff. destruct (Ascii.eqb_spec a c) as [->|_]; [congruence|].
  by apply IH.
Qed.

Lemma all_chars_lower p s :
  (∀ a, p a = true → Py.lower_char a = a) → Py.all_chars p s = true → Py.lower s = s.
Proof.
  intros Hp. induction s as [|a s IH]; simpl; [done|].
  intros [Ha Hs]%andb_true_iff. by rewrite (Hp a Ha), (IH Hs).
Qed.

Lemma all_chars_none (p q : ascii → bool) s :
  (∀ a, p a = true → q a = false) → Py.all_chars p s = true → Py.any_char q s = false.
Proof.
  intros Hpq. induction s as [|a s IH]; simpl; [done|].
  intros [Ha Hs]%andb_true_iff. by rewrite (Hpq a Ha), (IH Hs).
Qed.

Section NormalizerMore.

Context (X : collaborators).

(** X1.  An address accepted in [user] mode is accepted in plain mode, is
    at most 255 characters long and is made of [@ . _ -], lowercase
    letters and digits only; so it is its own lowercase form, is ASCII, and
    holds no [+], no [/] and no whitespace. *)
Theorem user_mode_address (email : string) :
  validate_email X email ModeUser = true →
  validate_email X email ModeNone = true
  ∧ (String.length email ≤ 255)%nat
  ∧ Py.all_chars user_char email = true
  ∧ Py.lower email = email
  ∧ Py.all_chars Py.is_ascii email = true
  ∧ Py.count "+" email = 0
  ∧ Py.count "/" email = 0
  ∧ Py.any_char Py.is_space email = false.
Proof.
  unfold validate_email.
  destruct (validate_email_ X email false); simpl; [|done].
  destruct (Nat.ltb_spec 255 (String.length email)); [done|].
  destruct (Py.any_char _ email) eqn:Hany; [done|]. intros _.
  apply (any_char_false user_char) in Hany.
  split; [done|]. split; [lia|]. split; [done|].
  split; [|split; [|split; [|split]]].
  - eapply all_chars_lower; [|exact Hany]. intros a Ha. by apply user_char_facts.
  - eapply all_chars_impl; [|exact Hany]. intros a Ha. by apply user_char_facts.
  - by eapply all_chars_count; [|exact Hany].
  - by eapply all_chars_count; [|exact Hany].
  - eapply all_chars_none; [|exact Hany]. intros a Ha. by apply user_char_facts.
Qed.

End NormalizerMore.

Lemma str_app_assoc (s t u : string) : (s ++ t) ++ u = s ++ t ++ u.
Proof.
  induction s as [|a s IH]; [done|].
  change (String a ((s ++ t) ++ u) = String a (s ++ t ++ u)). by f_equal.
Qed.

Lemma split1_no_sep c s : Py.count c s = 0 → Py.split1 c s = [s].
Proof.
  induction s as [|a s IH]; simpl; [done|].
  destruct (Ascii.eqb a c); [done|]. intros H. by rewrite (IH H).
Qed.

Lemma split1_app c l rest :
  Py.count c l = 0 → Py.split1 c (l ++ String c rest) = [l; rest].
Proof.
  induction l as [|a l IH]; simpl.
  - intros _. by rewrite Ascii.eqb_refl.
  - destruct (Ascii.eqb a c); [done|]. intros H. by rewrite (IH H).
Qed.

(** X2.  [is_dcv_address] does not depend on the case of its argument, and
    holds exactly when the lowercased address begins with one of the five
    reserved local parts followed by [@] or by [+]. *)
Theorem is_dcv_address_spec (email : string) :
  is_dcv_address (Py.lower email) = is_dcv_address email
  ∧ (is_dcv_address email = true ↔
     ∃ localpart rest,
       localpart ∈ dcv_localparts
       ∧ (Py.lower email = localpart ++ "@" ++ rest
          ∨ Py.lower email = localpart ++ "+" ++ rest)).
Proof.
  split.
  - unfold is_dcv_address. by rewrite lower_idem.
  - unfold is_dcv_address. rewrite existsb_exists. split.
    + intros (lp & Hin%list_elem_of_In & [H|H]%orb_true_iff);
        apply startswith_spec in H as [rest Hrest]; exists lp, rest;
        (split; [done|]); rewrite Hrest, str_app_assoc; auto.
    + intros (lp & rest & Hin & H). exists lp. split; [by apply list_elem_of_In|].
      apply orb_true_iff.
      destruct H as [H|H]; [left|right]; apply startswith_spec; exists rest;
        by rewrite H, str_app_assoc.
Qed.

Section DomainPart.

Context (X : collaborators).

(** X3.  [get_domain] raises [IndexError] on an address without [@];
    otherwise it cuts at the first [@] only, so the part it returns may
    itself hold an [@].  With [as_unicode] the part must be ASCII and is
    handed to the IDNA decoder, whose result or exception is passed on. *)
Theorem get_domain_cuts_at_first_at :
  (∀ email as_unicode, Py.count "@" email = 0 →
     get_domain X email as_unicode = Raise IndexError)
  ∧ (∀ localpart rest, Py.count "@" localpart = 0 →
       get_domain X (localpart ++ "@" ++ rest) false = Ret rest
       ∧ get_domain X (localpart ++ "@" ++ rest) true
         = if Py.all_chars Py.is_ascii rest then idna_decode X rest
           else Raise UnicodeError).
Proof.
  split.
  - intros email b Hc. unfold get_domain. by rewrite (split1_no_sep _ _ Hc).
  - intros l rest Hl. unfold get_domain.
    change ("@" ++ rest) with (String "@" rest). rewrite (split1_app _ _ _ Hl). simpl.
    split; [done|]. unfold Py.ascii_codec. by destruct (Py.all_chars Py.is_ascii rest).
Qed.

End DomainPart.

(** ** Privileges *)

Lemma split_pieces_no_sep c s : Forall (fun p => Py.count c p = 0) (Py.split c s).
Proof.
  induction s as [|a s IH]; simpl; [by repeat constructor|].
  destruct (Ascii.eqb_spec a c) as [->|Hne]; [by constructor|].
  destruct (Py.split c s) as [|h t]; [repeat constructor; simpl|].
  - by destruct (Ascii.eqb_spec a c).
  - apply Forall_cons in IH as [Hh Ht]. constructor; [|done]. simpl.
    by destruct (Ascii.eqb_spec a c).
Qed.

Lemma split_join c ps :
  ps ≠ [] → Forall (fun p => Py.count c p = 0) ps →
  Py.split c (Py.join (String c "") ps) = ps.
Proof.
  induction ps as [|p ps IH]; [done|]. intros _ [Hp Hps]%Forall_cons.
  destruct ps as [|q ps]; simpl.
  - by apply split_no_sep.
  - change (Py.split c (p ++ String c (Py.join (String c "") (q :: ps))) = p :: q :: ps).
    rewrite (split_app _ _ _ Hp). f_equal. by apply IH.
Qed.

Lemma any_char_eqb_count c s :
  Py.any_char (Ascii.eqb c) s = false ↔ Py.count c s = 0.
Proof.
  induction s as [|a s IH]; simpl; [done|].
  rewrite Ascii.eqb_sym. destruct (Ascii.eqb a c); simpl; [split; [done|lia]|]. exact IH.
Qed.

(** A privilege token [validate_privilege] lets through. *)
Lemma validate_privilege_None priv :
  validate_privilege priv = None ↔ Py.count "010" priv = 0 ∧ Py.strip priv ≠ "".
Proof.
  unfold validate_privilege. rewrite <- any_char_eqb_count.
  destruct (Py.any_char _ priv); simpl; [split; [done|by intros [? _]]|].
  destruct (String.eqb_spec (Py.strip priv) ""); split; try done.
  by intros [_ ?].
Qed.

Lemma validate_privilege_Some priv v :
  validate_privilege priv = Some v → ∃ reason, v = Error400 reason.
Proof.
  unfold validate_privilege. destruct (_ || _); [|done]. intros [= <-]. by eexists.
Qed.

Lemma parse_privs_valid value :
  Forall (fun p => validate_privilege p = None) (parse_privs value).
Proof.
  unfold parse_privs. apply Forall_forall. intros p [Hne Hin]%list_elem_of_filter.
  apply validate_privilege_None. split; [|done].
  pose proof (split_pieces_no_sep "010" value) as HF.
  rewrite Forall_forall in HF. by apply HF.
Qed.

Lemma parse_privs_join ps :
  Forall (fun p => validate_privilege p = None) ps →
  parse_privs (Py.join NL ps) = ps.
Proof.
  intros HF. unfold parse_privs. destruct ps as [|p ps]; [done|].
  unfold NL. rewrite split_join; [|done|].
  - induction HF as [|q qs Hq HF IH]; [done|].
    rewrite filter_cons. apply validate_privilege_None in Hq as [_ Hq].
    case_decide; [|done]. by rewrite IH.
  - eapply Forall_impl; [exact HF|]. by intros q [? _]%validate_privilege_None.
Qed.

(** X4.  The privileges of an account survive the text form they are
    stored in: tokens that pass [validate_privilege], joined with newlines
    and parsed back by [parse_privs], give the same list in the same order;
    and whatever text is stored, [parse_privs] only returns tokens that
    pass [validate_privilege]. *)
Theorem privileges_roundtrip (privs : list string) (value : string) :
  (Forall (fun p => validate_privilege p = None) privs →
     parse_privs (Py.join NL privs) = privs)
  ∧ Forall (fun p => validate_privilege p = None) (parse_privs value).
Proof. split; [apply parse_privs_join | apply parse_privs_valid]. Qed.

Lemma set_users_same st u : u = users st → set_users st u = st.
Proof. intros ->. by destruct st. Qed.

Lemma privileges_after_update email password privs env0 st :
  Forall (fun p => validate_privilege p = None) privs →
  let st' := set_users st (<[email := (password, Py.join NL privs)]> (users st)) in
  get_mail_user_privileges email false st' = inr privs
  ∧ get_mail_password email env0 st' = Ret password
  ∧ (∀ other, other ≠ email → users st' !! other = users st !! other)
  ∧ aliases st' = aliases st.
Proof.
  intros HF st'. unfold get_mail_user_privileges, get_mail_password, st'. simpl.
  rewrite lookup_insert_eq, (parse_privs_join _ HF).
  repeat split. intros other Hne. by rewrite lookup_insert_ne.
Qed.

(** X5.  Adding a valid privilege to an existing account answers ["OK"];
    afterwards the account holds its former privileges in their order,
    followed by the new one unless it was already there.  The password, the
    other accounts and the aliases are untouched, and adding the same
    privilege again changes nothing. *)
Theorem privilege_add (email priv : string) (env0 : env) (st : db)
    (password privileges : string) :
  validate_privilege priv = None →
  users st !! email = Some (password, privileges) →
  let old := parse_privs privileges in
  let new := if bool_decide (priv ∈ old) then old else (old ++ [priv])%list in
  ∃ st',
    add_remove_mail_user_privilege email priv "add" env0 st = (Ret (Text "OK"), st')
    ∧ get_mail_user_privileges email false st' = inr new
    ∧ priv ∈ new
    ∧ get_mail_password email env0 st' = Ret password
    ∧ (∀ other, other ≠ email → users st' !! other = users st !! other)
    ∧ aliases st' = aliases st
    ∧ add_remove_mail_user_privilege email priv "add" env0 st' = (Ret (Text "OK"), st').
Proof.
  intros Hv Hu old new.
  assert (Forall (fun p => validate_privilege p = None) new) as Hnew.
  { unfold new. case_bool_decide; [apply parse_privs_valid|].
    apply Forall_app. split; [apply parse_privs_valid | by repeat constructor]. }
  assert (priv ∈ new) as Hin.
  { unfold new. case_bool_decide; [done|]. apply elem_of_app. right. by left. }
  destruct (privileges_after_update email password new env0 st Hnew)
    as (Hp & Hpw & Hfr & Hal).
  eexists. split; [|split; [exact Hp|split; [exact Hin|split; [exact Hpw|split;
    [exact Hfr|split; [exact Hal|]]]]]].
  - unfold add_remove_mail_user_privilege, get_mail_user_privileges.
    rewrite Hv, Hu. simpl. fold old. done.
  - unfold add_remove_mail_user_privilege. rewrite Hv, Hp. simpl.
    rewrite (bool_decide_eq_true_2 _ Hin), lookup_insert_eq. f_equal.
    unfold set_users. simpl. by rewrite insert_insert_eq.
Qed.

(** X6.  Removing a valid privilege from an existing account answers
    ["OK"]; afterwards the account holds its former privileges without
    that one, in their order (nothing changes in the list when it was not
    there).  The password, the other accounts and the aliases are
    untouched. *)
Theorem privilege_remove (email priv : string) (env0 : env) (st : db)
    (password privileges : string) :
  validate_privilege priv = None →
  users st !! email = Some (password, privileges) →
  let new := filter (fun p => p ≠ priv) (parse_privs privileges) in
  ∃ st',
    add_remove_mail_user_privilege email priv "remove" env0 st = (Ret (Text "OK"), st')
    ∧ get_mail_user_privileges email false st' = inr new
    ∧ (priv ∉ new)
    ∧ get_mail_password email env0 st' = Ret password
    ∧ (∀ other, other ≠ email → users st' !! other = users st !! other)
    ∧ aliases st' = aliases st.
Proof.
  intros Hv Hu new.
  assert (Forall (fun p => validate_privilege p = None) new) as Hnew.
  { unfold new. apply Forall_forall. intros p [_ Hin]%list_elem_of_filter.
    pose proof (parse_privs_valid privileges) as HF. rewrite Forall_forall in HF.
    by apply HF. }
  destruct (privileges_after_update email password new env0 st Hnew)
    as (Hp & Hpw & Hfr & Hal).
  eexists. split; [|split; [exact Hp|split; [|split; [exact Hpw|split;
    [exact Hfr|exact Hal]]]]].
  - unfold add_remove_mail_user_privilege, get_mail_user_privileges.
    rewrite Hv, Hu. simpl. done.
  - unfold new. by intros [? _]%list_elem_of_filter.
Qed.

(** X7.  [add_remove_mail_user_privilege] never raises, and whenever it
    answers with a [(reason, 400)] tuple the database is as it was.  It
    does so for a privilege that is blank or holds a newline, for an
    address that is not an account, and for an action other than ["add"]
    and ["remove"]. *)
Theorem privilege_errors (email priv action : string) (env0 : env) (st : db) :
  (∃ resp st',
      add_remove_mail_user_privilege email priv action env0 st = (Ret resp, st')
      ∧ (resp = Text "OK" ∨ (∃ reason, resp = Error400 reason) ∧ st' = st))
  ∧ (validate_privilege priv ≠ None →
       ∃ reason, add_remove_mail_user_privilege email priv action env0 st
                 = (Ret (Error400 reason), st))
  ∧ (validate_privilege priv = None → users st !! email = None →
       add_remove_mail_user_privilege email priv action env0 st
       = (Ret (Error400 ("That's not a user (" ++ email ++ ").")), st))
  ∧ (validate_privilege priv = None → is_Some (users st !! email) →
     action ≠ "add" → action ≠ "remove" →
       add_remove_mail_user_privilege email priv action env0 st
       = (Ret (Error400 "Invalid action."), st)).
Proof.
  unfold add_remove_mail_user_privilege, get_mail_user_privileges.
  destruct (validate_privilege priv) as [v|] eqn:Hv.
  - destruct (validate_privilege_Some _ _ Hv) as [reason ->].
    split; [|split; [|split]]; try done.
    + eexists _, _. split; [done|]. right. split; [by eexists|done].
    + intros _. by eexists.
  - destruct (users st !! email) as [[password privileges]|] eqn:Hu.
    + split; [|split; [done|split; [done|]]].
      * destruct (String.eqb action "add"); [eexists _, _; split; [done|by left]|].
        destruct (String.eqb action "remove"); [eexists _, _; split; [done|by left]|].
        eexists _, _. split; [done|]. right. split; [by eexists|done].
      * intros _ _ Ha Hr. apply String.eqb_neq in Ha, Hr. by rewrite Ha, Hr.
    + split; [|split; [done|split; [done|by intros _ [? ?]]]].
      eexists _, _. split; [done|]. right. split; [by eexists|done].
Qed.

(** ** Accounts *)

Section AccountsMore.

Context (X : collaborators).

(** X8.  With a valid password that [doveadm] hashes to [h],
    [set_mail_password] on an existing account answers ["OK"], after which
    [get_mail_password] returns [h]; only the password of that account
    changes.  On an address that is not an account it answers with a
    [(reason, 400)] tuple and changes nothing, where [get_mail_password]
    raises [ValueError]. *)
Theorem password_roundtrip (email pw : string) (env0 : env) (st : db) (h : string) :
  ¬ invalid_password pw →
  hash_password X pw = Ret h →
  (∀ old privileges, users st !! email = Some (old, privileges) →
     ∃ st',
       set_mail_password X email pw env0 st = (Ret (Text "OK"), st')
       ∧ get_mail_password email env0 st' = Ret h
       ∧ users st' = <[email := (h, privileges)]> (users st)
       ∧ aliases st' = aliases st)
  ∧ (users st !! email = None →
       set_mail_password X email pw env0 st
       = (Ret (Error400 ("That's not a user (" ++ email ++ ").")), st)
       ∧ get_mail_password email env0 st
         = Raise (ValueError ("That's not a user (" ++ email ++ ")."))).
Proof.
  intros Hpw Hh. unfold set_mail_password, get_mail_password.
  rewrite (validate_password_valid pw Hpw), Hh. split.
  - intros old privileges Hu. rewrite Hu. eexists. split; [done|]. simpl.
    by rewrite lookup_insert_eq.
  - intros Hu. by rewrite Hu.
Qed.

(** X9.  Whenever [add_mail_user] answers with a [(reason, 400)] tuple the
    database is as it was before the call.  This includes the case where
    the row was already inserted and [doveadm mailbox list] failed: the
    row is deleted again. *)
Theorem add_mail_user_error_keeps_db (email pw : string) (privs : option string)
    (env0 : env) (st st' : db) (reason : string) :
  add_mail_user X email pw privs env0 st = (Ret (Error400 reason), st') →
  st' = st.
Proof.
  unfold add_mail_user.
  destruct (String.eqb (Py.strip email) ""); [congruence|].
  destruct (negb (validate_email X email ModeNone)); [congruence|].
  destruct (negb (validate_email X email ModeUser)); [congruence|].
  destruct (is_dcv_address email && _); [congruence|].
  destruct (validate_password pw); [|congruence].
  destruct (check_privs privs) as [validation|ps]; [congruence|].
  destruct (hash_password X pw) as [h|]; [|congruence].
  destruct (users st !! email) eqn:Hu; [congruence|].
  destruct (doveadm_mailbox_list X email) as [out|out].
  - destruct (create_folders X email _ _); [|congruence].
    unfold mbind, mret.
    destruct (kick X env0 (Some "mail user added") _) as [[r|e] st2]; congruence.
  - intros [= _ <-]. unfold set_users. simpl. rewrite delete_insert_id by done.
    by destruct st.
Qed.

(** X10.  When the address, password and privileges are accepted, the
    account is new and [doveadm mailbox list] succeeds, but creating one of
    the four folders fails, [add_mail_user] raises [CalledProcessError] and
    the account row stays in the database: this failure is not rolled
    back and reconciliation is not run. *)
Theorem add_mail_user_folder_failure (email pw : string) (privs : option string)
    (env0 : env) (st : db) (ps : list string) (h out : string) (e : exn) :
  ¬ invalid_password pw →
  Py.strip email ≠ "" →
  validate_email X email ModeNone = true →
  validate_email X email ModeUser = true →
  (is_dcv_address email && (0 <? length (get_mail_users X env0 st))%nat) = false →
  check_privs privs = inr ps →
  hash_password X pw = Ret h →
  users st !! email = None →
  doveadm_mailbox_list X email = inl out →
  create_folders X email (Py.split "010" out) ["INBOX"; "Trash"; "Spam"; "Drafts"]
  = Raise e →
  add_mail_user X email pw privs env0 st
  = (Raise e, set_users st (<[email := (h, Py.join NL ps)]> (users st))).
Proof.
  intros Hpw Hne Hv Hvu Hdcv Hps Hh Hu Hlist Hcreate. unfold add_mail_user.
  destruct (String.eqb_spec (Py.strip email) ""); [done|].
  rewrite Hv, Hvu, Hdcv. cbn [negb].
  by rewrite (validate_password_valid pw Hpw), Hps, Hh, Hu, Hlist, Hcreate.
Qed.

End AccountsMore.

(** ** Aliases *)

Section AliasesMore.

Context (X : collaborators).

(** The destination [add_mail_alias] writes for a destination string. *)
Lemma add_mail_alias_store_inv source destination update_if_exists st status st' :
  add_mail_alias_store X source destination update_if_exists st = (inr status, st') →
  let src := Py.strip (Py.lower (sanitize_idn_email_address X source)) in
  let d1 := sanitize_idn_email_address X (Py.strip destination) in
  src ≠ "" ∧ validate_email X src ModeAlias = true ∧ Py.strip destination ≠ ""
  ∧ st' = set_aliases st
            (<[src := if validate_email X d1 ModeAlias && negb (is_dcv_address src)
                      then d1
                      else Py.join "," (parsed_destinations X destination)]>
               (aliases st))
  ∧ status = match aliases st !! src with
                 | Some _ => "alias updated"
                 | None => "alias added"
                 end
  ∧ (is_Some (aliases st !! src) → update_if_exists = true).
Proof.
  intros Hrun src d1. unfold add_mail_alias_store in Hrun. fold src d1 in Hrun.
  destruct (String.eqb_spec src ""); [done|].
  destruct (validate_email X src ModeAlias); simpl in Hrun; [|done].
  assert (∃ dests,
    (if validate_email X d1 ModeAlias && negb (is_dcv_address src) then inr [d1]
     else check_destinations X (is_dcv_address src) st
            (flat_map (Py.split ",") (Py.split "010" (Py.strip destination))) [])
    = inr dests
    ∧ Py.join "," dests
      = (if validate_email X d1 ModeAlias && negb (is_dcv_address src) then d1
         else Py.join "," (parsed_destinations X destination))) as (dests & Hd & Hj).
  { destruct (validate_email X d1 ModeAlias && negb (is_dcv_address src)).
    - by exists [d1].
    - destruct (check_destinations X _ st _ []) as [|dests] eqn:Hc; [done|].
      exists dests. split; [done|].
      by apply check_destinations_accepts in Hc as [-> _]. }
  rewrite Hd in Hrun.
  destruct (String.length (Py.strip destination) =? 0)%nat eqn:Hlen; [done|].
  assert (Py.strip destination ≠ "") as Hdst.
  { intros H0. apply length_zero_empty in H0. congruence. }
  rewrite Hj in Hrun.
  destruct (aliases st !! src) eqn:Hl.
  - destruct update_if_exists; simpl in Hrun; [|done].
    injection Hrun as <- <-. done.
  - injection Hrun as <- <-. done.
Qed.

(** A refusal of [add_mail_alias] leaves the database as it was. *)
Lemma add_mail_alias_store_refuses source destination update_if_exists st reason st' :
  add_mail_alias_store X source destination update_if_exists st = (inl reason, st') →
  st' = st.
Proof.
  unfold add_mail_alias_store.
  repeat match goal with
         | |- context [match aliases st !! ?k with _ => _ end] =>
             destruct (aliases st !! k) eqn:?; simpl; try congruence
         | |- context [match check_destinations ?a ?b ?c ?d ?e with _ => _ end] =>
             destruct (check_destinations a b c d e); simpl; try congruence
         | |- context [if ?b then _ else _] => destruct b; simpl; try congruence
         end.
Qed.

(** The answers of [add_mail_alias]: a [(reason, 400)] tuple comes from
    the part before the commit, [None] from a call without [do_kick]. *)
Lemma add_mail_alias_Error400 source destination env0 update_if_exists do_kick st
    reason st' :
  add_mail_alias X source destination env0 update_if_exists do_kick st
  = (Ret (Error400 reason), st') →
  add_mail_alias_store X source destination update_if_exists st = (inl reason, st').
Proof.
  unfold add_mail_alias.
  destruct (add_mail_alias_store X source destination update_if_exists st)
    as [[r|status] st1]; [congruence|].
  destruct do_kick; [|congruence]. unfold mbind, mret.
  destruct (kick X env0 (Some status) st1) as [[r|e] st2]; congruence.
Qed.

Lemma add_mail_alias_PyNone source destination env0 update_if_exists st st' :
  add_mail_alias X source destination env0 update_if_exists false st = (Ret PyNone, st') →
  ∃ status,
    add_mail_alias_store X source destination update_if_exists st = (inr status, st').
Proof.
  unfold add_mail_alias.
  destruct (add_mail_alias_store X source destination update_if_exists st)
    as [[r|status] st1]; [congruence|].
  intros [= <-]. by exists status.
Qed.

(** X11.  A call of [add_mail_alias] with [do_kick=False] does not raise:
    it either answers with a [(reason, 400)] tuple and leaves the database
    as it was, or returns [None] and has written exactly one row of
    [aliases], keyed by the normalized, lowercased and stripped source (a
    row that was there is only overwritten with [update_if_exists]).  The
    destination written is the single normalized destination when that is
    a valid alias address (such as a bare [@domain]) and the source is not
    a domain-control address; otherwise it is the parsed destinations in
    the order given, joined by commas.  The users are never touched.  With
    [do_kick=True] too, a [(reason, 400)] answer leaves the database as it
    was. *)
Theorem add_mail_alias_effect (source destination : string) (env0 : env)
    (update_if_exists : bool) (st : db) :
  let src := Py.strip (Py.lower (sanitize_idn_email_address X source)) in
  let d1 := sanitize_idn_email_address X (Py.strip destination) in
  (∀ do_kick reason st',
     add_mail_alias X source destination env0 update_if_exists do_kick st
     = (Ret (Error400 reason), st') →
     st' = st)
  ∧ match add_mail_alias X source destination env0 update_if_exists false st with
    | (Ret (Error400 _), st') => st' = st
    | (Ret PyNone, st') =>
        users st' = users st
        ∧ aliases st'
          = <[src := if validate_email X d1 ModeAlias && negb (is_dcv_address src)
                     then d1
                     else Py.join "," (parsed_destinations X destination)]>
              (aliases st)
        ∧ (is_Some (aliases st !! src) → update_if_exists = true)
    | _ => False
    end.
Proof.
  intros src d1. split.
  - intros do_kick reason st' Hrun%add_mail_alias_Error400.
    by eapply add_mail_alias_store_refuses.
  - unfold add_mail_alias.
    destruct (add_mail_alias_store X source destination update_if_exists st)
      as [[reason|status] st'] eqn:Hrun.
    + by eapply add_mail_alias_store_refuses.
    + destruct (add_mail_alias_store_inv _ _ _ _ _ _ Hrun) as (_ & _ & _ & -> & _ & Hupd).
      done.
Qed.

(** X12.  [update_if_exists] only matters when the source already has a
    row.  On a source that has no row yet the calls with and without the
    flag do the same.  On a source that has a row, a call that goes
    through with the flag set, overwriting the row, is refused without
    the flag, with "Alias already exists" and no change. *)
Theorem update_if_exists_effect (source destination : string) (env0 : env) (st : db) :
  let src := Py.strip (Py.lower (sanitize_idn_email_address X source)) in
  (aliases st !! src = None →
     ∀ do_kick,
       add_mail_alias X source destination env0 false do_kick st
       = add_mail_alias X source destination env0 true do_kick st)
  ∧ (is_Some (aliases st !! src) →
     ∀ st',
       add_mail_alias X source destination env0 true false st = (Ret PyNone, st') →
       is_Some (aliases st' !! src)
       ∧ ∀ do_kick,
           add_mail_alias X source destination env0 false do_kick st
           = (Ret (Error400 ("Alias already exists (" ++ src ++ ").")), st)).
Proof.
  intros src. split.
  - intros Hfresh do_kick. unfold add_mail_alias, add_mail_alias_store. fold src.
    by rewrite Hfresh.
  - intros [d Hd] st' [status Hrun]%add_mail_alias_PyNone.
    destruct (add_mail_alias_store_inv _ _ _ _ _ _ Hrun) as (_ & _ & _ & -> & _ & _).
    fold src. split; [simpl; rewrite lookup_insert_eq; by eexists|].
    intros do_kick. revert Hrun. unfold add_mail_alias, add_mail_alias_store. fold src.
    destruct (String.eqb src ""); [done|].
    destruct (negb (validate_email X src ModeAlias)); [done|].
    destruct (if validate_email X _ ModeAlias && negb (is_dcv_address src) then _ else _);
      [done|].
    destruct (String.length _ =? 0)%nat; [done|].
    by rewrite Hd.
Qed.

(** X13.  [remove_mail_alias] looks the row up under the normalized form of
    its argument, without lowercasing or stripping it.  If no such row
    exists it answers with a [(reason, 400)] tuple and changes nothing.
    When [add_mail_alias] with [do_kick=False] has just created an alias,
    removing it with [do_kick=False], under a name that normalizes to the
    stored key, returns [None] and gives back the database from before
    the addition. *)
Theorem alias_add_remove_roundtrip (name : string) (env0 : env) (st : db) :
  (aliases st !! sanitize_idn_email_address X name = None →
     ∀ do_kick,
       remove_mail_alias X name env0 do_kick st
       = (Ret (Error400
                 ("That's not an alias (" ++ sanitize_idn_email_address X name ++ ").")),
          st))
  ∧ (∀ source destination update_if_exists st',
       add_mail_alias X source destination env0 update_if_exists false st
       = (Ret PyNone, st') →
       let src := Py.strip (Py.lower (sanitize_idn_email_address X source)) in
       aliases st !! src = None →
       sanitize_idn_email_address X name = src →
       remove_mail_alias X name env0 false st' = (Ret PyNone, st)).
Proof.
  split.
  - intros Hnone do_kick. unfold remove_mail_alias, remove_mail_alias_store.
    by rewrite Hnone.
  - intros source destination upd st' [status Hrun]%add_mail_alias_PyNone src Hfresh Hname.
    destruct (add_mail_alias_store_inv _ _ _ _ _ _ Hrun) as (_ & _ & _ & -> & _ & _).
    fold src. unfold remove_mail_alias, remove_mail_alias_store. rewrite Hname. simpl.
    rewrite lookup_insert_eq. f_equal. unfold set_aliases. simpl.
    rewrite delete_insert_id by done. by destruct st.
Qed.

End AliasesMore.

(** ** Reconciliation, continued *)

Lemma prefix_startswith p rest : Py.startswith (p ++ rest) p = true.
Proof. apply startswith_spec. by exists rest. Qed.

Lemma rstrip_nonempty a s : Py.is_space a = false → Py.rstrip (String a s) ≠ "".
Proof. intros Ha. simpl. rewrite Ha. by destruct (Py.rstrip s). Qed.

Section KickMore.

Context (X : collaborators) (Hsort : sort_reorders X).

Lemma add_mail_alias_store_refused source destination update_if_exists st reason st' :
  add_mail_alias_store X source destination update_if_exists st = (inl reason, st') →
  st' = st.
Proof.
  unfold add_mail_alias_store.
  repeat match goal with
         | |- context [match aliases st !! ?k with _ => _ end] =>
             destruct (aliases st !! k) eqn:?; simpl; try congruence
         | |- context [match check_destinations ?a ?b ?c ?d ?e with _ => _ end] =>
             destruct (check_destinations a b c d e); simpl; try congruence
         | |- context [if ?b then _ else _] => destruct b; simpl; try congruence
         end.
Qed.

(** The destinations [kick] can give to the aliases it creates. *)
Definition admin_destination (env0 : env) (v : string) : Prop :=
  v = sanitize_idn_email_address X (Py.strip (get_system_administrator env0))
  ∨ v = Py.join "," (parsed_destinations X (get_system_administrator env0)).

Lemma ensure_required_rows env0 eu ea required results st :
  let st' := (ensure_required X env0 eu ea required results st).2 in
  ∀ k v, aliases st' !! k = Some v →
         aliases st !! k = Some v ∨ (aliases st !! k = None ∧ admin_destination env0 v).
Proof.
  revert results st. induction required as [|r required IH]; intros results st; simpl.
  - intros k v Hk. by left.
  - unfold ensure_admin_alias_exists.
    destruct (bool_decide (r ∈ eu)); [apply IH|].
    destruct (existsb _ ea); [apply IH|].
    destruct (add_mail_alias_store X r (get_system_administrator env0) false st)
      as [[reason|status] st1] eqn:Hadd; simpl.
    + apply add_mail_alias_store_refused in Hadd as ->. apply IH.
    + destruct (add_mail_alias_store_inv X _ _ _ _ _ _ Hadd) as (_ & _ & _ & -> & _ & Hupd).
      intros k v Hk. apply IH in Hk. simpl in Hk.
      set (src := Py.strip (Py.lower (sanitize_idn_email_address X r))) in *.
      assert (aliases st !! src = None) as Hfresh.
      { destruct (aliases st !! src) eqn:Hl; [|done]. by discriminate Hupd. }
      destruct (decide (src = k)) as [<-|Hne].
      * rewrite lookup_insert_eq in Hk. right. split; [done|].
        destruct Hk as [[= <-]|[[=] _]].
        unfold admin_destination. destruct (_ && _); [by left | by right].
      * by rewrite lookup_insert_ne in Hk.
Qed.

(** The run of [kick_actions] on a well-formed directory, step by step. *)
Lemma kick_actions_run env0 mail_result st :
  well_formed X st →
  ∃ (R : gset string) rows results1 st1 results st',
    get_required_aliases X env0 st = Ret R
    ∧ get_mail_aliases X env0 st = Ret rows
    ∧ (∀ s t, (s, t) ∈ rows ↔ aliases st !! s = Some t)
    ∧ ensure_required X env0 (get_mail_users X env0 st) rows (elements R)
        (match mail_result with Some r => [r ++ NL] | None => [] end) st
      = (results1, st1)
    ∧ kick_actions X env0 mail_result st = (Ret results, st')
    ∧ users st' = users st
    ∧ (∀ k, aliases st' !! k =
            if bool_decide (k ∈ (List.filter (stale_row env0 R) rows).*1) then None
            else aliases st1 !! k)
    ∧ (List.filter (stale_row env0 R) rows = [] → results = results1).
Proof.
  intros Hwf. pose proof (well_formed_domains X st Hwf) as Hdom.
  destruct (get_required_aliases_served X Hsort env0 st Hdom) as (D & _ & HR).
  set (R := _ ∪ _ ∪ set_bind _ D) in HR.
  destruct (get_mail_aliases_rows X Hsort env0 st) as (rows & Hrows & Hin & Hnd).
  set (results0 := match mail_result with Some r => [r ++ NL] | None => [] end).
  destruct (ensure_required X env0 (get_mail_users X env0 st) rows (elements R) results0 st)
    as [results1 st1] eqn:He.
  pose proof (ensure_required_keeps X env0 (get_mail_users X env0 st) rows (elements R)
                results0 st) as [Hu1 _].
  rewrite He in Hu1. simpl in Hu1.
  destruct (remove_stale_spec X env0 R rows results1 st1)
    as (results' & st' & Hrun & Hu & Ha & Hres).
  { apply Forall_forall. intros [s t] Hst%Hin. simpl. apply (proj2 Hwf). by eexists. }
  exists R, rows, results1, st1, results', st'.
  split; [done|]. split; [done|]. split; [done|]. split; [done|]. split.
  { unfold kick_actions. rewrite Hrows, HR. fold results0. by rewrite He. }
  split; [congruence|]. done.
Qed.

(** X14.  On a well-formed directory [kick] returns its report, never
    touches the users, and only deletes or creates rows of [aliases]: a
    row found afterwards either was there before with the same destination
    or is new and points to the system administrator address. *)
Theorem kick_frame (env0 : env) (mail_result : option string) (st : db) :
  well_formed X st →
  ∃ report st',
    kick X env0 mail_result st = (Ret report, st')
    ∧ users st' = users st
    ∧ ∀ k v, aliases st' !! k = Some v →
        aliases st !! k = Some v
        ∨ (aliases st !! k = None
           ∧ (v = sanitize_idn_email_address X (Py.strip (get_system_administrator env0))
              ∨ v = Py.join "," (parsed_destinations X (get_system_administrator env0)))).
Proof.
  intros Hwf.
  destruct (kick_actions_run env0 mail_result st Hwf)
    as (R & rows & results1 & st1 & results & st' & _ & _ & _ & He & Hact & Hu & Ha & _).
  eexists _, st'. split; [unfold kick, mbind; by rewrite Hact|]. split; [done|].
  intros k v Hk. rewrite Ha in Hk. case_bool_decide; [done|].
  pose proof (ensure_required_rows env0 (get_mail_users X env0 st) rows (elements R)
                (match mail_result with Some r => [r ++ NL] | None => [] end) st) as Hrows.
  rewrite He in Hrows. by apply Hrows.
Qed.

End KickMore.

Lemma count_app c s t : Py.count c (s ++ t) = Py.count c s + Py.count c t.
Proof.
  induction s as [|a s IH]; [done|].
  change (Py.count c (String a (s ++ t)) = Py.count c (String a s) + Py.count c t).
  simpl. rewrite IH. lia.
Qed.

Lemma str_app_inv_head (p s t : string) : p ++ s = p ++ t → s = t.
Proof.
  induction p as [|a p IH]; [done|].
  change (String a (p ++ s) = String a (p ++ t) → s = t). intros [= H]. by apply IH.
Qed.

Lemma is_dcv_prefixed localpart rest :
  localpart ∈ dcv_localparts → is_dcv_address (localpart ++ "@" ++ rest) = true.
Proof.
  intros Hin. unfold is_dcv_address. apply existsb_exists. exists localpart.
  split; [by apply list_elem_of_In|]. apply orb_true_iff. left.
  rewrite <- str_app_assoc, lower_app.
  assert (Py.lower (localpart ++ "@") = localpart ++ "@") as ->.
  { unfold dcv_localparts in Hin.
    repeat (apply elem_of_cons in Hin as [->|Hin]; [reflexivity|]).
    by apply elem_of_nil in Hin. }
  apply prefix_startswith.
Qed.

Section KickGoals.

Context (X : collaborators) (Hsort : sort_reorders X).

Lemma required_elem env0 st R :
  addresses_have_domain st →
  get_required_aliases X env0 st = Ret R →
  ∀ x, x ∈ R ↔
    x = "administrator@" ++ PRIMARY_HOSTNAME env0
    ∨ x = "hostmaster@" ++ PRIMARY_HOSTNAME env0
    ∨ ∃ d, served st d ∧ (x = "postmaster@" ++ d ∨ x = "admin@" ++ d).
Proof.
  intros Hdom HR x.
  destruct (get_required_aliases_served X Hsort env0 st Hdom) as (D & HD & HR').
  rewrite HR in HR'. injection HR' as ->.
  rewrite !elem_of_union, !elem_of_singleton, elem_of_set_bind.
  unfold get_system_administrator. split.
  - intros [[?|?]|(d & Hd & Hx)]; [by left | by right; left | right; right].
    exists d. split; [by apply HD|].
    by apply elem_of_union in Hx as [?%elem_of_singleton|?%elem_of_singleton]; [left|right].
  - intros [?|[?|(d & Hd & Hx)]]; [by left; left | by left; right | right].
    exists d. split; [by apply HD|].
    rewrite elem_of_union, !elem_of_singleton. tauto.
Qed.

Lemma required_aliases_nonempty env0 st R :
  get_required_aliases X env0 st = Ret R → ∀ r, r ∈ R → r ≠ "".
Proof.
  unfold get_required_aliases.
  destruct (get_mail_domains X env0 not_auto_alias st) as [D|]; [|done].
  simpl. intros [= <-] r.
  rewrite !elem_of_union, !elem_of_singleton, elem_of_set_bind.
  unfold get_system_administrator.
  by intros [[->| ->]|(d & _ & [->%elem_of_singleton| ->%elem_of_singleton]%elem_of_union)].
Qed.

(** X15.  Every address [get_required_aliases] returns is a domain-control
    address, so the aliases the reconciliation creates fall under the rule
    that restricts their destinations. *)
Theorem required_aliases_are_dcv (env0 : env) (st : db) (R : gset string) :
  get_required_aliases X env0 st = Ret R →
  ∀ r, r ∈ R → is_dcv_address r = true.
Proof.
  clear Hsort. unfold get_required_aliases.
  destruct (get_mail_domains X env0 not_auto_alias st) as [D|]; [|done].
  simpl. intros [= <-] r.
  rewrite !elem_of_union, !elem_of_singleton, elem_of_set_bind.
  unfold get_system_administrator.
  intros [[->| ->]|(d & _ & [->%elem_of_singleton| ->%elem_of_singleton]%elem_of_union)].
  - apply (is_dcv_prefixed "administrator"). unfold dcv_localparts. set_solver.
  - apply (is_dcv_prefixed "hostmaster"). unfold dcv_localparts. set_solver.
  - apply (is_dcv_prefixed "postmaster"). unfold dcv_localparts. set_solver.
  - apply (is_dcv_prefixed "admin"). unfold dcv_localparts. set_solver.
Qed.

Lemma check_destinations_all_dcv is_dcv_source st entries dests :
  Forall (fun d => validate_email X d ModeNone = true ∧ is_dcv_address d = true)
         (pieces X entries) →
  check_destinations X is_dcv_source st entries dests = inr (dests ++ pieces X entries)%list.
Proof.
  revert dests. induction entries as [|e entries IH]; intros dests.
  - intros _. simpl. by rewrite app_nil_r.
  - rewrite pieces_cons. simpl.
    destruct (String.eqb (Py.strip e) ""); [apply IH|].
    intros [[Hv Hd] HF]%Forall_cons. rewrite Hv, Hd, andb_false_r. simpl.
    rewrite (IH _ HF). by rewrite <- app_assoc.
Qed.

Lemma administrator_not_blank env0 : Py.strip (get_system_administrator env0) ≠ "".
Proof.
  unfold get_system_administrator, Py.strip.
  change ("administrator@" ++ PRIMARY_HOSTNAME env0)
    with (String "a" ("dministrator@" ++ PRIMARY_HOSTNAME env0)).
  by apply rstrip_nonempty.
Qed.

(** Creating the alias of a required address in normal form leaves it
    present, whether the row is written or was already there. *)
Lemma add_admin_alias_present env0 r st :
  r ≠ "" →
  Py.strip (Py.lower (sanitize_idn_email_address X r)) = r →
  validate_email X r ModeAlias = true →
  Forall (fun d => validate_email X d ModeNone = true ∧ is_dcv_address d = true)
         (parsed_destinations X (get_system_administrator env0)) →
  is_Some (aliases (add_mail_alias_store X r (get_system_administrator env0) false st).2 !! r).
Proof.
  intros Hne Hsrc Hv HF. unfold add_mail_alias_store. rewrite Hsrc.
  destruct (String.eqb_spec r ""); [done|]. rewrite Hv. simpl.
  destruct (String.length (Py.strip (get_system_administrator env0)) =? 0)%nat eqn:Hlen.
  { apply length_zero_empty in Hlen. by apply administrator_not_blank in Hlen. }
  assert (∀ (b : bool) (x : list string) (y : string + list string),
            y = inr (pieces X (flat_map (Py.split ",")
                       (Py.split "010" (Py.strip (get_system_administrator env0))))) →
            ∃ dests, (if b then inr x else y) = inr dests) as Hdests.
  { intros [] x y ->; by eexists. }
  edestruct Hdests as [dests ->]; [by apply (check_destinations_all_dcv _ st _ [])|].
  destruct (aliases st !! r) eqn:Hl; simpl; [by rewrite Hl|].
  by rewrite lookup_insert_eq.
Qed.

Lemma existsb_rows (rows : list (string * string)) r :
  existsb (fun a => String.eqb a.1 r) rows = true ↔ ∃ t, (r, t) ∈ rows.
Proof.
  rewrite existsb_exists. split.
  - intros ([s t] & Hin%list_elem_of_In & Heq). simpl in Heq.
    apply String.eqb_eq in Heq as <-. by exists t.
  - intros [t Hin]. exists (r, t). split; [by apply list_elem_of_In|]. apply String.eqb_refl.
Qed.

Lemma ensure_required_present env0 eu ea required results st :
  (∀ s t, (s, t) ∈ ea → is_Some (aliases st !! s)) →
  Forall (fun d => validate_email X d ModeNone = true ∧ is_dcv_address d = true)
         (parsed_destinations X (get_system_administrator env0)) →
  (∀ r, r ∈ required →
        r ≠ "" ∧ Py.strip (Py.lower (sanitize_idn_email_address X r)) = r
        ∧ validate_email X r ModeAlias = true) →
  let st' := (ensure_required X env0 eu ea required results st).2 in
  ∀ r, r ∈ required → r ∈ eu ∨ is_Some (aliases st' !! r).
Proof.
  intros Hea Hadm. revert results st Hea.
  induction required as [|q required IH]; intros results st Hea Hreq; simpl.
  - by intros r ?%elem_of_nil.
  - destruct (ensure_admin_alias_exists X env0 eu ea q results st) as [results1 st1] eqn:Hq.
    assert (aliases st ⊆ aliases st1 ∧ (q ∈ eu ∨ is_Some (aliases st1 !! q))) as [Hsub Hq1].
    { revert Hq. unfold ensure_admin_alias_exists.
      case_bool_decide as Hu; [intros [= _ <-]; by split; [|left]|].
      destruct (existsb _ ea) eqn:Hex.
      - intros [= _ <-]. split; [done|]. right.
        apply existsb_rows in Hex as [t Ht]. by eapply Hea.
      - intros [= _ <-]. split.
        + apply (add_mail_alias_store_keeps X q (get_system_administrator env0) st).
        + right. destruct (Hreq q) as (? & ? & ?); [by left|].
          by apply add_admin_alias_present. }
    pose proof (ensure_required_keeps X env0 eu ea required results1 st1) as [_ Hsub'].
    intros r [->|Hr]%elem_of_cons.
    + destruct Hq1 as [?|[v Hv]]; [by left|]. right. exists v.
      eapply lookup_weaken; [exact Hv | exact Hsub'].
    + apply IH; [|intros; apply Hreq; by right | done].
      intros s t Hst. destruct (Hea s t Hst) as [v Hv]. exists v.
      eapply lookup_weaken; [exact Hv | exact Hsub].
Qed.

(** X16.  On a well-formed directory, when the administrator address parses
    to valid domain-control destinations and every required address is in
    normal form and valid as an alias source, [kick] leaves every address
    that was required before the pass, the set [get_required_aliases]
    gives on the directory [kick] starts from, resolving to a user or to
    an alias. *)
Theorem kick_provides_required (env0 : env) (mail_result : option string) (st : db) :
  well_formed X st →
  Forall (fun d => validate_email X d ModeNone = true ∧ is_dcv_address d = true)
         (parsed_destinations X (get_system_administrator env0)) →
  (∀ R r, get_required_aliases X env0 st = Ret R → r ∈ R →
          Py.strip (Py.lower (sanitize_idn_email_address X r)) = r
          ∧ validate_email X r ModeAlias = true) →
  ∃ R report st',
    get_required_aliases X env0 st = Ret R
    ∧ kick X env0 mail_result st = (Ret report, st')
    ∧ ∀ r, r ∈ R → is_Some (users st' !! r) ∨ is_Some (aliases st' !! r).
Proof.
  intros Hwf Hadm Hreq.
  destruct (kick_actions_run X Hsort env0 mail_result st Hwf)
    as (R & rows & results1 & st1 & results & st' & HR & _ & Hrows & He & Hact & Hu & Ha & _).
  exists R. eexists _, st'. split; [done|].
  split; [unfold kick, mbind; by rewrite Hact|].
  intros r Hr.
  pose proof (ensure_required_present env0 (get_mail_users X env0 st) rows (elements R)
                (match mail_result with Some r => [r ++ NL] | None => [] end) st) as Hpres.
  rewrite He in Hpres. simpl in Hpres.
  destruct (Hpres) with (r := r) as [Huser|Halias]; try done.
  - intros s t Hst%Hrows. by eexists.
  - intros q Hq%elem_of_elements. destruct (Hreq R q HR Hq) as [Hn Hv].
    split; [|done]. intros ->.
    pose proof (required_aliases_nonempty env0 st R HR "" Hq). done.
  - by apply elem_of_elements.
  - left. rewrite Hu. by apply (get_mail_users_elem X Hsort) in Huser.
  - right. rewrite Ha. rewrite bool_decide_eq_false_2; [done|].
    intros ([s t] & Heq & [Hst Hf]%list_elem_of_In%filter_In)%list_elem_of_fmap.
    simpl in Heq. subst s. apply stale_row_true in Hf as (_ & Hnot & _). done.
Qed.

End KickGoals.

Section KickFixedPoint.

Context (X : collaborators) (Hsort : sort_reorders X).

Lemma ensure_required_noop env0 eu ea required results st :
  (∀ r, r ∈ required → r ∈ eu ∨ ∃ t, (r, t) ∈ ea) →
  ensure_required X env0 eu ea required results st = (results, st).
Proof.
  induction required as [|q required IH]; intros Hreq; simpl; [done|].
  unfold ensure_admin_alias_exists.
  destruct (Hreq q) as [Hu|Ha]; [by left| |].
  - rewrite (bool_decide_eq_true_2 _ Hu). apply IH. intros; apply Hreq; by right.
  - apply existsb_rows in Ha. rewrite Ha.
    destruct (bool_decide (q ∈ eu)); apply IH; intros; apply Hreq; by right.
Qed.

(** X17.  A well-formed directory in which every required address is
    already a user or an alias, and in which no [postmaster@] or [admin@]
    alias pointing to the administrator lies outside the required set, is a
    fixed point of [kick]: nothing is added or removed, the database is
    returned as it was, and the report holds only the caller's message and
    the output of the two regeneration hooks. *)
Theorem kick_fixed_point (env0 : env) (mail_result : option string) (st : db)
    (R : gset string) :
  well_formed X st →
  get_required_aliases X env0 st = Ret R →
  (∀ r, r ∈ R → is_Some (users st !! r) ∨ is_Some (aliases st !! r)) →
  (∀ s t user domain,
      aliases st !! s = Some t → Py.split "@" s = [user; domain] →
      user = "postmaster" ∨ user = "admin" →
      t = "administrator@" ++ PRIMARY_HOSTNAME env0 → s ∈ R) →
  let said := match mail_result with Some r => [r ++ NL] | None => [] end in
  kick_actions X env0 mail_result st = (Ret said, st)
  ∧ kick X env0 mail_result st
    = (Ret (Py.join "" (filter (fun s => s ≠ "")
                          (said ++ [do_dns_update X env0 st; do_web_update X env0 st])%list)),
       st).
Proof.
  intros Hwf HR Hsat Hkeep said.
  destruct (kick_actions_run X Hsort env0 mail_result st Hwf)
    as (R' & rows & results1 & st1 & results & st' & HR' & _ & Hrows & He & Hact & Hu & Ha
        & Hres).
  rewrite HR in HR'. injection HR' as <-. fold said in He.
  rewrite ensure_required_noop in He.
  2:{ intros r Hr%elem_of_elements. destruct (Hsat r Hr) as [Huser|[t Ht]].
      - left. by apply (get_mail_users_elem X Hsort).
      - right. exists t. by apply Hrows. }
  injection He as <- <-.
  assert (List.filter (stale_row env0 R) rows = []) as Hnone.
  { destruct (List.filter (stale_row env0 R) rows) as [|[s t] l] eqn:Hf; [done|].
    assert ((s, t) ∈ List.filter (stale_row env0 R) rows) as Hin by (rewrite Hf; by left).
    apply list_elem_of_In, filter_In in Hin as [Hst%list_elem_of_In%Hrows Hstale].
    apply stale_row_true in Hstale as ((user & domain & Hs & Hlp) & Hnot & ->).
    exfalso. apply Hnot. by eapply Hkeep. }
  assert (st' = st) as ->.
  { destruct st as [u a], st' as [u' a']. simpl in *. f_equal; [done|].
    apply map_eq. intros k. rewrite Ha, Hnone. done. }
  rewrite (Hres Hnone) in Hact.
  split; [done|]. unfold kick, mbind. rewrite Hact.
  by rewrite <- app_assoc.
Qed.

(** X18.  When a domain [d] is no longer served (no user on it, and no
    alias other than [postmaster@], [admin@] or catch-all ones), [kick] on a
    well-formed directory deletes the [postmaster@d] and [admin@d] aliases
    that point to the system administrator. *)
Theorem unused_domain_aliases_removed (env0 : env) (mail_result : option string)
    (st : db) (d localpart : string) :
  well_formed X st →
  ¬ served st d →
  localpart = "postmaster" ∨ localpart = "admin" →
  aliases st !! (localpart ++ "@" ++ d) = Some ("administrator@" ++ PRIMARY_HOSTNAME env0) →
  ∃ report st',
    kick X env0 mail_result st = (Ret report, st')
    ∧ aliases st' !! (localpart ++ "@" ++ d) = None.
Proof.
  intros Hwf Hunserved Hlp Hrow.
  destruct (kick_actions_spec X Hsort env0 mail_result st Hwf)
    as (R & results & st' & HR & Hact & _ & Hrows).
  eexists _, st'. split; [unfold kick, mbind; by rewrite Hact|].
  rewrite (Hrows _ _ Hrow).
  assert (stale_row env0 R (localpart ++ "@" ++ d, "administrator@" ++ PRIMARY_HOSTNAME env0)
          = true) as ->; [|done].
  apply stale_row_true.
  assert (Py.count "@" localpart = 0) as Hl0 by (by destruct Hlp as [-> | ->]).
  assert (Py.count "@" d = 0) as Hd0.
  { destruct (proj2 Hwf (localpart ++ "@" ++ d)) as [Hc _]; [by eexists|].
    rewrite !count_app, Hl0 in Hc. simpl in Hc. lia. }
  split; [|split; [|done]].
  - exists localpart, d. split; [|done].
    change ("@" ++ d) with (String "@" d). by apply split_two.
  - intros Hin.
    apply (required_elem X Hsort env0 st R (well_formed_domains X st Hwf) HR) in Hin.
    destruct Hlp as [-> | ->];
      destruct Hin as [H|[H|(d' & Hserved & [H|H])]];
      try (vm_compute in H; discriminate H).
    + apply (str_app_inv_head "postmaster@") in H. by subst d'.
    + apply (str_app_inv_head "admin@") in H. by subst d'.
Qed.

End KickFixedPoint.

Section Removal.

Context (X : collaborators) (Hsort : sort_reorders X).

(** In a well-formed directory, a [postmaster@d] or [admin@d] row pointing
    to the administrator on a domain that is not served passes the test of
    the removal loop. *)
Lemma unserved_row_is_stale env0 st R d localpart :
  well_formed X st →
  get_required_aliases X env0 st = Ret R →
  ¬ served st d →
  localpart = "postmaster" ∨ localpart = "admin" →
  is_Some (aliases st !! (localpart ++ "@" ++ d)) →
  stale_row env0 R (localpart ++ "@" ++ d, "administrator@" ++ PRIMARY_HOSTNAME env0) = true.
Proof.
  intros Hwf HR Hunserved Hlp Hrow. apply stale_row_true.
  assert (Py.count "@" localpart = 0) as Hl0 by (by destruct Hlp as [-> | ->]).
  assert (Py.count "@" d = 0) as Hd0.
  { destruct (proj2 Hwf (localpart ++ "@" ++ d) Hrow) as [Hc _].
    rewrite !count_app, Hl0 in Hc. simpl in Hc. lia. }
  split; [|split; [|done]].
  - exists localpart, d. split; [|done].
    change ("@" ++ d) with (String "@" d). by apply split_two.
  - intros Hin.
    apply (required_elem X Hsort env0 st R (well_formed_domains X st Hwf) HR) in Hin.
    destruct Hlp as [-> | ->];
      destruct Hin as [H|[H|(d' & Hserved & [H|H])]];
      try (vm_compute in H; discriminate H).
    + apply (str_app_inv_head "postmaster@") in H. by subst d'.
    + apply (str_app_inv_head "admin@") in H. by subst d'.
Qed.

(** X19.  [remove_mail_user] on an address that is not an account answers
    with a [(reason, 400)] tuple and changes nothing.  On an account of a
    well-formed directory it deletes that row only, runs the
    reconciliation and returns its report; a [postmaster@d] or [admin@d]
    alias pointing to the administrator is gone afterwards when [d] is no
    longer served once the account is deleted. *)
Theorem remove_mail_user_effect (email : string) (env0 : env) (st : db) :
  (users st !! email = None →
     remove_mail_user X email env0 st
     = (Ret (Error400 ("That's not a user (" ++ email ++ ").")), st))
  ∧ (is_Some (users st !! email) → well_formed X st →
     ∃ report st',
       remove_mail_user X email env0 st = (Ret (Text report), st')
       ∧ users st' = delete email (users st)
       ∧ ∀ d localpart,
           ¬ served (set_users st (delete email (users st))) d →
           localpart = "postmaster" ∨ localpart = "admin" →
           aliases st !! (localpart ++ "@" ++ d)
           = Some ("administrator@" ++ PRIMARY_HOSTNAME env0) →
           aliases st' !! (localpart ++ "@" ++ d) = None).
Proof.
  split.
  - intros Hnone. unfold remove_mail_user. by rewrite Hnone.
  - intros [v Hv] Hwf. unfold remove_mail_user. rewrite Hv.
    set (st0 := set_users st (delete email (users st))).
    assert (well_formed X st0) as Hwf0.
    { split; [|exact (proj2 Hwf)]. intros u [w Hu]. simpl in Hu.
      apply lookup_delete_Some in Hu as [_ Hu]. apply (proj1 Hwf). by eexists. }
    destruct (kick_actions_spec X Hsort env0 (Some "mail user removed") st0 Hwf0)
      as (R & results & st' & HR & Hact & Hu & Hrows).
    eexists _, st'. split; [unfold mbind, mret, kick, mbind; by rewrite Hact|].
    split; [done|]. intros d localpart Hunserved Hlp Hrow.
    rewrite (Hrows _ _ Hrow).
    rewrite (unserved_row_is_stale env0 st0 R d localpart); done.
Qed.

(** X20.  When [utils.sort_email_addresses] reorders its input,
    [get_mail_users] lists every account exactly once and
    [get_mail_aliases] returns, without raising, every row of [aliases]
    exactly once with its destination. *)
Theorem listings_are_complete (env0 : env) (st : db) :
  (∀ u, u ∈ get_mail_users X env0 st ↔ is_Some (users st !! u))
  ∧ NoDup (get_mail_users X env0 st)
  ∧ ∃ rows,
      get_mail_aliases X env0 st = Ret rows
      ∧ (∀ s t, (s, t) ∈ rows ↔ aliases st !! s = Some t)
      ∧ NoDup rows.*1.
Proof.
  split; [intros u; apply (get_mail_users_elem X Hsort)|]. split.
  - unfold get_mail_users. rewrite (Hsort _ env0). apply NoDup_fst_map_to_list.
  - apply (get_mail_aliases_rows X Hsort).
Qed.

End Removal.

(** ** Groups of a listing *)

Lemma append_to_group_listed {A} (d : string) (e : A) domains d' e' :
  listed (append_to_group d e domains) d' e' ↔ listed domains d' e' ∨ (d' = d ∧ e' = e).
Proof.
  unfold listed. induction domains as [|[k l] rest IH]; simpl.
  - split.
    + intros (g & Hg%list_elem_of_singleton & Hk & He). subst g. simpl in *.
      apply list_elem_of_singleton in He. by right.
    + intros [(g & ?%elem_of_nil & _)|[-> ->]]; [done|].
      exists (d, [e]). split; [by left|]. split; [done|]. by left.
  - destruct (String.eqb_spec k d) as [->|Hne].
    + split.
      * intros (g & [->|Hg]%elem_of_cons & Hk & He); simpl in *.
        -- apply elem_of_app in He as [He|He%list_elem_of_singleton].
           ++ left. exists (d, l). split; [by left|]. done.
           ++ by right.
        -- left. exists g. split; [by right|]. done.
      * intros [(g & [->|Hg]%elem_of_cons & Hk & He)|[-> ->]]; simpl in *.
        -- exists (d, (l ++ [e])%list). split; [by left|]. split; [done|].
           apply elem_of_app. by left.
        -- exists g. split; [by right|]. done.
        -- exists (d, (l ++ [e])%list). split; [by left|]. split; [done|].
           apply elem_of_app. right. by left.
    + split.
      * intros (g & [->|Hg]%elem_of_cons & Hk & He); simpl in *.
        -- left. exists (k, l). split; [by left|]. done.
        -- destruct (proj1 IH) as [(g' & Hg' & Hk' & He')|Hnew]; [by exists g| |by right].
           left. exists g'. split; [by right|]. done.
      * intros [(g & [->|Hg]%elem_of_cons & Hk & He)|Hnew]; simpl in *.
        -- exists (k, l). split; [by left|]. done.
        -- destruct (proj2 IH) as (g' & Hg' & Hk' & He'); [left; by exists g|].
           exists g'. split; [by right|]. done.
        -- destruct (proj2 IH) as (g' & Hg' & Hk' & He'); [by right|].
           exists g'. split; [by right|]. done.
Qed.

Lemma append_to_group_keys {A} (d : string) (e : A) domains :
  (append_to_group d e domains).*1
  = if bool_decide (d ∈ domains.*1) then domains.*1 else (domains.*1 ++ [d])%list.
Proof.
  induction domains as [|[k l] rest IH]; [done|].
  cbn [append_to_group]. destruct (String.eqb_spec k d) as [->|Hne].
  - rewrite !fmap_cons. cbn [fst]. rewrite bool_decide_eq_true_2; [done|by left].
  - rewrite !fmap_cons. cbn [fst]. rewrite IH.
    case_bool_decide as H1; case_bool_decide as H2; try done.
    + exfalso. apply H2. by right.
    + apply elem_of_cons in H2 as [?|?]; [congruence|done].
Qed.

Lemma append_to_group_NoDup {A} (d : string) (e : A) domains :
  NoDup domains.*1 → NoDup (append_to_group d e domains).*1.
Proof.
  intros Hnd. rewrite append_to_group_keys. case_bool_decide; [done|].
  apply NoDup_app. split; [done|]. split; [|apply NoDup_singleton].
  intros x Hx ->%list_elem_of_singleton. done.
Qed.

Lemma NoDup_keys_eq {A} (domains : list (string * list A)) g g' :
  NoDup domains.*1 → g ∈ domains → g' ∈ domains → g.1 = g'.1 → g = g'.
Proof.
  induction domains as [|h rest IH]; [by intros _ ?%elem_of_nil|].
  rewrite fmap_cons. intros [Hh Hnd]%NoDup_cons [->|Hg]%elem_of_cons [->|Hg']%elem_of_cons Hk;
    try done.
  - exfalso. apply Hh. rewrite Hk. apply list_elem_of_fmap. by exists g'.
  - exfalso. apply Hh. rewrite <- Hk. apply list_elem_of_fmap. by exists g.
  - by apply IH.
Qed.

(** Looking the groups up under a reordering of their keys gives the same
    groups. *)
Lemma lookup_groups_spec {A} (domains : list (string * list A)) keys groups :
  NoDup domains.*1 → keys ≡ₚ domains.*1 →
  lookup_groups domains keys = Ret groups →
  groups.*1 = keys ∧ ∀ g, g ∈ groups ↔ g ∈ domains.
Proof.
  intros Hnd Hperm Hrun. unfold lookup_groups in Hrun. split.
  - apply rmap_Ret in Hrun. clear -Hrun.
    induction Hrun as [|k g l r Hk HF IH]; [done|]. simpl. f_equal; [|done].
    destruct (list_find _ domains) as [[i g']|] eqn:Hf; [|done].
    injection Hk as ->. by apply list_find_Some in Hf as (_ & ? & _).
  - intros g. rewrite (rmap_elem _ _ _ Hrun). split.
    + intros (k & _ & Hk).
      destruct (list_find _ domains) as [[i g']|] eqn:Hf; [|done].
      injection Hk as ->. apply list_find_Some in Hf as (Hl & _ & _).
      by eapply list_elem_of_lookup_2.
    + intros Hg. exists g.1. split.
      * rewrite Hperm. apply list_elem_of_fmap. by exists g.
      * destruct (list_find (fun g0 => g0.1 = g.1) domains) as [[i g']|] eqn:Hf.
        -- apply list_find_Some in Hf as (Hl & Hk & _). f_equal.
           apply (NoDup_keys_eq domains); try done. by eapply list_elem_of_lookup_2.
        -- apply list_find_None in Hf. rewrite Forall_forall in Hf. by destruct (Hf g Hg).
Qed.

Lemma group_append_gen d e domains : group_append d e domains = append_to_group d e domains.
Proof. induction domains as [|[k l] rest IH]; simpl; [done|]. by rewrite IH. Qed.

Section AliasListing.

Context (X : collaborators).

Lemma group_aliases_spec R rows domains domains' :
  group_aliases X R rows domains = Ret domains' →
  (NoDup domains.*1 → NoDup domains'.*1)
  ∧ ∀ d e, listed domains' d e ↔
      listed domains d e
      ∨ ∃ s t, (s, t) ∈ rows ∧ get_domain X s true = Ret d ∧ e = alias_entry_of X R s t.
Proof.
  revert domains. induction rows as [|[s t] rows IH]; intros domains; simpl.
  - intros [= <-]. split; [done|]. intros d e. split; [by left|].
    by intros [?|(? & ? & ?%elem_of_nil & _)].
  - destruct (get_domain X s true) as [ds|] eqn:Hds; simpl; [|done].
    rewrite group_append_gen. intros Hrun. destruct (IH _ Hrun) as [Hnd Hl]. split.
    + intros H. by apply Hnd, append_to_group_NoDup.
    + intros d e. rewrite Hl, append_to_group_listed. split.
      * intros [[?|[-> ->]]|(s' & t' & Hin & Hd & He)].
        -- by left.
        -- right. exists s, t. split; [by left|]. done.
        -- right. exists s', t'. split; [by right|]. done.
      * intros [?|(s' & t' & [[= -> ->]|Hin]%elem_of_cons & Hd & He)].
        -- by left; left.
        -- left. right. split; [congruence|done].
        -- right. by exists s', t'.
Qed.

(** X21.  When both sorting helpers reorder their input, the groups
    [get_mail_aliases_ex] returns have distinct domains, and an entry is
    listed under a domain exactly when it is the entry of a row of
    [aliases] whose source decodes to that domain: its destinations are
    the comma-separated pieces of the stored destination, stripped and
    prettified, and its [required] flag tells whether the source is a
    required alias. *)
Theorem aliases_ex_lists_the_rows (env0 : env) (st : db)
    (groups : list (string * list alias_entry)) :
  sort_reorders X → domain_sort_reorders X →
  get_mail_aliases_ex X env0 st = Ret groups →
  NoDup groups.*1
  ∧ ∃ R, get_required_aliases X env0 st = Ret R
         ∧ ∀ d e, listed groups d e ↔
             ∃ s t, aliases st !! s = Some t ∧ get_domain X s true = Ret d
                    ∧ e = alias_entry_of X R s t.
Proof.
  intros Hsort Hdsort. unfold get_mail_aliases_ex.
  destruct (get_required_aliases X env0 st) as [R|]; [|done]. simpl.
  destruct (get_mail_aliases_rows X Hsort env0 st) as (rows & -> & Hrows & _). simpl.
  destruct (group_aliases X R rows []) as [domains|] eqn:Hg; [|done]. simpl.
  destruct (group_aliases_spec _ _ _ _ Hg) as [Hnd Hl].
  specialize (Hnd (NoDup_nil_2)).
  fold (lookup_groups domains (sort_domains X domains.*1 env0)).
  destruct (lookup_groups domains _) as [sorted|] eqn:Hlook; [|done]. simpl.
  destruct (lookup_groups_spec _ _ _ Hnd (Hdsort _ env0) Hlook) as [Hkeys Hsame].
  intros [= <-]. split.
  - assert ((map (fun g : string * list alias_entry => (g.1, merge_sort key_le g.2)) sorted).*1
            = sorted.*1) as ->.
    { clear. induction sorted as [|g l IH]; [done|].
      cbn [map]. rewrite !fmap_cons. cbn [fst]. by rewrite IH. }
    rewrite Hkeys, (Hdsort _ env0). done.
  - exists R. split; [done|]. intros d e.
    transitivity (listed domains d e).
    + unfold listed. split.
      * intros (g & (g0 & -> & Hg0)%list_elem_of_fmap & Hk & He). simpl in *.
        exists g0. split; [by apply Hsame|]. split; [done|].
        by rewrite merge_sort_Permutation in He.
      * intros (g & Hin & Hk & He).
        exists (g.1, merge_sort key_le g.2). split.
        -- apply list_elem_of_fmap. exists g. split; [done|]. by apply Hsame.
        -- split; [done|]. simpl. by rewrite merge_sort_Permutation.
    + rewrite Hl. split.
      * intros [(g & ?%elem_of_nil & _)|(s & t & Hin%Hrows & H)]; [done|]. by exists s, t.
      * intros (s & t & Hin%Hrows & H). right. by exists s, t.
Qed.

End AliasListing.

(** ** Users grouped by domain *)

Lemma omap_Returned {A B} (f : A → outcome B) l r :
  omap f l = Returned r ↔ Forall2 (fun x y => f x = Returned y) l r.
Proof.
  revert r. induction l as [|x l IH]; intros r; simpl.
  - split; [intros [= <-]; constructor | by intros ->%Forall2_nil_inv_l].
  - destruct (f x) as [y|e|msg] eqn:Hx; simpl.
    + destruct (omap f l) as [ys|e|msg] eqn:Hl; simpl.
      * split.
        -- intros [= <-]. constructor; [done|]. by apply IH.
        -- intros (y' & ys' & Hy & Hys & ->)%Forall2_cons_inv_l.
           apply IH in Hys. congruence.
      * split; [done|]. intros (y' & ys' & Hy & Hys & ->)%Forall2_cons_inv_l.
        apply IH in Hys. congruence.
      * split; [done|]. intros (y' & ys' & Hy & Hys & ->)%Forall2_cons_inv_l.
        apply IH in Hys. congruence.
    + split; [done|]. intros (y' & ys' & Hy & Hys & ->)%Forall2_cons_inv_l. congruence.
    + split; [done|]. intros (y' & ys' & Hy & Hys & ->)%Forall2_cons_inv_l. congruence.
Qed.

Lemma omap_elem {A B} (f : A → outcome B) l r :
  omap f l = Returned r → ∀ y, y ∈ r ↔ ∃ x, x ∈ l ∧ f x = Returned y.
Proof.
  intros HF%omap_Returned y. induction HF as [|x y' l r Hxy HF IH].
  - split; [by intros ?%elem_of_nil | by intros (? & ?%elem_of_nil & _)].
  - rewrite elem_of_cons, IH. split.
    + intros [->|(x' & ? & ?)]; [exists x | exists x']; rewrite elem_of_cons; eauto.
    + intros (x' & [->|?]%elem_of_cons & ?); [left; congruence | right; eauto].
Qed.

Lemma lookup_groups_total {A} (domains : list (string * list A)) keys :
  keys ≡ₚ domains.*1 → ∃ groups, lookup_groups domains keys = Ret groups.
Proof.
  intros Hperm. apply rmap_total. intros k Hk. rewrite Hperm in Hk.
  apply list_elem_of_fmap in Hk as (g & -> & Hg).
  destruct (list_find (fun g0 => g0.1 = g.1) domains) as [[i g']|] eqn:Hf; [by eexists|].
  apply list_find_None in Hf. rewrite Forall_forall in Hf. by destruct (Hf g Hg).
Qed.

(** The order of the sort keys of the users, spelled out. *)
Lemma user_key_le_spec a b :
  user_key_le a b ↔
  (status a = "active" ∧ status b ≠ "active")
  ∨ ((status a = "active" ↔ status b = "active")
     ∧ Py.str_le (email a) (email b) = true).
Proof.
  unfold user_key_le, user_key_leb.
  destruct (String.eqb_spec (status a) "active"), (String.eqb_spec (status b) "active");
    simpl; rewrite ?Is_true_true; split; intros H; try tauto; try done.
  all: destruct H as [[? ?]|[? ?]]; try done; tauto.
Qed.

Global Instance user_key_le_total : Total user_key_le.
Proof.
  intros a b. rewrite !user_key_le_spec.
  destruct (String.eqb_spec (status a) "active"), (String.eqb_spec (status b) "active"),
    (str_le_total (email a) (email b)); tauto.
Qed.

Global Instance user_key_le_trans : Transitive user_key_le.
Proof.
  intros a b c. rewrite !user_key_le_spec.
  intros [[? ?]|[? ?]] [[? ?]|[? ?]]; try tauto.
  right. split; [tauto|]. by eapply str_le_trans.
Qed.

Section UserListing.

Context (X : collaborators) (F : filesystem).

Lemma group_users_spec entries domains domains' :
  group_users X entries domains = Ret domains' →
  (NoDup domains.*1 → NoDup domains'.*1)
  ∧ ∀ d e, listed domains' d e ↔
      listed domains d e ∨ (e ∈ entries ∧ get_domain X (email e) true = Ret d).
Proof.
  revert domains. induction entries as [|u entries IH]; intros domains; simpl.
  - intros [= <-]. split; [done|]. intros d e. split; [by left|].
    by intros [?|[?%elem_of_nil _]].
  - destruct (get_domain X (email u) true) as [du|] eqn:Hdu; simpl; [|done].
    intros Hrun. destruct (IH _ Hrun) as [Hnd Hl]. split.
    + intros H. by apply Hnd, append_to_group_NoDup.
    + intros d e. rewrite Hl, append_to_group_listed. split.
      * intros [[?|[-> ->]]|[Hin Hd]].
        -- by left.
        -- right. split; [by left|done].
        -- right. split; [by right|done].
      * intros [?|[[->|Hin]%elem_of_cons Hd]].
        -- by left; left.
        -- left. right. split; [congruence|done].
        -- by right.
Qed.

Lemma group_users_total entries domains :
  (∀ e, e ∈ entries → ∃ d, get_domain X (email e) true = Ret d) →
  ∃ domains', group_users X entries domains = Ret domains'.
Proof.
  revert domains. induction entries as [|u entries IH]; intros domains Hd; simpl.
  - by eexists.
  - destruct (Hd u) as [d ->]; [by left|]. simpl. apply IH. intros; apply Hd; by right.
Qed.

(** The steps of [get_mail_users_ex] after the entries are collected. *)
Lemma users_ex_groups env0 entries groups :
  domain_sort_reorders X →
  obind (of_result (group_users X entries [])) (fun domains =>
  obind (of_result (lookup_groups domains (sort_domains X (domains.*1) env0)))
    (fun domains =>
  Returned (map (fun g => (g.1, merge_sort user_key_le g.2)) domains)))
  = Returned groups →
  NoDup groups.*1
  ∧ (∀ g, g ∈ groups → StronglySorted user_key_le g.2)
  ∧ ∀ d e, listed groups d e ↔ e ∈ entries ∧ get_domain X (email e) true = Ret d.
Proof.
  intros Hdsort.
  destruct (group_users X entries []) as [domains|] eqn:Hg; simpl; [|done].
  destruct (group_users_spec _ _ _ Hg) as [Hnd Hl]. specialize (Hnd (NoDup_nil_2)).
  destruct (lookup_groups domains _) as [sorted|] eqn:Hlook; simpl; [|done].
  destruct (lookup_groups_spec _ _ _ Hnd (Hdsort _ env0) Hlook) as [Hkeys Hsame].
  intros [= <-]. split; [|split].
  - assert ((map (fun g : string * list user_entry => (g.1, merge_sort user_key_le g.2))
               sorted).*1 = sorted.*1) as ->.
    { clear. induction sorted as [|g l IH]; [done|].
      cbn [map]. rewrite !fmap_cons. cbn [fst]. by rewrite IH. }
    rewrite Hkeys, (Hdsort _ env0). done.
  - intros g (g0 & -> & _)%list_elem_of_fmap. simpl.
    apply StronglySorted_merge_sort; apply _.
  - intros d e. transitivity (listed domains d e).
    + unfold listed. split.
      * intros (g & (g0 & -> & Hg0)%list_elem_of_fmap & Hk & He). simpl in *.
        exists g0. split; [by apply Hsame|]. split; [done|].
        by rewrite merge_sort_Permutation in He.
      * intros (g & Hin & Hk & He).
        exists (g.1, merge_sort user_key_le g.2). split.
        -- apply list_elem_of_fmap. exists g. split; [done|]. by apply Hsame.
        -- split; [done|]. simpl. by rewrite merge_sort_Permutation.
    + rewrite Hl. split; [|by right].
      by intros [(g & ?%elem_of_nil & _)|?].
Qed.

(** The entries of the accounts, without sizes. *)
Lemma active_users_plain env0 st :
  active_users F env0 false st
  = Returned (map (fun row : string * (string * string) =>
                     {| email := row.1; privileges := PrivList (parse_privs row.2.2);
                        status := "active"; mailbox := None; mailbox_size := None |})
                  (map_to_list (users st))).
Proof.
  unfold active_users. induction (map_to_list (users st)) as [|row rows IH]; [done|].
  simpl. simpl in IH. by rewrite IH.
Qed.

(** X22.  In every domain group returned by [get_mail_users_ex] the users
    are in ascending order of the key [(status != "active", email)]: every
    active account comes before every archived one, and accounts of the
    same kind are in lexicographic order of their address. *)
Theorem users_sorted_within_domain (env0 : env) (with_archived with_slow_info : bool)
    (st : db) (groups : list (string * list user_entry)) :
  get_mail_users_ex X F env0 with_archived with_slow_info st = Returned groups →
  ∀ g, g ∈ groups →
    StronglySorted
      (fun a b =>
         (status a = "active" ∧ status b ≠ "active")
         ∨ ((status a = "active" ↔ status b = "active")
            ∧ Py.str_le (email a) (email b) = true))
      g.2.
Proof.
  unfold get_mail_users_ex. intros Hrun g Hg.
  destruct (active_users F env0 with_slow_info st) as [active| |]; [|done|done].
  simpl in Hrun.
  destruct (if with_archived then _ else _) as [entries| |]; [|done|done]. simpl in Hrun.
  destruct (group_users X entries []) as [domains|]; [|done]. simpl in Hrun.
  destruct (lookup_groups domains _) as [sorted|]; [|done]. simpl in Hrun.
  injection Hrun as <-. apply list_elem_of_fmap in Hg as (g0 & -> & _). simpl.
  apply (StronglySorted_mono user_key_le); [intros a b; apply user_key_le_spec|].
  apply StronglySorted_merge_sort; apply _.
Qed.

(** X23.  When [utils.sort_domains] reorders its input and the domain of
    every account decodes, [get_admins] returns, and the set it returns
    holds exactly the addresses of the accounts whose privileges include
    [admin]. *)
Theorem get_admins_spec (env0 : env) (st : db) :
  domain_sort_reorders X →
  (∀ u, is_Some (users st !! u) → ∃ d, get_domain X u true = Ret d) →
  ∃ admins,
    get_admins X F env0 st = Returned admins
    ∧ ∀ u, u ∈ admins ↔ holds_admin st u.
Proof.
  intros Hdsort Hdec. unfold get_admins, get_mail_users_ex.
  rewrite active_users_plain. simpl.
  set (entries := map _ (map_to_list (users st))).
  assert (∀ e, e ∈ entries ↔
            ∃ u pw pr, users st !! u = Some (pw, pr)
                       ∧ e = {| email := u; privileges := PrivList (parse_privs pr);
                                status := "active"; mailbox := None;
                                mailbox_size := None |}) as Hentries.
  { intros e. unfold entries. rewrite list_elem_of_fmap. split.
    - intros ([u [pw pr]] & -> & Hin%elem_of_map_to_list). by exists u, pw, pr.
    - intros (u & pw & pr & Hu & ->). exists (u, (pw, pr)). split; [done|].
      by apply elem_of_map_to_list. }
  destruct (group_users_total entries []) as [domains Hg].
  { intros e (u & pw & pr & Hu & ->)%Hentries. simpl. apply Hdec. by eexists. }
  destruct (lookup_groups_total domains (sort_domains X domains.*1 env0) (Hdsort _ env0))
    as [sorted Hlook].
  destruct (users_ex_groups env0 entries
              (map (fun g => (g.1, merge_sort user_key_le g.2)) sorted) Hdsort)
    as (_ & _ & Hlisted).
  { by rewrite Hg; simpl; rewrite Hlook. }
  rewrite Hg. simpl. rewrite Hlook. simpl. eexists. split; [done|].
  intros u. rewrite elem_of_list_to_set, list_elem_of_fmap. split.
  - intros (e & -> & [Hin Hadm]%list_elem_of_In%filter_In).
    apply in_flat_map in Hin as (g & Hg0%list_elem_of_In & He%list_elem_of_In).
    destruct (proj1 (Hlisted g.1 e)) as [Hent _]; [by exists g|].
    apply Hentries in Hent as (u & pw & pr & Hu & ->). simpl in *.
    exists pw, pr. split; [done|]. by apply bool_decide_eq_true in Hadm.
  - intros (pw & pr & Hu & Hadm).
    set (e := {| email := u; privileges := PrivList (parse_privs pr); status := "active";
                 mailbox := None; mailbox_size := None |}).
    exists e. split; [done|]. apply list_elem_of_In, filter_In. split.
    + destruct (Hdec u) as [d Hd]; [by eexists|].
      destruct (proj2 (Hlisted d e)) as (g & Hg0 & _ & He).
      { split; [|done]. apply Hentries. by exists u, pw, pr. }
      apply in_flat_map. exists g. split; by apply list_elem_of_In.
    + simpl. by apply bool_decide_eq_true.
Qed.

End UserListing.

Section UserEntries.

Context (X : collaborators) (F : filesystem).

(** An entry of an account of the database. *)
Definition active_entry (st : db) (with_slow_info : bool) (e : user_entry) : Prop :=
  status e = "active" ∧ mailbox e = None
  ∧ (∃ pw pr, users st !! email e = Some (pw, pr)
              ∧ privileges e = PrivList (parse_privs pr))
  ∧ (is_Some (mailbox_size e) ↔ with_slow_info = true).

(** An entry of a mailbox directory that belongs to no account. *)
Definition archived_entry (st : db) (with_slow_info : bool) (e : user_entry) : Prop :=
  status e = "inactive" ∧ privileges e = PrivText "" ∧ is_Some (mailbox e)
  ∧ users st !! email e = None
  ∧ (is_Some (mailbox_size e) ↔ with_slow_info = true).

Lemma active_users_entries env0 with_slow_info st active :
  active_users F env0 with_slow_info st = Returned active →
  (∀ e, e ∈ active → active_entry st with_slow_info e)
  ∧ (∀ u, is_Some (users st !! u) → ∃ e, e ∈ active ∧ email e = u).
Proof.
  unfold active_users. intros Hrun. split.
  - intros e He. apply (omap_elem _ _ _ Hrun) in He as ([u [pw pr]] & Hin & Hf).
    apply elem_of_map_to_list in Hin. simpl in Hf. destruct with_slow_info.
    + destruct (du F _) as [size|]; simpl in Hf; [|done]. injection Hf as <-.
      split; [done|]. split; [done|]. split; [by exists pw, pr|]. simpl.
      split; [done | by eexists].
    + injection Hf as <-.
      split; [done|]. split; [done|]. split; [by exists pw, pr|]. simpl.
      split; [by intros [? ?] | done].
  - intros u [[pw pr] Hu]. apply elem_of_map_to_list in Hu.
    apply omap_Returned in Hrun.
    apply list_elem_of_lookup in Hu as [i Hi].
    destruct (Forall2_lookup_l _ _ _ _ _ Hrun Hi) as (e & He & Hf).
    exists e. split; [by eapply list_elem_of_lookup_2|].
    simpl in Hf. destruct with_slow_info.
    + destruct (du F _) as [size|]; simpl in Hf; [|done]. by injection Hf as <-.
    + by injection Hf as <-.
Qed.

Lemma archived_users_entries env0 with_slow_info st archived :
  archived_users F env0 with_slow_info st = Returned archived →
  ∀ e, e ∈ archived → archived_entry st with_slow_info e.
Proof.
  unfold archived_users.
  destruct (listdir F _) as [msg|domains]; [done|].
  destruct (omap _ domains) as [found| |] eqn:Hfound; simpl; [|done|done].
  intros [= <-] e He.
  apply list_elem_of_In, in_concat in He as (l & Hl%list_elem_of_In & He%list_elem_of_In).
  apply (omap_elem _ _ _ Hfound) in Hl as (domain & _ & Hdom).
  unfold archived_in_domain in Hdom.
  destruct (listdir F _) as [msg|names]; [done|].
  destruct (omap _ names) as [found'| |] eqn:Hfound'; simpl in Hdom; [|done|done].
  injection Hdom as <-.
  apply list_elem_of_In, in_concat in He as (l' & Hl'%list_elem_of_In & He%list_elem_of_In).
  apply (omap_elem _ _ _ Hfound') in Hl' as (user & _ & Huser).
  simpl in Huser. case_bool_decide as Hactive.
  { injection Huser as <-. by apply elem_of_nil in He. }
  assert (users st !! (user ++ "@" ++ domain) = None) as Hnone.
  { destruct (users st !! (user ++ "@" ++ domain)) eqn:Hl; [|done].
    exfalso. apply Hactive. by eexists. }
  destruct with_slow_info.
  - destruct (du F _) as [size|]; simpl in Huser; [|done]. injection Huser as <-.
    apply list_elem_of_singleton in He as ->.
    split; [done|]. split; [done|]. split; [by eexists|]. split; [done|]. simpl.
    split; [done | by eexists].
  - injection Huser as <-. apply list_elem_of_singleton in He as ->.
    split; [done|]. split; [done|]. split; [by eexists|]. split; [done|]. simpl.
    split; [by intros [? ?] | done].
Qed.

(** X24.  When [utils.sort_domains] reorders its input, the groups
    [get_mail_users_ex] returns have distinct domains; every entry is
    listed under the decoded domain of its address and is either an
    account of the database, with status [active] and its parsed
    privileges, or (only with [with_archived]) a mailbox directory of no
    account, with status [inactive], privileges [""] and its mailbox
    path.  [mailbox_size] is set exactly with [with_slow_info], and every
    account of the database is listed. *)
Theorem users_ex_lists_the_accounts (env0 : env) (with_archived with_slow_info : bool)
    (st : db) (groups : list (string * list user_entry)) :
  domain_sort_reorders X →
  get_mail_users_ex X F env0 with_archived with_slow_info st = Returned groups →
  NoDup groups.*1
  ∧ (∀ d e, listed groups d e →
       get_domain X (email e) true = Ret d
       ∧ (active_entry st with_slow_info e
          ∨ (with_archived = true ∧ archived_entry st with_slow_info e)))
  ∧ (∀ u, is_Some (users st !! u) →
       ∃ d e, listed groups d e ∧ email e = u ∧ status e = "active").
Proof.
  intros Hdsort. unfold get_mail_users_ex.
  destruct (active_users F env0 with_slow_info st) as [active| |] eqn:Hact;
    simpl; [|done|done].
  destruct (active_users_entries _ _ _ _ Hact) as [Hactive Hall].
  set (collected := if with_archived then _ else _).
  destruct collected as [entries| |] eqn:Hcol; simpl; [|done|done].
  assert ((∀ e, e ∈ entries →
             active_entry st with_slow_info e
             ∨ (with_archived = true ∧ archived_entry st with_slow_info e))
          ∧ ∀ e, e ∈ active → e ∈ entries) as [Hsound Hsub].
  { unfold collected in Hcol. destruct with_archived.
    - destruct (archived_users F env0 with_slow_info st) as [archived| |] eqn:Harch;
        simpl in Hcol; [|done|done].
      injection Hcol as <-. split.
      + intros e [He|He]%elem_of_app; [left; by apply Hactive|].
        right. split; [done|]. by eapply archived_users_entries.
      + intros e He. apply elem_of_app. by left.
    - injection Hcol as <-. split; [|done]. intros e He. left. by apply Hactive. }
  intros Hrun.
  destruct (users_ex_groups X env0 entries groups Hdsort Hrun) as (Hnd & _ & Hlisted).
  split; [done|]. split.
  - intros d e [He Hd]%Hlisted. split; [done|]. by apply Hsound.
  - intros u Hu. destruct (Hall u Hu) as (e & He & Heq).
    destruct (Hactive e He) as (Hstatus & _).
    assert (∃ d, get_domain X (email e) true = Ret d) as [d Hd].
    { revert Hrun. destruct (group_users X entries []) as [domains|] eqn:Hg; [|done].
      intros _. apply Hsub in He. clear -Hg He. revert domains Hg.
      generalize (@nil (string * list user_entry)).
      induction entries as [|x entries IH]; intros doms domains Hg;
        [by apply elem_of_nil in He|].
      simpl in Hg. destruct (get_domain X (email x) true) as [dx|] eqn:Hdx; [|done].
      apply elem_of_cons in He as [->|He]; [by eexists|]. by eapply IH. }
    exists d, e. split; [|done]. apply Hlisted. split; [by apply Hsub | done].
Qed.

End UserEntries.

(** ** Passwords and new accounts *)

Lemma lstrip_no_space s : Py.any_char Py.is_space s = false → Py.lstrip s = s.
Proof. destruct s as [|a s]; simpl; [done|]. by intros [-> _]%orb_false_iff. Qed.

(** X25.  [validate_password] accepts a password exactly when it holds no
    whitespace character and is at least four characters long; the test
    for a blank password only decides which message is raised.  A blank
    password raises "No password provided."; otherwise one with
    whitespace raises "Passwords cannot contain spaces."; otherwise a
    short one raises "Passwords must be at least four characters.". *)
Theorem validate_password_accepts (pw : string) :
  (validate_password pw = Ret tt ↔
     Py.any_char Py.is_space pw = false ∧ (4 ≤ String.length pw)%nat)
  ∧ (Py.strip pw = "" →
       validate_password pw = Raise (ValueError "No password provided."))
  ∧ (Py.strip pw ≠ "" → Py.any_char Py.is_space pw = true →
       validate_password pw = Raise (ValueError "Passwords cannot contain spaces."))
  ∧ (Py.any_char Py.is_space pw = false → (0 < String.length pw < 4)%nat →
       validate_password pw
       = Raise (ValueError "Passwords must be at least four characters.")).
Proof.
  assert (Py.any_char Py.is_space pw = false → pw ≠ "" → Py.strip pw ≠ "") as Hstrip.
  { intros Hns Hne. unfold Py.strip. rewrite (lstrip_no_space _ Hns).
    destruct pw as [|a s]; [done|]. simpl in Hns. apply orb_false_iff in Hns as [Ha _].
    by apply rstrip_nonempty. }
  unfold validate_password. split; [|split; [|split]].
  - destruct (String.eqb_spec (Py.strip pw) "") as [Hblank|Hblank].
    + split; [done|]. intros [Hns Hlen]. exfalso. apply (Hstrip Hns); [|done].
      intros ->. simpl in Hlen. lia.
    + destruct (Py.any_char Py.is_space pw); [split; [done|by intros [? _]]|].
      destruct (Nat.ltb_spec (String.length pw) 4); split; try done.
      intros [_ ?]. lia.
  - intros ->. done.
  - intros Hblank ->. by destruct (String.eqb_spec (Py.strip pw) "").
  - intros Hns Hlen.
    destruct (String.eqb_spec (Py.strip pw) "") as [Hblank|Hblank].
    + exfalso. apply (Hstrip Hns); [|done]. intros ->. simpl in Hlen. lia.
    + rewrite Hns. destruct (Nat.ltb_spec (String.length pw) 4); [done|lia].
Qed.

Lemma check_privs_valid privs ps :
  check_privs privs = inr ps → Forall (fun p => validate_privilege p = None) ps.
Proof.
  unfold check_privs. destruct privs as [text|]; [|by intros [= <-]].
  destruct (String.eqb (Py.strip text) ""); [by intros [= <-]|].
  destruct (list_find _ (Py.split "010" text)) as [[i p]|] eqn:Hf.
  - apply list_find_Some in Hf as (_ & [v Hv] & _). by rewrite Hv.
  - intros [= <-]. apply list_find_None in Hf.
    eapply Forall_impl; [exact Hf|]. intros p Hp. simpl in Hp.
    destruct (validate_privilege p); [|done]. exfalso. apply Hp. by eexists.
Qed.

Section NewAccount.

Context (X : collaborators) (Hsort : sort_reorders X).

(** X26.  When an address passes the address checks of [add_mail_user]
    (and is not a domain-control address unless no user exists yet), the
    password and the privileges are accepted, the address is not an
    account yet and the [doveadm] calls succeed, then on a well-formed
    directory [add_mail_user] returns the report of the reconciliation
    and the account can be read back: [get_mail_password] gives the hashed
    password, [get_mail_user_privileges] gives the privileges in the
    order given, and the other accounts are as before. *)
Theorem add_mail_user_creates_account (email pw : string) (privs : option string)
    (env0 : env) (st : db) (ps : list string) (h out : string) :
  Py.strip email ≠ "" →
  validate_email X email ModeNone = true →
  validate_email X email ModeUser = true →
  (is_dcv_address email = true → users st = ∅) →
  ¬ invalid_password pw →
  check_privs privs = inr ps →
  hash_password X pw = Ret h →
  users st !! email = None →
  doveadm_mailbox_list X email = inl out →
  create_folders X email (Py.split "010" out) ["INBOX"; "Trash"; "Spam"; "Drafts"]
  = Ret tt →
  (1 ≤ Py.count "@" email)%nat →
  well_formed X st →
  ∃ report st',
    add_mail_user X email pw privs env0 st = (Ret (Text report), st')
    ∧ get_mail_password email env0 st' = Ret h
    ∧ get_mail_user_privileges email false st' = inr ps
    ∧ ∀ other, other ≠ email → users st' !! other = users st !! other.
Proof.
  intros Hne Hv Hvu Hdcv Hpw Hps Hh Hfresh Hlist Hcreate Hat Hwf.
  unfold add_mail_user.
  destruct (String.eqb_spec (Py.strip email) ""); [done|].
  rewrite Hv, Hvu. cbn [negb].
  assert ((is_dcv_address email && (0 <? length (get_mail_users X env0 st))%nat) = false)
    as ->.
  { destruct (is_dcv_address email); [|done]. simpl.
    rewrite (get_mail_users_length X Hsort), (Hdcv eq_refl), map_size_empty. done. }
  rewrite (validate_password_valid pw Hpw), Hps, Hh, Hfresh, Hlist, Hcreate.
  set (st1 := set_users st _).
  destruct (kick_returns X Hsort env0 (Some "mail user added") st1)
    as (report & st' & Hk & Hu).
  { split.
    - intros u [v Hu]. unfold st1 in Hu. simpl in Hu.
      apply lookup_insert_Some in Hu as [[<- _]|[_ Hu]]; [by apply split1_domain|].
      apply (proj1 Hwf). by eexists.
    - exact (proj2 Hwf). }
  exists report, st'. unfold mbind. rewrite Hk. split; [done|].
  unfold get_mail_password, get_mail_user_privileges. rewrite Hu. unfold st1. simpl.
  rewrite lookup_insert_eq, (parse_privs_join _ (check_privs_valid _ _ Hps)).
  split; [done|]. split; [done|]. intros other Hother. by rewrite lookup_insert_ne.
Qed.

End NewAccount.

(** * The further properties at concrete inputs *)

(** Variants of the reference collaborators in which [doveadm] fails. *)
Module Failing.

(** [doveadm mailbox list] exits with an error. *)
Definition no_list : collaborators := {|
  validate_email_ := Sample.validator;
  idna_encode := Sample.encode;
  idna_decode := Sample.decode;
  sort_email_addresses := Sample.str_sort;
  sort_domains := Sample.str_sort;
  hash_password_ := fun pw => Ret ("{SHA512-CRYPT}" ++ pw);
  doveadm_mailbox_list := fun _ => inr "doveadm: Error: user not found";
  doveadm_mailbox_create := fun _ _ => true;
  do_dns_update := fun _ _ => "";
  do_web_update := fun _ _ => ""
|}.

(** [doveadm mailbox create] exits with an error. *)
Definition no_create : collaborators := {|
  validate_email_ := Sample.validator;
  idna_encode := Sample.encode;
  idna_decode := Sample.decode;
  sort_email_addresses := Sample.str_sort;
  sort_domains := Sample.str_sort;
  hash_password_ := fun pw => Ret ("{SHA512-CRYPT}" ++ pw);
  doveadm_mailbox_list := fun _ => inl "";
  doveadm_mailbox_create := fun _ _ => false;
  do_dns_update := fun _ _ => "";
  do_web_update := fun _ _ => ""
|}.

(** A directory that reconciliation has nothing to do on. *)
Definition settled : db :=
  {| users := {[ "me@box.example.com" := ("{SHA512-CRYPT}secret", "admin") ]};
     aliases := {[ "administrator@box.example.com" := "me@box.example.com";
                   "hostmaster@box.example.com" := "administrator@box.example.com";
                   "postmaster@box.example.com" := "administrator@box.example.com";
                   "admin@box.example.com" := "administrator@box.example.com" ]} |}.

End Failing.

Section ConcreteMore.

Import Sample.

Lemma user_mode_address_witness :
  validate_email collab "name@x.tld" ModeNone = true
  ∧ (String.length "name@x.tld" ≤ 255)%nat
  ∧ Py.all_chars user_char "name@x.tld" = true
  ∧ Py.lower "name@x.tld" = "name@x.tld"
  ∧ Py.all_chars Py.is_ascii "name@x.tld" = true
  ∧ Py.count "+" "name@x.tld" = 0
  ∧ Py.count "/" "name@x.tld" = 0
  ∧ Py.any_char Py.is_space "name@x.tld" = false.
Proof. apply (user_mode_address collab "name@x.tld"). reflexivity. Defined.

Lemma is_dcv_address_spec_witness : is_dcv_address "Admin+tag@x.tld" = true.
Proof.
  apply (proj2 (proj2 (is_dcv_address_spec "Admin+tag@x.tld"))).
  exists "admin", "tag@x.tld". split; [|by right].
  unfold dcv_localparts. by left.
Defined.

Lemma get_domain_cuts_at_first_at_witness :
  get_domain collab "no-at-sign" true = Raise IndexError
  ∧ get_domain collab ("a" ++ "@" ++ "b@c") false = Ret "b@c".
Proof.
  split.
  - apply (proj1 (get_domain_cuts_at_first_at collab)). reflexivity.
  - apply (proj2 (get_domain_cuts_at_first_at collab) "a" "b@c"). reflexivity.
Defined.

Lemma privileges_roundtrip_witness :
  parse_privs (Py.join NL ["admin"; "staff"]) = ["admin"; "staff"].
Proof.
  apply (proj1 (privileges_roundtrip ["admin"; "staff"] "")).
  repeat constructor.
Defined.

Lemma privilege_add_witness :
  ∃ st',
    add_remove_mail_user_privilege "me@example.com" "staff" "add" box one_user
    = (Ret (Text "OK"), st')
    ∧ get_mail_user_privileges "me@example.com" false st' = inr ["admin"; "staff"].
Proof.
  destruct (privilege_add "me@example.com" "staff" box one_user
              "{SHA512-CRYPT}secret" "admin" eq_refl eq_refl)
    as (st' & Hrun & Hprivs & _).
  exists st'. split; [exact Hrun | exact Hprivs].
Defined.

Lemma privilege_remove_witness :
  ∃ st',
    add_remove_mail_user_privilege "me@example.com" "admin" "remove" box one_user
    = (Ret (Text "OK"), st')
    ∧ get_mail_user_privileges "me@example.com" false st' = inr [].
Proof.
  destruct (privilege_remove "me@example.com" "admin" box one_user
              "{SHA512-CRYPT}secret" "admin" eq_refl eq_refl)
    as (st' & Hrun & Hprivs & _).
  exists st'. split; [exact Hrun | exact Hprivs].
Defined.

Lemma privilege_errors_witness :
  add_remove_mail_user_privilege "me@example.com" "admin" "toggle" box one_user
  = (Ret (Error400 "Invalid action."), one_user)
  ∧ add_remove_mail_user_privilege "nobody@example.com" "admin" "add" box one_user
    = (Ret (Error400 "That's not a user (nobody@example.com)."), one_user)
  ∧ ∃ reason,
      add_remove_mail_user_privilege "nobody@example.com" nbsp "add" box one_user
      = (Ret (Error400 reason), one_user).
Proof.
  split; [|split].
  - apply (proj2 (proj2 (proj2 (privilege_errors "me@example.com" "admin" "toggle" box
                                  one_user)))); done.
  - by apply (proj1 (proj2 (proj2 (privilege_errors "nobody@example.com" "admin" "add" box
                                     one_user)))).
  - apply (proj1 (proj2 (privilege_errors "nobody@example.com" nbsp "add" box one_user))).
    vm_compute. discriminate.
Defined.

Lemma password_roundtrip_witness :
  ∃ st',
    set_mail_password collab "me@example.com" "hunter22" box one_user
    = (Ret (Text "OK"), st')
    ∧ get_mail_password "me@example.com" box st' = Ret "{SHA512-CRYPT}hunter22".
Proof.
  assert (¬ invalid_password "hunter22") as Hpw.
  { intros [H|[H|H]]; vm_compute in H; [discriminate|discriminate|lia]. }
  destruct (proj1 (password_roundtrip collab "me@example.com" "hunter22" box one_user
                     "{SHA512-CRYPT}hunter22" Hpw eq_refl)
              "{SHA512-CRYPT}secret" "admin" eq_refl)
    as (st' & Hrun & Hget & _).
  exists st'. split; [exact Hrun | exact Hget].
Defined.

Lemma add_mail_user_error_keeps_db_witness :
  (add_mail_user Failing.no_list "new@example.com" "secret" None box one_user).2 = one_user.
Proof.
  apply (add_mail_user_error_keeps_db Failing.no_list "new@example.com" "secret" None box
           one_user _ "Failed to initialize the user: doveadm: Error: user not found").
  vm_compute. reflexivity.
Defined.

Lemma add_mail_user_folder_failure_witness :
  add_mail_user Failing.no_create "new@example.com" "secret" None box empty_db
  = (Raise (CalledProcessError ""),
     set_users empty_db (<["new@example.com" := ("{SHA512-CRYPT}secret", Py.join NL [])]> ∅)).
Proof.
  apply (add_mail_user_folder_failure Failing.no_create "new@example.com" "secret" None box
           empty_db [] "{SHA512-CRYPT}secret" "" (CalledProcessError "")); try reflexivity.
  - intros [H|[H|H]]; vm_compute in H; [discriminate|discriminate|lia].
  - vm_compute. discriminate.
Defined.

Lemma add_mail_alias_effect_witness :
  (add_mail_alias collab "" "a@x.tld" box false true one_user).2 = one_user.
Proof.
  apply (proj1 (add_mail_alias_effect collab "" "a@x.tld" box false one_user) true
           "No incoming email address provided.").
  vm_compute. reflexivity.
Defined.

Lemma update_if_exists_effect_witness :
  add_mail_alias collab "new@x.tld" "a@x.tld, b@x.tld" box false false two_aliases
  = add_mail_alias collab "new@x.tld" "a@x.tld, b@x.tld" box true false two_aliases
  ∧ add_mail_alias collab (nbsp ++ "Sales@box.example.com") "carol@example.com" box true
      false two_aliases
    = (Ret PyNone,
       {| users := ∅;
          aliases := <["sales@box.example.com" := "carol@example.com"]>
                       (aliases two_aliases) |})
  ∧ add_mail_alias collab (nbsp ++ "Sales@box.example.com") "carol@example.com" box false
      false two_aliases
    = (Ret (Error400 "Alias already exists (sales@box.example.com)."), two_aliases).
Proof.
  assert (add_mail_alias collab (nbsp ++ "Sales@box.example.com") "carol@example.com" box
            true false two_aliases
          = (Ret PyNone,
             {| users := ∅;
                aliases := <["sales@box.example.com" := "carol@example.com"]>
                             (aliases two_aliases) |})) as Hrun
    by (vm_compute; reflexivity).
  split; [|split; [exact Hrun|]].
  - apply (proj1 (update_if_exists_effect collab "new@x.tld" "a@x.tld, b@x.tld" box
                    two_aliases)).
    vm_compute. reflexivity.
  - apply (proj2 (update_if_exists_effect collab (nbsp ++ "Sales@box.example.com")
                    "carol@example.com" box two_aliases)
             (ex_intro _ "bob@example.com" eq_refl) _ Hrun).
Defined.

Lemma alias_add_remove_roundtrip_witness :
  remove_mail_alias collab "sales@x.tld" box false
    (add_mail_alias collab "Sales@x.tld" "a@x.tld, b@x.tld" box false false one_user).2
  = (Ret PyNone, one_user).
Proof.
  apply (proj2 (alias_add_remove_roundtrip collab "sales@x.tld" box one_user)
           "Sales@x.tld" "a@x.tld, b@x.tld" false).
  - vm_compute. reflexivity.
  - reflexivity.
  - reflexivity.
Defined.

Lemma one_user_well_formed : well_formed collab one_user.
Proof.
  split.
  - apply one_user_domains.
  - intros a [v Ha]; simpl in Ha; by rewrite lookup_empty in Ha.
Qed.

Lemma one_user_required :
  get_required_aliases collab box one_user
  = Ret ({[ "administrator@box.example.com" ]} ∪ {[ "hostmaster@box.example.com" ]}
         ∪ {[ "postmaster@example.com" ]} ∪ {[ "admin@example.com" ]}).
Proof. vm_compute. reflexivity. Qed.

Lemma settled_well_formed : well_formed collab Failing.settled.
Proof.
  split.
  - intros u [v Hu]. simpl in Hu. apply lookup_singleton_Some in Hu as [<- _].
    exists "box.example.com". reflexivity.
  - assert (map_Forall (fun s (_ : string) =>
              Py.count "@" s = 1 ∧ sanitize_idn_email_address collab s = s)
              (aliases Failing.settled)) as HF
      by (apply (bool_decide_unpack _); vm_compute; exact I).
    intros s [v Hs]. exact (HF s v Hs).
Qed.

Lemma settled_required :
  get_required_aliases collab box Failing.settled
  = Ret ({[ "administrator@box.example.com" ]} ∪ {[ "hostmaster@box.example.com" ]}
         ∪ {[ "postmaster@box.example.com" ]} ∪ {[ "admin@box.example.com" ]}).
Proof. vm_compute. reflexivity. Qed.

Lemma kick_frame_witness :
  ∃ report st',
    kick collab box None stale_db = (Ret report, st')
    ∧ users st' = users stale_db
    ∧ ∀ k v, aliases st' !! k = Some v →
        aliases stale_db !! k = Some v
        ∨ (aliases stale_db !! k = None
           ∧ (v = sanitize_idn_email_address collab (Py.strip (get_system_administrator box))
              ∨ v = Py.join "," (parsed_destinations collab (get_system_administrator box)))).
Proof.
  apply (kick_frame collab sample_sort_reorders box None stale_db stale_db_well_formed).
Defined.

Lemma required_aliases_are_dcv_witness :
  get_required_aliases collab box one_user
  = Ret ({[ "administrator@box.example.com" ]} ∪ {[ "hostmaster@box.example.com" ]}
         ∪ {[ "postmaster@example.com" ]} ∪ {[ "admin@example.com" ]})
  ∧ is_dcv_address "postmaster@example.com" = true
  ∧ is_dcv_address "hostmaster@box.example.com" = true.
Proof.
  split; [exact one_user_required|].
  split;
    apply (required_aliases_are_dcv collab box one_user _ one_user_required);
    set_solver.
Defined.

Lemma kick_provides_required_witness :
  ∃ R report st',
    get_required_aliases collab box one_user = Ret R
    ∧ kick collab box None one_user = (Ret report, st')
    ∧ ∀ r, r ∈ R → is_Some (users st' !! r) ∨ is_Some (aliases st' !! r).
Proof.
  apply (kick_provides_required collab sample_sort_reorders box None one_user
           one_user_well_formed).
  - replace (parsed_destinations collab (get_system_administrator box))
      with ["administrator@box.example.com"] by (vm_compute; reflexivity).
    repeat constructor.
  - intros R r HR Hr. rewrite one_user_required in HR. injection HR as <-.
    rewrite !elem_of_union, !elem_of_singleton in Hr.
    destruct Hr as [[[-> | ->] | ->] | ->]; split; vm_compute; reflexivity.
Defined.

Lemma kick_fixed_point_witness :
  kick_actions collab box None Failing.settled = (Ret [], Failing.settled)
  ∧ kick collab box None Failing.settled
    = (Ret (Py.join "" (filter (fun s => s ≠ "")
                          ([] ++ [do_dns_update collab box Failing.settled;
                                  do_web_update collab box Failing.settled])%list)),
       Failing.settled).
Proof.
  apply (kick_fixed_point collab sample_sort_reorders box None Failing.settled _
           settled_well_formed settled_required).
  - intros r Hr. rewrite !elem_of_union, !elem_of_singleton in Hr.
    destruct Hr as [[[-> | ->] | ->] | ->]; right; vm_compute; by eexists.
  - assert (map_Forall (fun s (_ : string) =>
              s ∈ ({[ "administrator@box.example.com" ]}
                   ∪ {[ "hostmaster@box.example.com" ]}
                   ∪ {[ "postmaster@box.example.com" ]}
                   ∪ {[ "admin@box.example.com" ]} : gset string))
              (aliases Failing.settled)) as HF
      by (apply (bool_decide_unpack _); vm_compute; exact I).
    intros s t user domain Hs _ _ _. exact (HF s t Hs).
Defined.

Lemma unused_domain_aliases_removed_witness :
  ∃ report st',
    kick collab box None stale_db = (Ret report, st')
    ∧ aliases st' !! ("postmaster" ++ "@" ++ "foo.tld") = None.
Proof.
  apply (unused_domain_aliases_removed collab sample_sort_reorders box None stale_db
           "foo.tld" "postmaster" stale_db_well_formed).
  - intros [(u & [v Hu] & _)|(s & [v Hs] & H1 & _)].
    + simpl in Hu. by rewrite lookup_empty in Hu.
    + simpl in Hs. apply lookup_singleton_Some in Hs as [<- _].
      vm_compute in H1. discriminate H1.
  - by left.
  - reflexivity.
Defined.

End ConcreteMore.


(** A mailbox store with one domain directory holding the mailbox of the
    account [me@example.com] and the leftover mailbox of [old@example.com]. *)
Module Disk.

Definition root : string := "/home/user-data/mail/mailboxes".

Definition fs : filesystem := {|
  listdir := fun path =>
    if String.eqb path root then inr ["example.com"]
    else if String.eqb path (root ++ "/example.com") then inr ["me"; "old"]
    else inl ("No such file or directory: " ++ path);
  du := fun _ => Ret 4096%Z
|}.

End Disk.

Section ConcreteReaders.

Import Sample.

Lemma sample_domain_sort_reorders : domain_sort_reorders collab.
Proof. intros l env0. apply merge_sort_Permutation. Qed.

Lemma one_user_decodes :
  ∀ u, is_Some (users one_user !! u) → ∃ d, get_domain collab u true = Ret d.
Proof.
  intros u [v Hu]. simpl in Hu. apply lookup_singleton_Some in Hu as [<- _].
  exists "example.com". reflexivity.
Qed.

Lemma remove_mail_user_effect_witness :
  remove_mail_user collab "nobody@example.com" box one_user
  = (Ret (Error400 "That's not a user (nobody@example.com)."), one_user)
  ∧ ∃ report st',
      remove_mail_user collab "me@example.com" box one_user = (Ret (Text report), st')
      ∧ users st' = delete "me@example.com" (users one_user).
Proof.
  split.
  - by apply (proj1 (remove_mail_user_effect collab sample_sort_reorders
                       "nobody@example.com" box one_user)).
  - destruct (proj2 (remove_mail_user_effect collab sample_sort_reorders
                       "me@example.com" box one_user))
      as (report & st' & Hrun & Hu & _); [by eexists | exact one_user_well_formed |].
    exists report, st'. split; [exact Hrun | exact Hu].
Defined.

Lemma listings_are_complete_witness :
  (∀ u, u ∈ get_mail_users collab box one_user ↔ is_Some (users one_user !! u))
  ∧ NoDup (get_mail_users collab box one_user)
  ∧ ∃ rows,
      get_mail_aliases collab box one_user = Ret rows
      ∧ (∀ s t, (s, t) ∈ rows ↔ aliases one_user !! s = Some t)
      ∧ NoDup rows.*1.
Proof. apply (listings_are_complete collab sample_sort_reorders box one_user). Defined.

Lemma aliases_ex_lists_the_rows_witness :
  ∃ groups,
    get_mail_aliases_ex collab box two_aliases = Ret groups
    ∧ NoDup groups.*1
    ∧ ∃ R, get_required_aliases collab box two_aliases = Ret R
           ∧ ∀ d e, listed groups d e ↔
               ∃ s t, aliases two_aliases !! s = Some t ∧ get_domain collab s true = Ret d
                      ∧ e = alias_entry_of collab R s t.
Proof.
  eexists. split; [exact optional_alias_listed_first_run|].
  apply (aliases_ex_lists_the_rows collab box two_aliases _ sample_sort_reorders
           sample_domain_sort_reorders optional_alias_listed_first_run).
Defined.

(** [get_mail_users_ex] with archived accounts on the directory [one_user]. *)
Lemma one_user_with_archived :
  get_mail_users_ex collab Disk.fs box true false one_user
  = Returned
      [("example.com",
        [ {| email := "me@example.com"; privileges := PrivList ["admin"];
             status := "active"; mailbox := None; mailbox_size := None |};
          {| email := "old@example.com"; privileges := PrivText "";
             status := "inactive";
             mailbox := Some "/home/user-data/mail/mailboxes/example.com/old";
             mailbox_size := None |} ])].
Proof. vm_compute. reflexivity. Qed.

Lemma users_sorted_within_domain_witness :
  ∃ groups,
    get_mail_users_ex collab Disk.fs box true false one_user = Returned groups
    ∧ ∀ g, g ∈ groups →
        StronglySorted
          (fun a b =>
             (status a = "active" ∧ status b ≠ "active")
             ∨ ((status a = "active" ↔ status b = "active")
                ∧ Py.str_le (email a) (email b) = true))
          g.2.
Proof.
  eexists. split; [exact one_user_with_archived|].
  apply (users_sorted_within_domain collab Disk.fs box true false one_user _
           one_user_with_archived).
Defined.

Lemma get_admins_spec_witness :
  ∃ admins,
    get_admins collab Disk.fs box one_user = Returned admins
    ∧ ∀ u, u ∈ admins ↔ holds_admin one_user u.
Proof.
  apply (get_admins_spec collab Disk.fs box one_user sample_domain_sort_reorders
           one_user_decodes).
Defined.

Lemma users_ex_lists_the_accounts_witness :
  ∃ groups,
    get_mail_users_ex collab Disk.fs box true false one_user = Returned groups
    ∧ NoDup groups.*1
    ∧ (∀ d e, listed groups d e →
         get_domain collab (email e) true = Ret d
         ∧ (active_entry one_user false e
            ∨ (true = true ∧ archived_entry one_user false e)))
    ∧ (∀ u, is_Some (users one_user !! u) →
         ∃ d e, listed groups d e ∧ email e = u ∧ status e = "active").
Proof.
  eexists. split; [exact one_user_with_archived|].
  apply (users_ex_lists_the_accounts collab Disk.fs box true false one_user _
           sample_domain_sort_reorders one_user_with_archived).
Defined.

Lemma validate_password_accepts_witness :
  validate_password "secret" = Ret tt
  ∧ validate_password "   " = Raise (ValueError "No password provided.")
  ∧ validate_password (nbsp ++ nbsp ++ nbsp ++ nbsp)
    = Raise (ValueError "No password provided.")
  ∧ validate_password "my secret" = Raise (ValueError "Passwords cannot contain spaces.")
  ∧ validate_password "abc"
    = Raise (ValueError "Passwords must be at least four characters.")
  ∧ validate_password umlauts
    = Raise (ValueError "Passwords must be at least four characters.").
Proof.
  split; [|split; [|split; [|split; [|split]]]].
  - apply (proj1 (validate_password_accepts "secret")). split; [reflexivity|simpl; lia].
  - apply (proj1 (proj2 (validate_password_accepts "   "))). reflexivity.
  - apply (proj1 (proj2 (validate_password_accepts (nbsp ++ nbsp ++ nbsp ++ nbsp)))).
    reflexivity.
  - apply (proj1 (proj2 (proj2 (validate_password_accepts "my secret"))));
      [vm_compute; discriminate | reflexivity].
  - apply (proj2 (proj2 (proj2 (validate_password_accepts "abc"))));
      [reflexivity | simpl; lia].
  - apply (proj2 (proj2 (proj2 (validate_password_accepts umlauts))));
      [reflexivity | simpl; lia].
Defined.

Lemma add_mail_user_creates_account_witness :
  ∃ report st',
    add_mail_user collab "you@example.com" "secret" (Some "admin") box one_user
    = (Ret (Text report), st')
    ∧ get_mail_password "you@example.com" box st' = Ret "{SHA512-CRYPT}secret"
    ∧ get_mail_user_privileges "you@example.com" false st' = inr ["admin"]
    ∧ ∀ other, other ≠ "you@example.com" →
        users st' !! other = users one_user !! other.
Proof.
  apply (add_mail_user_creates_account collab sample_sort_reorders "you@example.com"
           "secret" (Some "admin") box one_user ["admin"] "{SHA512-CRYPT}secret" "").
  - vm_compute. discriminate.
  - reflexivity.
  - reflexivity.
  - vm_compute. discriminate.
  - intros [H|[H|H]]; vm_compute in H; [discriminate|discriminate|lia].
  - reflexivity.
  - reflexivity.
  - reflexivity.
  - reflexivity.
  - reflexivity.
  - vm_compute. lia.
  - exact one_user_well_formed.
Defined.

End ConcreteReaders.
